(** * MedSoft dashboard fan-out: connection registry, broadcast, liveness loop

    Shallow embedding of the WebSocket notification core of the two
    services of the repository, and of the HTTP handlers that feed it:

    - [MedSoft/HL7 2/HL7/chief_server.py]  (modules [Chief], [ChiefApi])
    - [MedSoft/FHIR/main.py]               (module [Fhir])
    - [MedSoft/HL7/main.py]                (module [Reception])

    Both define the same [WSManager] registry ([connect], [disconnect]) but
    different [broadcast] methods and different [chief_ws] handlers.  The
    transport (Starlette's [WebSocket]) is not part of the repository: what
    [accept], [send_json], [receive_text] and [client_state] answer is an
    input of the model. *)

From Stdlib Require Import List Arith Bool Lia String Ascii ZArith.
From Stdlib Require DecimalString.
Import ListNotations.
Open Scope string_scope.
Open Scope list_scope.
Open Scope nat_scope.

(** ** Python exceptions and [except] matching *)

(** The exception classes that the handlers name, the classes raised by
    the operations used ([list.remove], attribute access, indexing, the
    JSON encoder and decoder, the binding of an SQL parameter), and
    [CancelledError], which derives from [BaseException] only.
    [asyncio.TimeoutError] is raised by [wait_for] alone and handled on
    the spot: it is the [None] answer of [Fhir.wait_for] below. *)
Inductive exn :=
| BaseException | Exception | CancelledError
| OSError | ConnectionError | ConnectionResetError | BrokenPipeError
| RuntimeError | ValueError | TypeError | AttributeError
| LookupError | IndexError | KeyError
| ArithmeticError | OverflowError
| WebSocketDisconnect.

Definition exn_eq_dec (a b : exn) : {a = b} + {a <> b}.
Proof. decide equality. Defined.

Definition exn_eqb (a b : exn) : bool :=
  if exn_eq_dec a b then true else false.

(** Method resolution order of each class (without [object]). *)
Definition mro (e : exn) : list exn :=
  match e with
  | BaseException => [BaseException]
  | Exception => [Exception; BaseException]
  | CancelledError => [CancelledError; BaseException]
  | OSError => [OSError; Exception; BaseException]
  | ConnectionError => [ConnectionError; OSError; Exception; BaseException]
  | ConnectionResetError =>
      [ConnectionResetError; ConnectionError; OSError; Exception; BaseException]
  | BrokenPipeError =>
      [BrokenPipeError; ConnectionError; OSError; Exception; BaseException]
  | RuntimeError => [RuntimeError; Exception; BaseException]
  | ValueError => [ValueError; Exception; BaseException]
  | TypeError => [TypeError; Exception; BaseException]
  | AttributeError => [AttributeError; Exception; BaseException]
  | LookupError => [LookupError; Exception; BaseException]
  | IndexError => [IndexError; LookupError; Exception; BaseException]
  | KeyError => [KeyError; LookupError; Exception; BaseException]
  | ArithmeticError => [ArithmeticError; Exception; BaseException]
  | OverflowError =>
      [OverflowError; ArithmeticError; Exception; BaseException]
  | WebSocketDisconnect => [WebSocketDisconnect; Exception; BaseException]
  end.

Definition isinstance (e cls : exn) : bool := existsb (exn_eqb cls) (mro e).

(** [except (c1, ..., cn):] catches [e] when it is an instance of some [ci]. *)
Definition caught (e : exn) (classes : list exn) : bool :=
  existsb (isinstance e) classes.

(** Result of running a piece of code up to the observation horizon: it
    returned, it raised, or it is still suspended in an [await]. *)
Inductive res (A : Type) :=
| Ok (a : A)
| Raise (e : exn)
| Pending.
Arguments Ok {A} a.
Arguments Raise {A} e.
Arguments Pending {A}.

(** ** JSON values: the [dict] messages and the parsed request bodies *)

#[local] Unset Elimination Schemes.
Inductive json :=
| JNull
| JBool (b : bool)
| JInt (n : Z)
| JFloat (nonzero : bool)   (* a float: only its truth value is observed *)
| JStr (s : string)
| JArr (items : list json)
| JObj (fields : list (string * json)).
#[local] Set Elimination Schemes.

(** [{"type": "ping"}] *)
Definition ping : json := JObj [("type", JStr "ping")].

(** [{"type": "patients", "data": rows}] *)
Definition patients_message (rows : list json) : json :=
  JObj [("type", JStr "patients"); ("data", JArr rows)].

Definition is_ping (m : json) : bool :=
  match m with
  | JObj [(k, JStr v)] => String.eqb k "type" && String.eqb v "ping"
  | _ => false
  end.

(** ** SQL parameters *)

(** SQLite holds an INTEGER in 64 bits: [sqlite3] binds a Python [int]
    within that range and raises [OverflowError] for any other. *)
Definition in_int64 (n : Z) : bool :=
  ((- 2 ^ 63 <=? n) && (n <? 2 ^ 63))%Z.

Definition bind_int (n : Z) : res Z :=
  if in_int64 n then Ok n else Raise OverflowError.

(** ** The shared world: registry and wire *)

(** A connection object; [in] and [list.remove] compare [WebSocket]
    objects by identity. *)
Definition WebSocket := nat.

Inductive WebSocketState := CONNECTING | CONNECTED | DISCONNECTED | RESPONSE.

Definition is_connected (s : WebSocketState) : bool :=
  match s with CONNECTED => true | _ => false end.

(** What one connection answers at one instant. *)
Record peer := {
  client_state : WebSocketState;
  send_json : json -> res unit
}.

(** One [await ws.send_json(message)] as seen on the wire. *)
Inductive frame :=
| Delivered (ws : WebSocket) (message : json)
| Failed (ws : WebSocket) (message : json) (e : exn).

Definition frame_ws (f : frame) : WebSocket :=
  match f with Delivered ws _ | Failed ws _ _ => ws end.

Definition is_delivered (f : frame) : bool :=
  match f with Delivered _ _ => true | Failed _ _ _ => false end.

Record world := {
  active : list WebSocket;   (* WSManager.active *)
  wire : list frame;         (* send attempts so far, oldest first *)
  clock : nat                (* time units elapsed *)
}.

Definition set_active (l : list WebSocket) (w : world) : world :=
  {| active := l; wire := wire w; clock := clock w |}.

Definition emit (f : frame) (w : world) : world :=
  {| active := active w; wire := wire w ++ [f]; clock := clock w |}.

Definition tick (n : nat) (w : world) : world :=
  {| active := active w; wire := wire w; clock := clock w + n |}.

(** ** A state-and-exception monad for the coroutines *)

Definition M (A : Type) := world -> res A * world.

Definition ret {A} (a : A) : M A := fun w => (Ok a, w).
Definition raise {A} (e : exn) : M A := fun w => (Raise e, w).
Definition suspended {A} : M A := fun w => (Pending, w).

Definition bind {A B} (m : M A) (k : A -> M B) : M B :=
  fun w =>
    match m w with
    | (Ok a, w') => k a w'
    | (Raise e, w') => (Raise e, w')
    | (Pending, w') => (Pending, w')
    end.

Notation "x <- m ;; k" := (bind m (fun x => k))
  (at level 61, m at next level, right associativity).
Notation "m ;;; k" := (bind m (fun _ => k))
  (at level 61, right associativity).

(** The first [except] clause, in source order, whose classes match. *)
Fixpoint select_handler {A} (e : exn) (clauses : list (list exn * M A))
  : option (M A) :=
  match clauses with
  | [] => None
  | (classes, handler) :: rest =>
      if caught e classes then Some handler else select_handler e rest
  end.

(** [try: body  except cs1: h1  except cs2: h2 ...].  An exception raised
    by a handler is not looked up again in the clauses of the same [try]. *)
Definition try_except {A} (body : M A) (clauses : list (list exn * M A))
  : M A :=
  fun w =>
    match body w with
    | (Raise e, w') =>
        match select_handler e clauses with
        | Some handler => handler w'
        | None => (Raise e, w')
        end
    | r => r
    end.

(** [try: body  finally: cleanup].  A body that is still suspended has not
    reached its [finally] block. *)
Definition try_finally {A} (body : M A) (cleanup : M unit) : M A :=
  fun w =>
    match body w with
    | (Pending, w') => (Pending, w')
    | (r, w') =>
        match cleanup w' with
        | (Ok _, w'') => (r, w'')
        | (Raise e, w'') => (Raise e, w'')
        | (Pending, w'') => (Pending, w'')
        end
    end.

Definition lift {A} (r : res A) : M A := fun w => (r, w).

(** ** WSManager: the registry (identical in both services) *)

(** [ws in self.active] *)
Definition contains (ws : WebSocket) (l : list WebSocket) : bool :=
  existsb (Nat.eqb ws) l.

(** [list.remove(ws)]: deletes the first occurrence, [ValueError] when
    there is none. *)
Fixpoint list_remove (ws : WebSocket) (l : list WebSocket)
  : res (list WebSocket) :=
  match l with
  | [] => Raise ValueError
  | x :: l' =>
      if Nat.eqb x ws then Ok l'
      else match list_remove ws l' with
           | Ok r => Ok (x :: r)
           | other => other
           end
  end.

(** [WSManager.connect]: [await ws.accept()], then [self.active.append(ws)].
    [accepted] is what the transport answers to [accept]. *)
Definition connect (accepted : res unit) (ws : WebSocket) : M unit :=
  lift accepted ;;;
  fun w => (Ok tt, set_active (active w ++ [ws]) w).

(** [WSManager.disconnect] *)
Definition disconnect (ws : WebSocket) : M unit :=
  fun w =>
    if contains ws (active w) then
      match list_remove ws (active w) with
      | Ok l => (Ok tt, set_active l w)
      | Raise e => (Raise e, w)
      | Pending => (Pending, w)
      end
    else (Ok tt, w).

(** [list(self.active)] *)
Definition snapshot (w : world) : list WebSocket := active w.

(** A registry call made by some task. *)
Inductive call :=
| Connect (ws : WebSocket) (accepted : res unit)
| Disconnect (ws : WebSocket).

Definition perform (c : call) : M unit :=
  match c with
  | Connect ws accepted => connect accepted ws
  | Disconnect ws => disconnect ws
  end.

(** The world after a sequence of calls, each made by a caller that goes
    on whatever the outcome of the previous one. *)
Definition after_calls (calls : list call) (w : world) : world :=
  fold_left (fun w c => snd (perform c w)) calls w.

Definition empty_world : world := {| active := []; wire := []; clock := 0 |}.

(** *** The registry of the specification: a set of connections *)

(** Membership after one call, in the words of the specification: [add]
    makes the connection a member, [remove] makes it a non-member.  A
    [connect] whose handshake does not complete adds nothing. *)
Definition spec_call (members : WebSocket -> bool) (c : call)
  : WebSocket -> bool :=
  match c with
  | Connect ws (Ok _) => fun x => if Nat.eqb x ws then true else members x
  | Connect _ _ => members
  | Disconnect ws => fun x => if Nat.eqb x ws then false else members x
  end.

(** "added and not subsequently removed" *)
Definition spec_members (calls : list call) : WebSocket -> bool :=
  fold_left spec_call calls (fun _ => false).

(** No connection is added while it is a member. *)
Fixpoint adds_fresh (members : WebSocket -> bool) (calls : list call) : Prop :=
  match calls with
  | [] => True
  | c :: rest =>
      match c with
      | Connect ws (Ok _) => members ws = false
      | _ => True
      end /\ adds_fresh (spec_call members c) rest
  end.

(** ** The transport as the coroutines see it *)

(** [await ws.send_json(message)] on a connection that answers as [p].
    The attempt shows on the wire; [meanwhile] are the registry calls that
    other tasks complete while this one is suspended in the [await]. *)
Definition await_send (p : peer) (ws : WebSocket) (message : json)
    (meanwhile : list call) : M unit :=
  fun w =>
    match send_json p message with
    | Ok _ => (Ok tt, after_calls meanwhile (emit (Delivered ws message) w))
    | Raise e => (Raise e, after_calls meanwhile (emit (Failed ws message e) w))
    | Pending => (Pending, after_calls meanwhile w)
    end.

(** The same [await] with all that the event loop runs in the meantime
    written as one task [others]: registry calls as above, or another
    coroutine of the program run up to some point.  What [others] returns
    or raises is its own affair; the world it leaves is the one in which
    the suspended coroutine resumes. *)
Definition await_send_during (p : peer) (ws : WebSocket) (message : json)
    (others : M unit) : M unit :=
  fun w =>
    match send_json p message with
    | Ok _ => (Ok tt, snd (others (emit (Delivered ws message) w)))
    | Raise e => (Raise e, snd (others (emit (Failed ws message e) w)))
    | Pending => (Pending, snd (others w))
    end.

(** Registry calls as such a task. *)
Definition registry_calls (calls : list call) : M unit :=
  fun w => (Ok tt, after_calls calls w).

(** What happens next on the inbound side of one connection.  [gap] is the
    time from the start of the current wait to the event. *)
Inductive inbound :=
| Text (gap : nat) (data : string)   (* the client sends a text frame *)
| Broken (gap : nat) (e : exn)       (* [receive_text] raises [e] *)
| Meanwhile (c : call).              (* another task calls the registry *)

(** [await ws.receive_text()]: the frame and what is left of the script.
    With nothing left to come the coroutine stays suspended. *)
Fixpoint receive_text (script : list inbound)
  : M (string * list inbound) :=
  match script with
  | [] => suspended
  | Text gap data :: rest => fun w => (Ok (data, rest), tick gap w)
  | Broken gap e :: _ => fun w => (Raise e, tick gap w)
  | Meanwhile c :: rest => fun w => receive_text rest (snd (perform c w))
  end.

(** No other task registers [ws]: a connection object is handed to
    [connect] by its own handler only. *)
Fixpoint foreign (ws : WebSocket) (script : list inbound) : bool :=
  match script with
  | [] => true
  | Meanwhile (Connect ws' _) :: rest =>
      negb (Nat.eqb ws' ws) && foreign ws rest
  | _ :: rest => foreign ws rest
  end.

(** The same script with the contents of the client frames blanked. *)
Definition blank (i : inbound) : inbound :=
  match i with
  | Text gap _ => Text gap ""
  | other => other
  end.

(** * chief_server.py *)
Module Chief.

Section Broadcast.
Variable net : WebSocket -> peer.
(** Registry calls of other tasks during the [i]-th [await] of the loop. *)
Variable meanwhile : nat -> list call.
Variable message : json.

(** [for ws in self.active: try: await ws.send_json(message)
     except Exception: drop.append(ws)].
    The loop runs on the live list: the list iterator holds an index [i]
    and stops when [i] is past the end of the list as it is then. *)
Fixpoint deliver (fuel i : nat) (drop : list WebSocket)
  : M (list WebSocket) :=
  fun w =>
    match nth_error (active w) i with
    | None => (Ok drop, w)
    | Some ws =>
        match fuel with
        | 0 => (Pending, w)
        | S fuel' =>
            (d <- try_except
                    (await_send (net ws) ws message (meanwhile i) ;;;
                     ret drop)
                    [([Exception], ret (drop ++ [ws]))] ;;
             deliver fuel' (S i) d) w
        end
    end.

(** [for ws in drop: self.disconnect(ws)] *)
Fixpoint disconnect_all (drop : list WebSocket) : M unit :=
  match drop with
  | [] => ret tt
  | ws :: rest => disconnect ws ;;; disconnect_all rest
  end.

(** [WSManager.broadcast] *)
Definition broadcast (fuel : nat) : M unit :=
  drop <- deliver fuel 0 [] ;;
  disconnect_all drop.
End Broadcast.

(** The same method with any tasks in the gaps of its awaits: [during i]
    is what the event loop runs while the [i]-th send is suspended. *)
Section Overlap.
Variable net : WebSocket -> peer.
Variable during : nat -> M unit.
Variable message : json.

Fixpoint deliver_during (fuel i : nat) (drop : list WebSocket)
  : M (list WebSocket) :=
  fun w =>
    match nth_error (active w) i with
    | None => (Ok drop, w)
    | Some ws =>
        match fuel with
        | 0 => (Pending, w)
        | S fuel' =>
            (d <- try_except
                    (await_send_during (net ws) ws message (during i) ;;;
                     ret drop)
                    [([Exception], ret (drop ++ [ws]))] ;;
             deliver_during fuel' (S i) d) w
        end
    end.

Definition broadcast_during (fuel : nat) : M unit :=
  drop <- deliver_during fuel 0 [] ;;
  disconnect_all drop.
End Overlap.

Section Handler.
Variable accepted : res unit.          (* answer to [ws.accept()] *)
Variable fetch : res (list json).      (* [fetch_all_patients()] *)
Variable line : nat -> peer.           (* the connection over time *)
Variable ws : WebSocket.

(** [while True: await ws.receive_text()] *)
Fixpoint keep_alive (fuel : nat) (script : list inbound) : M unit :=
  match fuel with
  | 0 => suspended
  | S fuel' =>
      r <- receive_text script ;;
      keep_alive fuel' (snd r)
  end.

(** [chief_ws] *)
Definition chief_ws (fuel : nat) (script : list inbound) : M unit :=
  connect accepted ws ;;;
  try_except
    (rows <- lift fetch ;;
     (fun w => await_send (line (clock w)) ws (patients_message rows) [] w) ;;;
     keep_alive fuel script)
    [([WebSocketDisconnect], disconnect ws);
     ([Exception], disconnect ws)].
End Handler.

End Chief.

(** * FHIR/main.py *)
Module Fhir.

(** The classes of the [except] clause of [broadcast]. *)
Definition absorbed : list exn :=
  [WebSocketDisconnect; ConnectionResetError; BrokenPipeError;
   OSError; RuntimeError].

Section Broadcast.
Variable net : WebSocket -> peer.
Variable meanwhile : nat -> list call.
Variable message : json.

(** The body of [for ws in list(self.active):], over the copy. *)
Fixpoint visit (copy : list WebSocket) (i : nat) : M unit :=
  match copy with
  | [] => ret tt
  | ws :: rest =>
      try_except
        (if is_connected (client_state (net ws))
         then await_send (net ws) ws message (meanwhile i)
         else disconnect ws)
        [(absorbed, disconnect ws)] ;;;
      visit rest (S i)
  end.

(** [WSManager.broadcast] *)
Definition broadcast : M unit :=
  fun w => visit (snapshot w) 0 w.
End Broadcast.

(** The same method with any tasks in the gaps of its awaits: [during i]
    is what the event loop runs while the [i]-th send is suspended. *)
Section Overlap.
Variable net : WebSocket -> peer.
Variable during : nat -> M unit.
Variable message : json.

Fixpoint visit_during (copy : list WebSocket) (i : nat) : M unit :=
  match copy with
  | [] => ret tt
  | ws :: rest =>
      try_except
        (if is_connected (client_state (net ws))
         then await_send_during (net ws) ws message (during i)
         else disconnect ws)
        [(absorbed, disconnect ws)] ;;;
      visit_during rest (S i)
  end.

Definition broadcast_during : M unit :=
  fun w => visit_during (snapshot w) 0 w.
End Overlap.

(** [timeout=30] *)
Definition TIMEOUT : nat := 30.

(** [await asyncio.wait_for(ws.receive_text(), timeout)]: [Some data] when
    a frame arrives before the timeout, [None] for [asyncio.TimeoutError];
    an event that is later than the timeout stays ahead, that much
    nearer. *)
Fixpoint wait_for (timeout : nat) (script : list inbound)
  : M (option string * list inbound) :=
  match script with
  | [] => fun w => (Ok (None, []), tick timeout w)
  | Text gap data :: rest =>
      fun w =>
        if gap <? timeout then (Ok (Some data, rest), tick gap w)
        else (Ok (None, Text (gap - timeout) data :: rest), tick timeout w)
  | Broken gap e :: rest =>
      fun w =>
        if gap <? timeout then (Raise e, tick gap w)
        else (Ok (None, Broken (gap - timeout) e :: rest), tick timeout w)
  | Meanwhile c :: rest => fun w => wait_for timeout rest (snd (perform c w))
  end.

Section Handler.
Variable accepted : res unit.          (* answer to [ws.accept()] *)
Variable fetch : res (list json).      (* [fetch_last_patients(10)] *)
Variable line : nat -> peer.           (* the connection over time *)
Variable ws : WebSocket.

(** The [except asyncio.TimeoutError:] block. *)
Definition heartbeat : M unit :=
  fun w =>
    if is_connected (client_state (line (clock w)))
    then await_send (line (clock w)) ws ping [] w
    else (Ok tt, w).

(** [while True: try: await wait_for(...) except TimeoutError: ...] *)
Fixpoint keep_alive (fuel : nat) (script : list inbound) : M unit :=
  match fuel with
  | 0 => suspended
  | S fuel' =>
      r <- wait_for TIMEOUT script ;;
      match fst r with
      | Some _ => ret tt
      | None => heartbeat
      end ;;;
      keep_alive fuel' (snd r)
  end.

(** [chief_ws] *)
Definition chief_ws (fuel : nat) (script : list inbound) : M unit :=
  connect accepted ws ;;;
  try_finally
    (try_except
       (rows <- lift fetch ;;
        (fun w =>
           await_send (line (clock w)) ws (patients_message rows) [] w) ;;;
        keep_alive fuel script)
       [([WebSocketDisconnect; ConnectionResetError; OSError], ret tt)])
    (disconnect ws).
End Handler.

(** ** POST /fhir/Patient *)

(** [str] values are modelled over the code points below 256 (header
    values are Latin-1 by construction). *)
Definition is_space (c : ascii) : bool :=
  let n := nat_of_ascii c in
  ((9 <=? n) && (n <=? 13)) || ((28 <=? n) && (n <=? 32))
  || (n =? 133) || (n =? 160).

Fixpoint lstrip (s : string) : string :=
  match s with
  | EmptyString => EmptyString
  | String c s' => if is_space c then lstrip s' else s
  end.

Fixpoint rstrip (s : string) : string :=
  match s with
  | EmptyString => EmptyString
  | String c s' =>
      match rstrip s' with
      | EmptyString => if is_space c then EmptyString else String c EmptyString
      | r => String c r
      end
  end.

(** [s.strip()] *)
Definition strip (s : string) : string := rstrip (lstrip s).

Definition lower_char (c : ascii) : ascii :=
  let n := nat_of_ascii c in
  if ((65 <=? n) && (n <=? 90))
     || ((192 <=? n) && (n <=? 222) && negb (n =? 215))
  then ascii_of_nat (n + 32) else c.

(** [s.lower()] *)
Fixpoint lower (s : string) : string :=
  match s with
  | EmptyString => EmptyString
  | String c s' => String (lower_char c) (lower s')
  end.

(** [s.split(sep)[0]] *)
Fixpoint before (sep : ascii) (s : string) : string :=
  match s with
  | EmptyString => EmptyString
  | String c s' =>
      if Ascii.eqb c sep then EmptyString else String c (before sep s')
  end.

Record request := {
  content_type : option string;   (* the Content-Type header, when sent *)
  body : string                   (* the raw bytes *)
}.

(** The header test that guards the handler. *)
Definition accepted_content_type (req : request) : bool :=
  let h := match content_type req with Some v => v | None => "" end in
  let t := lower (strip (before ";" h)) in
  String.eqb t "application/fhir+json" || String.eqb t "application/json".

(** The library functions applied to the body and to what is parsed from
    it.  A text that [json.loads] returns need not encode as UTF-8 (an
    escaped lone surrogate), and [sqlite3] raises when it is to bind such
    a [str]: what binding a value comes to is an input like the answers of
    the decoders. *)
Record codec := {
  decode_ignore : string -> string;      (* [raw.decode("utf-8","ignore")] *)
  decode_strict : string -> res string;  (* [raw.decode("utf-8")] *)
  loads : string -> res json;            (* [json.loads] *)
  bind_text : string -> res unit         (* [sqlite3] binding a [str] *)
}.

(** The [str] parameters of one statement, bound in order: the first that
    cannot be bound ends the [execute]. *)
Fixpoint bind_texts (c : codec) (values : list string) : res unit :=
  match values with
  | [] => Ok tt
  | v :: rest =>
      match bind_text c v with
      | Ok _ => bind_texts c rest
      | other => other
      end
  end.

Record patient_row := {
  row_id : Z;
  row_fhir_id : string;
  row_family : string;
  row_given : string;
  row_birthDate : string;
  row_received_at : string
}.

(** The two tables of [app.db], rows in insertion order, each with the
    last AUTOINCREMENT key handed out. *)
Record database := {
  patients : list patient_row;
  patients_seq : Z;
  fhir_messages : list (Z * string * string);   (* id, created_at, raw *)
  fhir_messages_seq : Z
}.

(** [INSERT INTO fhir_messages(created_at, raw) VALUES(?, ?)] *)
Definition insert_message (created_at raw : string) (db : database)
  : database :=
  let k := (fhir_messages_seq db + 1)%Z in
  {| patients := patients db;
     patients_seq := patients_seq db;
     fhir_messages := fhir_messages db ++ [(k, created_at, raw)];
     fhir_messages_seq := k |}.

(** [INSERT INTO patients(fhir_id, family, given, birthDate, received_at)] *)
Definition insert_patient (fhir_id family given birthDate received_at : string)
    (db : database) : database :=
  let k := (patients_seq db + 1)%Z in
  {| patients := patients db ++
       [{| row_id := k; row_fhir_id := fhir_id; row_family := family;
           row_given := given; row_birthDate := birthDate;
           row_received_at := received_at |}];
     patients_seq := k;
     fhir_messages := fhir_messages db;
     fhir_messages_seq := fhir_messages_seq db |}.

Definition row_json (r : patient_row) : json :=
  JObj [("id", JInt (row_id r)); ("last_name", JStr (row_family r));
        ("first_name", JStr (row_given r)); ("dob", JStr (row_birthDate r));
        ("fhir_id", JStr (row_fhir_id r))].

(** [fetch_last_patients(limit)]: [ORDER BY id DESC LIMIT ?]; keys grow
    with insertion, so descending keys are reverse insertion order. *)
Definition fetch_last_patients (limit : nat) (db : database) : list json :=
  map row_json (firstn limit (rev (patients db))).

(** *** Dynamic operations on parsed values *)

Definition rbind {A B} (r : res A) (k : A -> res B) : res B :=
  match r with
  | Ok a => k a
  | Raise e => Raise e
  | Pending => Pending
  end.

Notation "x <~ r ;; k" := (rbind r (fun x => k))
  (at level 61, r at next level, right associativity).

Fixpoint lookup (key : string) (fields : list (string * json)) : option json :=
  match fields with
  | [] => None
  | (k, v) :: rest => if String.eqb k key then Some v else lookup key rest
  end.

(** [o.get(key, default)]: only a dict has [get]. *)
Definition py_get (o : json) (key : string) (default : json) : res json :=
  match o with
  | JObj fields =>
      Ok (match lookup key fields with Some v => v | None => default end)
  | _ => Raise AttributeError
  end.

(** [v[0]] *)
Definition py_first (v : json) : res json :=
  match v with
  | JArr (x :: _) => Ok x
  | JArr [] => Raise IndexError
  | JStr (String c _) => Ok (JStr (String c EmptyString))
  | JStr EmptyString => Raise IndexError
  | JObj _ => Raise KeyError        (* the keys of a parsed dict are strings *)
  | _ => Raise TypeError
  end.

(** [bool(v)] *)
Definition truthy (v : json) : bool :=
  match v with
  | JNull => false
  | JBool b => b
  | JInt n => negb (Z.eqb n 0)
  | JFloat nonzero => nonzero
  | JStr s => negb (String.eqb s "")
  | JArr items => match items with [] => false | _ => true end
  | JObj fields => match fields with [] => false | _ => true end
  end.

(** [a or b] *)
Definition py_or (a b : json) : json := if truthy a then a else b.

(** [v.strip()]: only a str has [strip]. *)
Definition py_strip (v : json) : res string :=
  match v with
  | JStr s => Ok (strip s)
  | _ => Raise AttributeError
  end.

(** [v != "Patient"] *)
Definition differs_from_str (v : json) (s : string) : bool :=
  match v with
  | JStr t => negb (String.eqb t s)
  | _ => true
  end.

Inductive response :=
| Unsupported                 (* 415 Unsupported Content-Type *)
| NotPatient                  (* 400 not a Patient resource *)
| MissingFields               (* 400 missing required fields *)
| BadJson (e : exn)           (* 400 bad json: e *)
| Created (fhir_id : string). (* 201 *)

Definition status_code (r : response) : nat :=
  match r with
  | Unsupported => 415
  | NotPatient | MissingFields | BadJson _ => 400
  | Created _ => 201
  end.

(** The [try] block of the handler: an early [return] is [inl], the
    extracted fields are [inr]. *)
Definition extract (c : codec) (raw : string)
  : res (response + (string * string * string * string)) :=
  text <~ decode_strict c raw ;;
  obj <~ loads c text ;;
  rt <~ py_get obj "resourceType" JNull ;;
  if differs_from_str rt "Patient" then Ok (inl NotPatient) else
  names <~ py_get obj "name" (JArr [JObj []]) ;;
  name <~ py_first names ;;
  fam <~ py_get name "family" JNull ;;
  family <~ py_strip (py_or fam (JStr "")) ;;
  giv <~ py_get name "given" JNull ;;
  let given_arr := py_or giv (JArr []) in
  g <~ (if truthy given_arr then py_first given_arr else Ok (JStr "")) ;;
  given <~ py_strip g ;;
  bd <~ py_get obj "birthDate" JNull ;;
  birthDate <~ py_strip (py_or bd (JStr "")) ;;
  fid <~ py_get obj "id" JNull ;;
  fhir_id <~ py_strip (py_or fid (JStr "")) ;;
  if negb (negb (String.eqb family "") && negb (String.eqb given "")
           && negb (String.eqb birthDate ""))
  then Ok (inl MissingFields)
  else Ok (inr (fhir_id, family, given, birthDate)).

(** What the handler leaves behind: the response (or the exception that
    leaves the handler), the database, and the message of the broadcast
    task it created, if any. *)
Record outcome := {
  reply : res response;
  stored : database;
  spawned : option json
}.

(** [fhir_ingest]; [now] is [datetime.utcnow().isoformat()].  The first
    INSERT binds [now] and the output of the decoder, which always encode;
    the second, outside the [try], binds the four values taken from the
    body, and an exception of that [execute] leaves the handler with the
    message stored and no patient. *)
Definition fhir_ingest (c : codec) (now : string) (req : request)
    (db : database) : outcome :=
  if negb (accepted_content_type req)
  then {| reply := Ok Unsupported; stored := db; spawned := None |}
  else
    let raw := body req in
    let db1 := insert_message now (decode_ignore c raw) db in
    match extract c raw with
    | Ok (inl early) =>
        {| reply := Ok early; stored := db1; spawned := None |}
    | Ok (inr (fhir_id, family, given, birthDate)) =>
        match bind_texts c [fhir_id; family; given; birthDate] with
        | Ok _ =>
            let db2 :=
              insert_patient fhir_id family given birthDate now db1 in
            {| reply := Ok (Created fhir_id); stored := db2;
               spawned :=
                 Some (patients_message (fetch_last_patients 10 db2)) |}
        | Raise e => {| reply := Raise e; stored := db1; spawned := None |}
        | Pending => {| reply := Pending; stored := db1; spawned := None |}
        end
    | Raise e =>                       (* [except Exception as e:] *)
        {| reply := if isinstance e Exception then Ok (BadJson e) else Raise e;
           stored := db1; spawned := None |}
    | Pending => {| reply := Pending; stored := db1; spawned := None |}
    end.

(** ** DELETE /api/patient/{pid}, GET /api/patients, GET /api/fhir/last *)

(** [DELETE FROM patients WHERE id = ?]: [rowcount] and the table without
    the rows of that key.  The AUTOINCREMENT counter is not touched. *)
Definition delete_patient (pid : Z) (db : database) : nat * database :=
  (List.length (filter (fun r => Z.eqb (row_id r) pid) (patients db)),
   {| patients := filter (fun r => negb (Z.eqb (row_id r) pid)) (patients db);
      patients_seq := patients_seq db;
      fhir_messages := fhir_messages db;
      fhir_messages_seq := fhir_messages_seq db |}).

Inductive delete_reply :=
| NotFound                 (* HTTPException 404 patient not found *)
| Deleted (pid : Z).       (* {"ok": True, "deleted_id": pid} *)

Record delete_outcome := {
  del_reply : res delete_reply;
  del_stored : database;
  del_spawned : option json
}.

(** [api_delete_patient]: [pid] is any [int] of the path; the [execute]
    raises when it cannot bind it, and the exception leaves the handler. *)
Definition api_delete_patient (pid : Z) (db : database) : delete_outcome :=
  match bind_int pid with
  | Ok k =>
      let (deleted, db1) := delete_patient k db in
      if Nat.eqb deleted 0
      then {| del_reply := Ok NotFound; del_stored := db1;
              del_spawned := None |}
      else {| del_reply := Ok (Deleted pid); del_stored := db1;
              del_spawned :=
                Some (patients_message (fetch_last_patients 10 db1)) |}
  | Raise e => {| del_reply := Raise e; del_stored := db; del_spawned := None |}
  | Pending => {| del_reply := Pending; del_stored := db; del_spawned := None |}
  end.

(** [api_patients] *)
Definition api_patients (db : database) : list json :=
  fetch_last_patients 10 db.

(** SQLite's [LIMIT ?] with the bound [n] as its parameter: a negative
    bound is no bound, and a bound that cannot be bound ends the
    [execute]. *)
Definition sql_limit {A} (n : Z) (rows : list A) : res (list A) :=
  k <~ bind_int n ;;
  Ok (if (k <? 0)%Z then rows else firstn (Z.to_nat k) rows).

(** [api_fhir_last]: [ORDER BY id DESC LIMIT ?] over rows whose keys grow
    with insertion; [n] is any [int] of the query string. *)
Definition api_fhir_last (n : Z) (db : database) : res (list json) :=
  rows <~ sql_limit n (rev (fhir_messages db)) ;;
  Ok (map (fun m => JObj [("created_at", JStr (snd (fst m)));
                          ("raw", JStr (snd m))])
          rows).

End Fhir.

(** * chief_server.py: the HTTP side *)
Module ChiefApi.

(** The request model [PatientData]. *)
Record PatientData := {
  patient_id : Z;
  first_name : string;
  last_name : string;
  dob : string;
  hl7_raw : option string
}.

Record patient_row := {
  row_id : Z;
  row_first_name : string;
  row_last_name : string;
  row_dob : string;
  row_registered_at : string
}.

(** [chief_patients.db]: [patients] has [id INTEGER PRIMARY KEY], its rows
    are held in key order, as SQLite stores them; [hl7_messages] has an
    AUTOINCREMENT key. *)
Record database := {
  patients : list patient_row;
  hl7_messages : list (Z * string * string);   (* id, created_at, raw *)
  hl7_messages_seq : Z
}.

(** [INSERT OR REPLACE INTO patients(id, ...)]: the row takes the place of
    the row of the same key, if there is one. *)
Fixpoint replace_row (r : patient_row) (rows : list patient_row)
  : list patient_row :=
  match rows with
  | [] => [r]
  | x :: rest =>
      if (row_id r <? row_id x)%Z then r :: x :: rest
      else if (row_id r =? row_id x)%Z then r :: rest
      else x :: replace_row r rest
  end.

(** [INSERT INTO hl7_messages(created_at, raw) VALUES(?, ?)] *)
Definition insert_hl7 (created_at raw : string) (db : database) : database :=
  let k := (hl7_messages_seq db + 1)%Z in
  {| patients := patients db;
     hl7_messages := hl7_messages db ++ [(k, created_at, raw)];
     hl7_messages_seq := k |}.

Definition row_json (r : patient_row) : json :=
  JObj [("id", JInt (row_id r)); ("first_name", JStr (row_first_name r));
        ("last_name", JStr (row_last_name r)); ("dob", JStr (row_dob r))].

(** [fetch_all_patients]: [ORDER BY id DESC LIMIT 10]. *)
Definition fetch_all_patients (db : database) : list json :=
  map row_json (firstn 10 (rev (patients db))).

(** [if patient_data.hl7_raw:] *)
Definition has_hl7 (p : PatientData) : option string :=
  match hl7_raw p with
  | Some raw => if String.eqb raw "" then None else Some raw
  | None => None
  end.

(** What [register_patient] leaves behind: the response
    [{"status": "success", "patient_id": ...}] (or the exception that
    leaves the handler), the database, and the message of the broadcast
    task it created, if any. *)
Record outcome := {
  reply : res Z;
  stored : database;
  spawned : option json
}.

(** [register_patient]; [now1] and [now2] are the two readings of
    [datetime.utcnow().isoformat()].  [patient_id] is any [int] of the
    JSON body: the first [execute] raises when it cannot bind it, before
    anything is stored. *)
Definition register_patient (now1 now2 : string) (p : PatientData)
    (db : database) : outcome :=
  match bind_int (patient_id p) with
  | Ok k =>
      let row := {| row_id := k;
                    row_first_name := Fhir.strip (first_name p);
                    row_last_name := Fhir.strip (last_name p);
                    row_dob := dob p;
                    row_registered_at := now1 |} in
      let db1 := {| patients := replace_row row (patients db);
                    hl7_messages := hl7_messages db;
                    hl7_messages_seq := hl7_messages_seq db |} in
      let db2 := match has_hl7 p with
                 | Some raw => insert_hl7 now2 raw db1
                 | None => db1
                 end in
      {| reply := Ok (patient_id p);
         stored := db2;
         spawned := Some (patients_message (fetch_all_patients db2)) |}
  | Raise e => {| reply := Raise e; stored := db; spawned := None |}
  | Pending => {| reply := Pending; stored := db; spawned := None |}
  end.

(** [get_patients] *)
Definition get_patients (db : database) : list json := fetch_all_patients db.

End ChiefApi.

(** * HL7/main.py: the reception service *)
Module Reception.

(** The request model [PatientIn]; [dob] has passed [validate_dob]. *)
Record PatientIn := {
  first_name : string;
  last_name : string;
  dob : string
}.

Record patient_row := {
  row_id : Z;
  row_first_name : string;
  row_last_name : string;
  row_dob : string
}.

(** [patients.db]: both tables have an AUTOINCREMENT key. *)
Record database := {
  patients : list patient_row;
  patients_seq : Z;
  hl7_messages : list (Z * string * string);   (* id, created_at, raw *)
  hl7_messages_seq : Z
}.

(** ["\r"] *)
Definition CR : string := String "013" "".

(** [str(n)] of an [int]. *)
Definition str_int (n : Z) : string :=
  DecimalString.NilZero.string_of_int (Z.to_int n).

(** [s.replace(c, '')] for a one-character [c]. *)
Fixpoint remove_char (c : ascii) (s : string) : string :=
  match s with
  | EmptyString => EmptyString
  | String a s' =>
      if Ascii.eqb a c then remove_char c s' else String a (remove_char c s')
  end.

(** [sep.join(parts)] *)
Fixpoint join (sep : string) (parts : list string) : string :=
  match parts with
  | [] => ""
  | [part] => part
  | part :: rest => (part ++ sep ++ join sep rest)%string
  end.

(** The three segments of [build_hl7_adt_a04]; [ts] is the formatted
    [utcnow()] and [msg_id] the [uuid4()]. *)
Definition msh_segment (ts msg_id : string) : string :=
  ("MSH|^~\&|Reception|Clinic|HIS|Hospital|" ++ ts ++ "||ADT^A04|" ++ msg_id
   ++ "|P|2.5")%string.

Definition pid_segment (patient_id : Z) (first_name last_name dob : string)
  : string :=
  ("PID|||" ++ str_int patient_id ++ "||" ++ last_name ++ "^" ++ first_name
   ++ "||" ++ remove_char "-" dob ++ "|")%string.

Definition pv1_segment : string := "PV1||O".

(** [build_hl7_adt_a04] *)
Definition build_hl7_adt_a04 (ts msg_id : string) (patient_id : Z)
    (first_name last_name dob : string) : string :=
  (join CR [msh_segment ts msg_id;
            pid_segment patient_id first_name last_name dob;
            pv1_segment] ++ CR)%string.

(** [fetch_all_patients]: [ORDER BY id DESC LIMIT 10]. *)
Definition row_json (r : patient_row) : json :=
  JObj [("id", JInt (row_id r)); ("first_name", JStr (row_first_name r));
        ("last_name", JStr (row_last_name r)); ("dob", JStr (row_dob r))].

Definition fetch_all_patients (db : database) : list json :=
  map row_json (firstn 10 (rev (patients db))).

(** What [register] leaves behind: the response [{"id": ..., **p}] (or the
    exception that leaves the handler), the database, and the JSON payload
    posted to the chief server. *)
Record outcome := {
  reply : res (Z * PatientIn);
  stored : database;
  posted : ChiefApi.PatientData
}.

(** [register]; [notified] is what the POST to the chief server (with
    [raise_for_status]) comes to. *)
Definition register (ts msg_id now : string) (notified : res unit)
    (p : PatientIn) (db : database) : outcome :=
  let patient_id := (patients_seq db + 1)%Z in
  let hl7 := build_hl7_adt_a04 ts msg_id patient_id
               (first_name p) (last_name p) (dob p) in
  let k := (hl7_messages_seq db + 1)%Z in
  {| reply :=
       match notified with
       | Ok _ => Ok (patient_id, p)
       | Raise e =>
           if caught e [ConnectionResetError] then Ok (patient_id, p)
           else if caught e [Exception] then Ok (patient_id, p)
           else Raise e
       | Pending => Pending
       end;
     stored :=
       {| patients := patients db ++
            [{| row_id := patient_id;
                row_first_name := Fhir.strip (first_name p);
                row_last_name := Fhir.strip (last_name p);
                row_dob := dob p |}];
          patients_seq := patient_id;
          hl7_messages := hl7_messages db ++ [(k, now, hl7)];
          hl7_messages_seq := k |};
     posted :=
       {| ChiefApi.patient_id := patient_id;
          ChiefApi.first_name := first_name p;
          ChiefApi.last_name := last_name p;
          ChiefApi.dob := dob p;
          ChiefApi.hl7_raw := Some hl7 |} |}.

(** [last_hl7]; [n] is any [int] of the query string. *)
Definition last_hl7 (n : Z) (db : database) : res (list json) :=
  Fhir.rbind (Fhir.sql_limit n (rev (hl7_messages db)))
    (fun rows =>
       Ok (map (fun m => JObj [("created_at", JStr (snd (fst m)));
                               ("raw", JStr (snd m))])
               rows)).

End Reception.

(** * Auxiliary definitions for the statements *)

(** The list without the first occurrence of [ws], if any. *)
Fixpoint remove_first (ws : WebSocket) (l : list WebSocket) : list WebSocket :=
  match l with
  | [] => []
  | x :: l' => if Nat.eqb x ws then l' else x :: remove_first ws l'
  end.

(** No other task touches the registry during a broadcast. *)
Definition quiet : nat -> list call := fun _ => [].

Definition occurrences (ws : WebSocket) (l : list WebSocket) : nat :=
  count_occ Nat.eq_dec l ws.

(** The frames a task put on the wire: what [w'] has beyond [w]. *)
Definition new_frames (w w' : world) : list frame :=
  skipn (List.length (wire w)) (wire w').

Definition pings (fs : list frame) : nat :=
  List.length (filter (fun f => match f with
                           | Delivered _ m => is_ping m
                           | Failed _ _ _ => false
                           end) fs).

(** The list registry agrees with the set of the specification as long as
    every connection occurs as often as the set says. *)
Definition agrees (members : WebSocket -> bool) (l : list WebSocket) : Prop :=
  forall x, occurrences x l = if members x then 1 else 0.

(** What one send of [message] to [x] leaves on the wire. *)
Definition trace (net : WebSocket -> peer) (message : json) (x : WebSocket)
  : list frame :=
  match send_json (net x) message with
  | Ok _ => [Delivered x message]
  | Raise e => [Failed x message e]
  | Pending => []
  end.

Definition takes (net : WebSocket -> peer) (message : json) (x : WebSocket)
  : bool :=
  match send_json (net x) message with Ok _ => true | _ => false end.

Definition is_not (k x : WebSocket) : bool := negb (Nat.eqb x k).

(** The outcome that C1 describes: the call returns, the registry is the
    old one without [k], and the frames delivered are [message] to each of
    the others, in registry order. *)
Definition only_dropped (message : json) (k : WebSocket) (w : world)
    (r : res unit * world) : Prop :=
  fst r = Ok tt
  /\ active (snd r) = filter (is_not k) (active w)
  /\ List.length (active (snd r))
     = List.length (active w) - occurrences k (active w)
  /\ filter is_delivered (new_frames w (snd r))
     = map (fun x => Delivered x message) (filter (is_not k) (active w)).

(** Every connection of the registry other than [k] is open and takes
    [message]. *)
Definition others_take (net : WebSocket -> peer) (message : json)
    (k : WebSocket) (w : world) : Prop :=
  forall x, In x (active w) -> x <> k ->
    client_state (net x) = CONNECTED /\ send_json (net x) message = Ok tt.

(** For [Chief.broadcast] a send is settled when it returns or raises an
    [Exception]. *)
Definition chief_settled (net : WebSocket -> peer) (message : json)
    (x : WebSocket) : Prop :=
  send_json (net x) message = Ok tt
  \/ exists e, send_json (net x) message = Raise e
               /\ isinstance e Exception = true.

(** For [Fhir.broadcast]: the connections it keeps, what a visit leaves on
    the wire, and when a visit is settled (closed, or the send returns, or
    it raises one of the absorbed classes). *)
Definition fhir_keeps (net : WebSocket -> peer) (message : json)
    (x : WebSocket) : bool :=
  is_connected (client_state (net x)) && takes net message x.

Definition fhir_trace (net : WebSocket -> peer) (message : json)
    (x : WebSocket) : list frame :=
  if is_connected (client_state (net x)) then trace net message x else [].

Definition fhir_settled (net : WebSocket -> peer) (message : json)
    (x : WebSocket) : Prop :=
  client_state (net x) <> CONNECTED
  \/ send_json (net x) message = Ok tt
  \/ exists e, send_json (net x) message = Raise e
               /\ caught e Fhir.absorbed = true.

(** The registry calls that other tasks make before the next inbound
    event, and the script from that event on. *)
Fixpoint pending_calls (script : list inbound) : list call :=
  match script with
  | Meanwhile c :: rest => c :: pending_calls rest
  | _ => []
  end.

Fixpoint next_inbound (script : list inbound) : list inbound :=
  match script with
  | Meanwhile _ :: rest => next_inbound rest
  | other => other
  end.

(** Nothing arrives on the connection for [n] time units. *)
Definition silent_for (n : nat) (script : list inbound) : bool :=
  match script with
  | [] => true
  | Text gap _ :: _ | Broken gap _ :: _ => n <=? gap
  | Meanwhile _ :: _ => false
  end.

(** The script seen [n] time units later. *)
Definition later (n : nat) (script : list inbound) : list inbound :=
  match script with
  | Text gap data :: rest => Text (gap - n) data :: rest
  | Broken gap e :: rest => Broken (gap - n) e :: rest
  | other => other
  end.

(** The handler is over, and not by an exception outside [Exception]
    (task cancellation). *)
Definition exited_on_error (r : res unit) : Prop :=
  match r with
  | Ok _ => True
  | Raise e => isinstance e Exception = true
  | Pending => False
  end.

(** The connection is open and takes a ping at every instant after [from]
    up to [till]. *)
Definition stays_open (line : nat -> peer) (from till : nat) : Prop :=
  forall t, from < t <= till ->
    client_state (line t) = CONNECTED /\ send_json (line t) ping = Ok tt.

(** A stand-in for the library codec on a handful of request bodies, for
    the examples: UTF-8 decoding is the identity on these ASCII texts. *)
Definition quoted (s : string) : string :=
  String "034" (s ++ String "034" "")%string.

Definition body_patient_only : string :=
  ("{" ++ quoted "resourceType" ++ ":" ++ quoted "Patient" ++ "}")%string.

Definition body_jane : string :=
  ("{" ++ quoted "resourceType" ++ ":" ++ quoted "Patient" ++ ","
   ++ quoted "id" ++ ":" ++ quoted "p1" ++ ","
   ++ quoted "name" ++ ":[{" ++ quoted "family" ++ ":" ++ quoted " Doe "
   ++ "," ++ quoted "given" ++ ":[" ++ quoted "Jane" ++ "]}],"
   ++ quoted "birthDate" ++ ":" ++ quoted "1990-01-01" ++ "}")%string.

Definition demo_loads (s : string) : res json :=
  if String.eqb s "{}" then Ok (JObj [])
  else if String.eqb s "[]" then Ok (JArr [])
  else if String.eqb s body_patient_only
  then Ok (JObj [("resourceType", JStr "Patient")])
  else if String.eqb s body_jane
  then Ok (JObj [("resourceType", JStr "Patient"); ("id", JStr "p1");
                 ("name", JArr [JObj [("family", JStr " Doe ");
                                      ("given", JArr [JStr "Jane"])]]);
                 ("birthDate", JStr "1990-01-01")])
  else Raise ValueError.

Definition demo_codec : Fhir.codec :=
  {| Fhir.decode_ignore := fun s => s;
     Fhir.decode_strict := fun s => Ok s;
     Fhir.loads := demo_loads;
     Fhir.bind_text := fun _ => Ok tt |}.

Definition empty_db : Fhir.database :=
  {| Fhir.patients := []; Fhir.patients_seq := 0;
     Fhir.fhir_messages := []; Fhir.fhir_messages_seq := 0 |}.

Definition json_post (body : string) : Fhir.request :=
  {| Fhir.content_type := Some "Application/JSON; charset=utf-8";
     Fhir.body := body |}.

(** The script has a failure of [receive_text] in it. *)
Fixpoint breaks (script : list inbound) : bool :=
  match script with
  | [] => false
  | Broken _ _ :: _ => true
  | _ :: rest => breaks rest
  end.

(** A bound on the number of wait cycles that a script can take: one per
    event and one per timeout that elapses before it. *)
Fixpoint patience (script : list inbound) : nat :=
  match script with
  | [] => 0
  | Text gap _ :: rest | Broken gap _ :: rest =>
      S (gap / Fhir.TIMEOUT) + patience rest
  | Meanwhile _ :: rest => S (patience rest)
  end.

(** No send on the connection hangs for ever. *)
Definition never_hangs (line : nat -> peer) : Prop :=
  forall t m, send_json (line t) m <> Pending.

(** ** For the HTTP handlers *)

(** Keys in ascending order, each below all that follow. *)
Fixpoint ascending (keys : list Z) : Prop :=
  match keys with
  | [] => True
  | k :: rest => Forall (fun x => (k < x)%Z) rest /\ ascending rest
  end.

Fixpoint descending (keys : list Z) : Prop :=
  match keys with
  | [] => True
  | k :: rest => Forall (fun x => (x < k)%Z) rest /\ descending rest
  end.

(** The keys of the patients of FHIR/main.py, and what AUTOINCREMENT keeps
    true of them: ascending in insertion order, none above the counter. *)
Definition fhir_keys (db : Fhir.database) : list Z :=
  map Fhir.row_id (Fhir.patients db).

Definition fhir_keys_ok (db : Fhir.database) : Prop :=
  ascending (fhir_keys db)
  /\ Forall (fun k => (k <= Fhir.patients_seq db)%Z) (fhir_keys db).

(** The ["id"] entries of a list of row objects. *)
Definition listed_keys (rows : list json) : list Z :=
  flat_map (fun j => match Fhir.py_get j "id" JNull with
                     | Ok (JInt k) => [k]
                     | _ => []
                     end) rows.

(** A string that [strip] leaves as it is. *)
Definition stripped (s : string) : Prop := Fhir.strip s = s.

(** A stored patient is complete: family, given and birthDate are not
    empty, and no field has whitespace around it. *)
Definition complete_row (r : Fhir.patient_row) : Prop :=
  Fhir.row_family r <> "" /\ Fhir.row_given r <> ""
  /\ Fhir.row_birthDate r <> ""
  /\ stripped (Fhir.row_family r) /\ stripped (Fhir.row_given r)
  /\ stripped (Fhir.row_birthDate r) /\ stripped (Fhir.row_fhir_id r).

(** The requests that change the tables of FHIR/main.py, and the database
    after a series of them. *)
Inductive fhir_request :=
| Ingest (now : string) (req : Fhir.request)   (* POST /fhir/Patient *)
| Delete (pid : Z).                            (* DELETE /api/patient/pid *)

Definition fhir_serve (c : Fhir.codec) (db : Fhir.database)
    (r : fhir_request) : Fhir.database :=
  match r with
  | Ingest now req => Fhir.stored (Fhir.fhir_ingest c now req db)
  | Delete pid => Fhir.del_stored (Fhir.api_delete_patient pid db)
  end.

Definition fhir_serve_all (c : Fhir.codec) (requests : list fhir_request)
    (db : Fhir.database) : Fhir.database :=
  fold_left (fhir_serve c) requests db.

(** The fields of a JSON object that is a Patient resource with a first
    name entry [name], a birth date [b] and, possibly, an id [i]. *)
Definition patient_fields (fields name : list (string * json))
    (b : string) (i : option string) : Prop :=
  Fhir.lookup "resourceType" fields = Some (JStr "Patient")
  /\ (exists more,
        Fhir.lookup "name" fields = Some (JArr (JObj name :: more)))
  /\ Fhir.lookup "birthDate" fields = Some (JStr b)
  /\ Fhir.lookup "id" fields = option_map JStr i.

(** The row and the reply that [fhir_ingest] makes of four field values:
    created when none of the three required ones is empty and SQLite takes
    the four stripped values, the exception of the INSERT when it does
    not, and 400 when a required one is empty. *)
Definition ingested (c : Fhir.codec) (db : Fhir.database)
    (now i f g b : string) (o : Fhir.outcome) : Prop :=
  let row := {| Fhir.row_id := (Fhir.patients_seq db + 1)%Z;
                Fhir.row_fhir_id := Fhir.strip i;
                Fhir.row_family := Fhir.strip f;
                Fhir.row_given := Fhir.strip g;
                Fhir.row_birthDate := Fhir.strip b;
                Fhir.row_received_at := now |} in
  let values := [Fhir.strip i; Fhir.strip f; Fhir.strip g; Fhir.strip b] in
  (Fhir.strip f <> "" -> Fhir.strip g <> "" -> Fhir.strip b <> "" ->
   (Fhir.bind_texts c values = Ok tt ->
    Fhir.reply o = Ok (Fhir.Created (Fhir.strip i))
    /\ Fhir.patients (Fhir.stored o) = Fhir.patients db ++ [row]
    /\ Fhir.spawned o
       = Some (patients_message
                 (Fhir.row_json row :: Fhir.fetch_last_patients 9 db)))
   /\ (forall e, Fhir.bind_texts c values = Raise e ->
         Fhir.reply o = Raise e
         /\ Fhir.patients (Fhir.stored o) = Fhir.patients db
         /\ Fhir.spawned o = None))
  /\ (Fhir.strip f = "" \/ Fhir.strip g = "" \/ Fhir.strip b = "" ->
      Fhir.reply o = Ok Fhir.MissingFields
      /\ Fhir.patients (Fhir.stored o) = Fhir.patients db
      /\ Fhir.spawned o = None).

Definition or_empty (i : option string) : string :=
  match i with Some s => s | None => "" end.

(** The keys of the patients of chief_server.py, the row of a key, and the
    database after a series of registrations (each with its two
    timestamps). *)
Definition chief_keys (db : ChiefApi.database) : list Z :=
  map ChiefApi.row_id (ChiefApi.patients db).

Definition chief_row_of (k : Z) (db : ChiefApi.database)
  : option ChiefApi.patient_row :=
  find (fun r => Z.eqb (ChiefApi.row_id r) k) (ChiefApi.patients db).

Definition chief_empty_db : ChiefApi.database :=
  {| ChiefApi.patients := []; ChiefApi.hl7_messages := [];
     ChiefApi.hl7_messages_seq := 0 |}.

Definition chief_register_all
    (calls : list (string * string * ChiefApi.PatientData))
    (db : ChiefApi.database) : ChiefApi.database :=
  fold_left (fun db call =>
               ChiefApi.stored
                 (ChiefApi.register_patient (fst (fst call)) (snd (fst call))
                    (snd call) db))
            calls db.

(** ** For the HL7 message *)

(** [s.split(sep)] for a one-character [sep]: how a reader of the message
    takes it apart. *)
Fixpoint split (sep : ascii) (s : string) : list string :=
  match s with
  | EmptyString => [EmptyString]
  | String c s' =>
      if Ascii.eqb c sep then EmptyString :: split sep s'
      else match split sep s' with
           | field :: fields => String c field :: fields
           | [] => [String c EmptyString]
           end
  end.

(** [s.count(c)] *)
Fixpoint count_char (c : ascii) (s : string) : nat :=
  match s with
  | EmptyString => 0
  | String a s' => (if Ascii.eqb a c then 1 else 0) + count_char c s'
  end.

(** The notification of the chief server has come to an end, and not by
    an exception outside [Exception]. *)
Definition notification_over (notified : res unit) : Prop :=
  match notified with
  | Ok _ => True
  | Raise e => isinstance e Exception = true
  | Pending => False
  end.

(** ** For the registry under a broadcast and under a running handler *)

(** [s] is [l] with some of its elements left out, the others in the
    order of [l]. *)
Inductive sublist : list WebSocket -> list WebSocket -> Prop :=
| sublist_nil : sublist [] []
| sublist_keep x s l : sublist s l -> sublist (x :: s) (x :: l)
| sublist_skip x s l : sublist s l -> sublist s (x :: l).

Definition frame_message (f : frame) : json :=
  match f with Delivered _ m | Failed _ m _ => m end.

(** A send attempt of [message] on [ws], whatever became of it. *)
Definition sends (ws : WebSocket) (message : json) (f : frame) : Prop :=
  frame_ws f = ws /\ frame_message f = message.

(** No other task takes [ws] out of the registry. *)
Fixpoint undisturbed (ws : WebSocket) (script : list inbound) : bool :=
  match script with
  | [] => true
  | Meanwhile (Disconnect ws') :: rest =>
      negb (Nat.eqb ws' ws) && undisturbed ws rest
  | _ :: rest => undisturbed ws rest
  end.

(** A client frame that arrives before the timeout of the wait. *)
Definition prompt (i : inbound) : bool :=
  match i with
  | Text gap _ => gap <? Fhir.TIMEOUT
  | _ => false
  end.

(** The time a run of client frames takes. *)
Fixpoint elapsed (frames : list inbound) : nat :=
  match frames with
  | [] => 0
  | Text gap _ :: rest | Broken gap _ :: rest => gap + elapsed rest
  | Meanwhile _ :: rest => elapsed rest
  end.

(** ** For the reception service *)

(** The tables of HL7/main.py when the service is first started, and after
    a series of registrations: each with the timestamp and the id of its
    message, the time of the insert, the answer of the chief server and
    the form sent in. *)
Definition reception_empty_db : Reception.database :=
  {| Reception.patients := []; Reception.patients_seq := 0;
     Reception.hl7_messages := []; Reception.hl7_messages_seq := 0 |}.

Record registration := {
  reg_ts : string;
  reg_msg_id : string;
  reg_now : string;
  reg_notified : res unit;
  reg_form : Reception.PatientIn
}.

Definition reception_register (db : Reception.database) (c : registration)
  : Reception.database :=
  Reception.stored
    (Reception.register (reg_ts c) (reg_msg_id c) (reg_now c)
       (reg_notified c) (reg_form c) db).

Definition reception_register_all (calls : list registration)
    (db : Reception.database) : Reception.database :=
  fold_left reception_register calls db.

(** The keys [1 .. n]. *)
Definition first_keys (n : nat) : list Z := map Z.of_nat (seq 1 n).

(** Starlette takes the handshake of a connection object once: a second
    [accept] on it raises, before [connect] appends.  [accepted_once seen
    calls]: no [connect] of the sequence completes its handshake on a
    connection of [seen], or on one on which an earlier call of the
    sequence has completed it. *)
Fixpoint accepted_once (seen : list WebSocket) (calls : list call) : bool :=
  match calls with
  | [] => true
  | Connect ws (Ok _) :: rest =>
      negb (contains ws seen) && accepted_once (ws :: seen) rest
  | _ :: rest => accepted_once seen rest
  end.

(** ** For the order of events on a connection *)

(** The frames addressed to [x]. *)
Definition to_connection (x : WebSocket) (fs : list frame) : list frame :=
  filter (fun f => Nat.eqb (frame_ws f) x) fs.

(** The frames come in groups, one group for each of [messages] and in
    their order: no frame of a later message precedes a frame of an
    earlier one. *)
Definition in_order (messages : list json) (fs : list frame) : Prop :=
  exists parts,
    fs = List.concat parts
    /\ Forall2 (fun m part => Forall (fun f => frame_message f = m) part)
         messages parts.

(** [chief_ws] up to the return of its first send, [rows] being what the
    query of the patients returned.  There is no [await] between the
    return of [accept] and this send: its gap is the first point at which
    the event loop can run [others], the tasks started since the
    connection was opened. *)
Definition opened (accepted : res unit) (line : nat -> peer)
    (ws : WebSocket) (rows : list json) (others : M unit) : M unit :=
  connect accepted ws ;;;
  (fun w =>
     await_send_during (line (clock w)) ws (patients_message rows) others w).

(** Broadcast calls made one after another, each at its end before the
    next is started. *)
Fixpoint fhir_broadcasts (net : WebSocket -> peer) (messages : list json)
  : M unit :=
  match messages with
  | [] => ret tt
  | m :: rest => Fhir.broadcast net quiet m ;;; fhir_broadcasts net rest
  end.

Fixpoint chief_broadcasts (net : WebSocket -> peer) (fuel : nat)
    (messages : list json) : M unit :=
  match messages with
  | [] => ret tt
  | m :: rest =>
      Chief.broadcast net quiet m fuel ;;; chief_broadcasts net fuel rest
  end.

(** Every connection of [l] is open and takes each of [messages]. *)
Definition all_take (net : WebSocket -> peer) (messages : list json)
    (l : list WebSocket) : Prop :=
  forall x m, In x l -> In m messages ->
    client_state (net x) = CONNECTED /\ send_json (net x) m = Ok tt.

(** The frames of [messages], each delivered to every connection of [l]. *)
Definition fan_out (messages : list json) (l : list WebSocket)
  : list frame :=
  flat_map (fun m => map (fun x => Delivered x m) l) messages.

(** * The registry *)

Lemma contains_In (ws : WebSocket) (l : list WebSocket) :
  contains ws l = true <-> In ws l.
Proof.
  unfold contains. rewrite existsb_exists. split.
  - intros (x & Hx & E). apply Nat.eqb_eq in E. now subst.
  - intros H. exists ws. split; [assumption | apply Nat.eqb_refl].
Qed.

Lemma contains_false (ws : WebSocket) (l : list WebSocket) :
  contains ws l = false <-> ~ In ws l.
Proof.
  rewrite <- contains_In. destruct (contains ws l); split; congruence.
Qed.

Lemma list_remove_present (ws : WebSocket) (l : list WebSocket) :
  In ws l -> list_remove ws l = Ok (remove_first ws l).
Proof.
  induction l as [|x l IH]; simpl; [tauto|].
  intros [-> | H].
  - now rewrite Nat.eqb_refl.
  - destruct (Nat.eqb x ws); [reflexivity|]. now rewrite IH.
Qed.

Lemma remove_first_absent (ws : WebSocket) (l : list WebSocket) :
  ~ In ws l -> remove_first ws l = l.
Proof.
  induction l as [|x l IH]; simpl; [reflexivity|].
  intros H. destruct (Nat.eqb_spec x ws) as [E | _]; [tauto|].
  f_equal. apply IH. tauto.
Qed.

Lemma set_active_same (w : world) : set_active (active w) w = w.
Proof. now destruct w. Qed.

(** [disconnect] in closed form: it always returns. *)
Lemma disconnect_eq (ws : WebSocket) (w : world) :
  disconnect ws w = (Ok tt, set_active (remove_first ws (active w)) w).
Proof.
  unfold disconnect. destruct (contains ws (active w)) eqn:E.
  - apply contains_In in E. now rewrite list_remove_present.
  - apply contains_false in E.
    now rewrite remove_first_absent, set_active_same.
Qed.

Lemma occurrences_app (ws : WebSocket) (l l' : list WebSocket) :
  occurrences ws (l ++ l') = occurrences ws l + occurrences ws l'.
Proof. apply count_occ_app. Qed.

Lemma occurrences_remove_first (ws x : WebSocket) (l : list WebSocket) :
  occurrences x (remove_first ws l)
  = if Nat.eqb x ws then pred (occurrences x l) else occurrences x l.
Proof.
  unfold occurrences. induction l as [|y l IH]; simpl.
  - now destruct (Nat.eqb x ws).
  - destruct (Nat.eqb_spec y ws) as [-> | Hy].
    + destruct (Nat.eq_dec ws x) as [-> | Hx].
      * now rewrite Nat.eqb_refl.
      * destruct (Nat.eqb_spec x ws); [congruence | reflexivity].
    + simpl. destruct (Nat.eq_dec y x) as [-> | Hx].
      * destruct (Nat.eqb_spec x ws); [congruence|]. 
        rewrite IH. destruct (Nat.eqb_spec x ws); [congruence | reflexivity].
      * exact IH.
Qed.

Lemma occurrences_zero (ws : WebSocket) (l : list WebSocket) :
  occurrences ws l = 0 <-> ~ In ws l.
Proof. unfold occurrences. symmetry. apply count_occ_not_In. Qed.

Lemma perform_agrees (c : call) (members : WebSocket -> bool) (w : world) :
  agrees members (active w) ->
  match c with Connect ws (Ok _) => members ws = false | _ => True end ->
  agrees (spec_call members c) (active (snd (perform c w))).
Proof.
  intros Hag Hfresh x. destruct c as [ws [u | e |] | ws]; simpl.
  - unfold connect, bind, lift. simpl. rewrite occurrences_app.
    specialize (Hag x). unfold occurrences at 2. simpl.
    destruct (Nat.eq_dec ws x) as [-> | Hne].
    + rewrite Nat.eqb_refl. rewrite Hag, Hfresh. reflexivity.
    + destruct (Nat.eqb_spec x ws); [congruence|]. rewrite Hag.
      destruct (members x); reflexivity.
  - apply Hag.
  - apply Hag.
  - rewrite disconnect_eq. simpl. rewrite occurrences_remove_first.
    specialize (Hag x). destruct (Nat.eqb x ws).
    + rewrite Hag. now destruct (members x).
    + exact Hag.
Qed.

Lemma after_calls_agrees (calls : list call) :
  forall (members : WebSocket -> bool) (w : world),
    agrees members (active w) ->
    adds_fresh members calls ->
    agrees (fold_left spec_call calls members) (active (after_calls calls w)).
Proof.
  induction calls as [|c calls IH]; intros members w Hag Hfresh.
  - exact Hag.
  - destruct Hfresh as [Hc Hrest]. simpl. apply IH; [|exact Hrest].
    now apply perform_agrees.
Qed.

Lemma accepted_once_fresh (calls : list call) :
  forall (seen : list WebSocket) (members : WebSocket -> bool),
    (forall x, members x = true -> In x seen) ->
    accepted_once seen calls = true ->
    adds_fresh members calls.
Proof.
  induction calls as [|c calls IH]; intros seen members Hseen Hacc;
    [exact I|].
  destruct c as [ws [u | e |] | ws]; simpl in *.
  - apply andb_prop in Hacc. destruct Hacc as [Hnew Hacc].
    apply negb_true_iff, contains_false in Hnew.
    split.
    + destruct (members ws) eqn:E; [|reflexivity].
      now apply Hseen in E.
    + apply (IH (ws :: seen)); [|exact Hacc].
      intros x. destruct (Nat.eqb_spec x ws) as [-> | _];
        [now left | right; now apply Hseen].
  - split; [exact I|]. now apply (IH seen).
  - split; [exact I|]. now apply (IH seen).
  - split; [exact I|]. apply (IH seen); [|exact Hacc].
    intros x. destruct (Nat.eqb x ws); [discriminate | apply Hseen].
Qed.

(** C2: after any sequence of [connect] and [disconnect] calls from the
    empty registry, the snapshot holds exactly the connections added and
    not removed since, each of them once.  The sequences are those the
    transport allows: the handshake of a connection object completes at
    most once. *)
Theorem snapshot_after_fresh_calls (calls : list call) :
  accepted_once [] calls = true ->
  forall c : WebSocket,
    occurrences c (snapshot (after_calls calls empty_world))
    = if spec_members calls c then 1 else 0.
Proof.
  intros Hacc. apply (after_calls_agrees calls (fun _ => false) empty_world).
  - intros x. reflexivity.
  - now apply (accepted_once_fresh calls []).
Qed.

Lemma snapshot_after_fresh_calls_witness :
  let calls := [Connect 1 (Ok tt); Connect 2 (Ok tt); Disconnect 1;
                Connect 3 (Raise RuntimeError); Disconnect 7;
                Connect 3 (Raise RuntimeError); Connect 4 (Ok tt);
                Disconnect 1] in
  accepted_once [] calls = true
  /\ snapshot (after_calls calls empty_world) = [2; 4]
  /\ occurrences 4 (snapshot (after_calls calls empty_world))
     = (if spec_members calls 4 then 1 else 0)
  /\ occurrences 1 (snapshot (after_calls calls empty_world))
     = (if spec_members calls 1 then 1 else 0).
Proof.
  intros calls.
  assert (H : accepted_once [] calls = true) by reflexivity.
  split; [exact H|]. split; [reflexivity|].
  split; apply (snapshot_after_fresh_calls calls H).
Defined.

(** A registry that the program reaches holds no connection twice. *)
Lemma registry_nodup (calls : list call) :
  accepted_once [] calls = true ->
  NoDup (active (after_calls calls empty_world)).
Proof.
  intros Hacc. apply (NoDup_count_occ Nat.eq_dec). intros x.
  pose proof (after_calls_agrees calls (fun _ => false) empty_world
                (fun _ => eq_refl)
                (accepted_once_fresh calls [] (fun _ => false)
                   (fun x H => False_ind _ (diff_false_true H)) Hacc) x)
    as Hocc.
  unfold occurrences in Hocc. rewrite Hocc.
  destruct (fold_left spec_call calls (fun _ => false) x); lia.
Qed.

Lemma nodup_once (ws : WebSocket) (l : list WebSocket) :
  NoDup l -> occurrences ws l <= 1.
Proof. intros H. now apply (NoDup_count_occ Nat.eq_dec). Qed.

Lemma nodup_remove_first (ws : WebSocket) (l : list WebSocket) :
  NoDup l -> NoDup (remove_first ws l).
Proof.
  intros H. apply (NoDup_count_occ Nat.eq_dec). intros x.
  pose proof (occurrences_remove_first ws x l) as Hocc.
  pose proof (nodup_once x l H) as Hx.
  unfold occurrences in *. rewrite Hocc.
  destruct (Nat.eqb x ws); lia.
Qed.

(** C6: on every registry (a list that holds no connection twice),
    [disconnect] never raises, changes nothing when the connection is
    absent, and is idempotent: a second [disconnect] of the same
    connection changes nothing more.  What it leaves is a registry
    again. *)
Theorem disconnect_absent_noop (w : world) (ws : WebSocket) :
  NoDup (active w) ->
  fst (disconnect ws w) = Ok tt
  /\ (~ In ws (active w) -> disconnect ws w = (Ok tt, w))
  /\ (disconnect ws ;;; disconnect ws) w = disconnect ws w
  /\ NoDup (active (snd (disconnect ws w))).
Proof.
  intros Hnodup.
  split; [now rewrite disconnect_eq|]. split; [|split].
  - intros H. rewrite disconnect_eq, remove_first_absent by exact H.
    now rewrite set_active_same.
  - pose proof (nodup_once ws _ Hnodup) as H.
    unfold bind. rewrite disconnect_eq.
    rewrite disconnect_eq. simpl. f_equal. unfold set_active. simpl. f_equal.
    apply remove_first_absent. apply occurrences_zero.
    rewrite occurrences_remove_first, Nat.eqb_refl. lia.
  - rewrite disconnect_eq. simpl. now apply nodup_remove_first.
Qed.

Lemma disconnect_absent_noop_witness :
  let w := after_calls [Connect 1 (Ok tt); Connect 2 (Ok tt);
                        Connect 3 (Ok tt)] empty_world in
  active w = [1; 2; 3]
  /\ disconnect 7 w = (Ok tt, w)
  /\ (disconnect 2 ;;; disconnect 2) w = disconnect 2 w
  /\ active (snd (disconnect 2 w)) = [1; 3].
Proof.
  intros w.
  assert (Hreg : NoDup (active w)) by (now apply registry_nodup).
  destruct (disconnect_absent_noop w 7 Hreg) as (_ & Habsent & _).
  destruct (disconnect_absent_noop w 2 Hreg) as (_ & _ & Honce & _).
  split; [reflexivity|]. split; [|split; [exact Honce | reflexivity]].
  apply Habsent. simpl. lia.
Defined.

(** * Broadcast with no concurrent registry calls *)

Lemma new_frames_app (w w' : world) (fs : list frame) :
  wire w' = wire w ++ fs -> new_frames w w' = fs.
Proof.
  intros H. unfold new_frames. rewrite H, skipn_app, skipn_all, Nat.sub_diag.
  reflexivity.
Qed.

Lemma length_filter_is_not (k : WebSocket) (l : list WebSocket) :
  List.length (filter (is_not k) l) = List.length l - occurrences k l.
Proof.
  assert (H : List.length (filter (is_not k) l) + occurrences k l
              = List.length l).
  { unfold occurrences, is_not. induction l as [|x l IH]; simpl; [reflexivity|].
    destruct (Nat.eq_dec x k) as [-> | Hne].
    - rewrite Nat.eqb_refl. simpl. lia.
    - destruct (Nat.eqb_spec x k); [congruence|]. simpl. lia. }
  lia.
Qed.

(** Removing, one after the other, the elements of [suf] that satisfy [p]
    from [pre ++ suf] leaves [pre] and the elements of [suf] that do not,
    when no element of [pre] satisfies [p]. *)
Lemma remove_filtered (p : WebSocket -> bool) (suf : list WebSocket) :
  forall pre : list WebSocket,
    (forall x, In x pre -> p x = false) ->
    fold_left (fun l x => remove_first x l) (filter p suf) (pre ++ suf)
    = pre ++ filter (fun x => negb (p x)) suf.
Proof.
  induction suf as [|y suf IH]; intros pre Hpre; simpl; [reflexivity|].
  destruct (p y) eqn:Hy; simpl.
  - assert (Hrm : remove_first y (pre ++ y :: suf) = pre ++ suf).
    { clear IH. induction pre as [|z pre IHp]; simpl.
      - now rewrite Nat.eqb_refl.
      - destruct (Nat.eqb_spec z y) as [-> | _].
        + rewrite (Hpre y) in Hy by now left. discriminate.
        + f_equal. apply IHp. intros x Hx. apply Hpre. now right. }
    rewrite Hrm. now apply IH.
  - replace (pre ++ y :: suf) with ((pre ++ [y]) ++ suf)
      by now rewrite <- app_assoc.
    rewrite IH.
    + now rewrite <- app_assoc.
    + intros x Hx. apply in_app_or in Hx. destruct Hx as [Hx | [<- | []]].
      * now apply Hpre.
      * exact Hy.
Qed.

Lemma skipn_nth_error {A} (l : list A) :
  forall (i : nat) (x : A),
    nth_error l i = Some x -> skipn i l = x :: skipn (S i) l.
Proof.
  induction l as [|y l IH]; intros [|i] x H; simpl in *; try discriminate.
  - now injection H as ->.
  - now apply IH.
Qed.

Lemma skipn_nth_error_none {A} (l : list A) (i : nat) :
  nth_error l i = None -> skipn i l = [].
Proof. intros H. apply skipn_all2. now apply nth_error_None. Qed.

Section ChiefBroadcast.
Variable net : WebSocket -> peer.
Variable message : json.

(** One turn of the delivery loop. *)
Lemma chief_deliver_step (fuel i : nat) (drop : list WebSocket)
    (w : world) (ws : WebSocket) :
  nth_error (active w) i = Some ws ->
  Chief.deliver net quiet message (S fuel) i drop w
  = match send_json (net ws) message with
    | Ok _ =>
        Chief.deliver net quiet message fuel (S i) drop
          (emit (Delivered ws message) w)
    | Raise e =>
        if isinstance e Exception
        then Chief.deliver net quiet message fuel (S i) (drop ++ [ws])
               (emit (Failed ws message e) w)
        else (Raise e, emit (Failed ws message e) w)
    | Pending => (Pending, w)
    end.
Proof.
  intros H. simpl. rewrite H.
  unfold bind, try_except, await_send, quiet, ret. simpl.
  destruct (send_json (net ws) message) as [[] | e |]; simpl;
    try reflexivity.
  unfold caught. simpl. rewrite orb_false_r.
  destruct (isinstance e Exception); reflexivity.
Qed.

Lemma chief_deliver_stop (fuel i : nat) (drop : list WebSocket) (w : world) :
  nth_error (active w) i = None ->
  Chief.deliver net quiet message fuel i drop w = (Ok drop, w).
Proof. intros H. destruct fuel; simpl; now rewrite H. Qed.

(** With enough fuel and every send settled, the loop returns the
    connections whose send raised, and leaves the registry alone. *)
Lemma chief_deliver_settled (fuel : nat) :
  forall (i : nat) (drop : list WebSocket) (w : world),
    List.length (active w) <= i + fuel ->
    (forall x, In x (skipn i (active w)) -> chief_settled net message x) ->
    Chief.deliver net quiet message fuel i drop w
    = (Ok (drop ++ filter (fun x => negb (takes net message x))
                     (skipn i (active w))),
       {| active := active w;
          wire := wire w ++ flat_map (trace net message) (skipn i (active w));
          clock := clock w |}).
Proof.
  induction fuel as [|fuel IH]; intros i drop w Hlen Hall.
  - assert (Hnone : nth_error (active w) i = None)
      by (apply nth_error_None; lia).
    rewrite chief_deliver_stop by exact Hnone.
    rewrite (skipn_nth_error_none _ _ Hnone). simpl.
    rewrite !app_nil_r. now destruct w.
  - destruct (nth_error (active w) i) as [ws|] eqn:Hnth.
    + rewrite (chief_deliver_step _ _ _ _ _ Hnth).
      pose proof (skipn_nth_error _ _ _ Hnth) as Hskip.
      assert (Hws : chief_settled net message ws)
        by (apply Hall; rewrite Hskip; now left).
      assert (Hrest : forall x, In x (skipn (S i) (active w)) ->
                                chief_settled net message x)
        by (intros x Hx; apply Hall; rewrite Hskip; now right).
      rewrite Hskip. simpl. unfold takes at 1, trace at 1.
      destruct Hws as [Hok | (e & He & Hexc)].
      * rewrite Hok. rewrite IH; simpl; [| lia | exact Hrest].
        now rewrite <- app_assoc.
      * rewrite He, Hexc. rewrite IH; simpl; [| lia | exact Hrest].
        now rewrite <- !app_assoc.
    + rewrite chief_deliver_stop by exact Hnth.
      rewrite (skipn_nth_error_none _ _ Hnth). simpl.
      rewrite !app_nil_r. now destruct w.
Qed.

(** A loop that returns has had every send settled. *)
Lemma chief_deliver_returned (fuel : nat) :
  forall (i : nat) (drop : list WebSocket) (w : world) d,
    fst (Chief.deliver net quiet message fuel i drop w) = Ok d ->
    List.length (active w) <= i + fuel
    /\ forall x, In x (skipn i (active w)) -> chief_settled net message x.
Proof.
  induction fuel as [|fuel IH]; intros i drop w d Hret.
  - simpl in Hret.
    destruct (nth_error (active w) i) eqn:Hnth; [discriminate|].
    split; [apply nth_error_None in Hnth; lia|].
    now rewrite (skipn_nth_error_none _ _ Hnth).
  - destruct (nth_error (active w) i) as [ws|] eqn:Hnth.
    + rewrite (chief_deliver_step _ _ _ _ _ Hnth) in Hret.
      rewrite (skipn_nth_error _ _ _ Hnth).
      destruct (send_json (net ws) message) as [[] | e |] eqn:Hsend;
        [| | discriminate].
      * apply IH in Hret. simpl in Hret. destruct Hret as [Hlen Hall].
        split; [lia|]. intros x [<- | Hx]; [now left | now apply Hall].
      * destruct (isinstance e Exception) eqn:Hexc; [|discriminate].
        apply IH in Hret. simpl in Hret. destruct Hret as [Hlen Hall].
        split; [lia|]. intros x [<- | Hx]; [|now apply Hall].
        right. now exists e.
    + split; [apply nth_error_None in Hnth; lia|].
      now rewrite (skipn_nth_error_none _ _ Hnth).
Qed.

Lemma chief_disconnect_all (drop : list WebSocket) :
  forall w : world,
    Chief.disconnect_all drop w
    = (Ok tt,
       set_active (fold_left (fun l x => remove_first x l) drop (active w)) w).
Proof.
  induction drop as [|x drop IH]; intros w; simpl.
  - unfold ret. now rewrite set_active_same.
  - unfold bind. rewrite disconnect_eq, IH. reflexivity.
Qed.

(** [broadcast] in closed form when every send is settled. *)
Lemma chief_broadcast_settled (fuel : nat) (w : world) :
  List.length (active w) <= fuel ->
  (forall x, In x (active w) -> chief_settled net message x) ->
  Chief.broadcast net quiet message fuel w
  = (Ok tt,
     {| active := filter (takes net message) (active w);
        wire := wire w ++ flat_map (trace net message) (active w);
        clock := clock w |}).
Proof.
  intros Hlen Hall. unfold Chief.broadcast, bind.
  rewrite chief_deliver_settled; simpl; [| lia | exact Hall].
  rewrite chief_disconnect_all. simpl. unfold set_active. simpl.
  f_equal. f_equal.
  pose proof (remove_filtered (fun x => negb (takes net message x))
                (active w) []) as Hrm.
  simpl in Hrm. rewrite Hrm by (intros x []).
  apply filter_ext. intros x. apply negb_involutive.
Qed.
End ChiefBroadcast.

Lemma is_connected_iff (s : WebSocketState) :
is_connected s = true <-> s = CONNECTED.
Proof. destruct s; simpl; split; congruence. Qed.

Lemma remove_first_middle (ws : WebSocket) (pre rest : list WebSocket) :
~ In ws pre -> remove_first ws (pre ++ ws :: rest) = pre ++ rest.
Proof.
induction pre as [|z pre IH]; simpl; intros H.
- now rewrite Nat.eqb_refl.
- destruct (Nat.eqb_spec z ws) as [-> | _]; [tauto|].
  f_equal. apply IH. tauto.
Qed.

#[local] Arguments caught : simpl never.
#[local] Arguments Fhir.bind_texts : simpl never.
#[local] Arguments in_int64 : simpl never.

Section FhirBroadcast.
Variable net : WebSocket -> peer.
Variable message : json.

(** One turn of the loop over the copy. *)
Lemma fhir_visit_step (ws : WebSocket) (rest : list WebSocket) (i : nat)
    (w : world) :
  Fhir.visit net quiet message (ws :: rest) i w
  = if is_connected (client_state (net ws)) then
      match send_json (net ws) message with
      | Ok _ =>
          Fhir.visit net quiet message rest (S i)
            (emit (Delivered ws message) w)
      | Raise e =>
          if caught e Fhir.absorbed
          then Fhir.visit net quiet message rest (S i)
                 (set_active (remove_first ws (active w))
                    (emit (Failed ws message e) w))
          else (Raise e, emit (Failed ws message e) w)
      | Pending => (Pending, w)
      end
    else Fhir.visit net quiet message rest (S i)
           (set_active (remove_first ws (active w)) w).
Proof.
  simpl. unfold bind, try_except.
  destruct (is_connected (client_state (net ws))).
  - unfold await_send, quiet. simpl.
    destruct (send_json (net ws) message) as [[] | e |]; simpl;
      try reflexivity.
    destruct (caught e Fhir.absorbed); [|reflexivity].
    now rewrite disconnect_eq.
  - now rewrite disconnect_eq.
Qed.

Lemma fhir_visit_settled (copy : list WebSocket) :
  forall (pre : list WebSocket) (i : nat) (w : world),
    active w = pre ++ copy ->
    (forall x, In x pre -> fhir_keeps net message x = true) ->
    (forall x, In x copy -> fhir_settled net message x) ->
    Fhir.visit net quiet message copy i w
    = (Ok tt,
       {| active := pre ++ filter (fhir_keeps net message) copy;
          wire := wire w ++ flat_map (fhir_trace net message) copy;
          clock := clock w |}).
Proof.
  induction copy as [|ws copy IH]; intros pre i w Hact Hpre Hall.
  - simpl. unfold ret. rewrite !app_nil_r.
    rewrite app_nil_r in Hact. rewrite <- Hact. now destruct w.
  - rewrite fhir_visit_step. simpl.
    assert (Hrest : forall x, In x copy -> fhir_settled net message x)
      by (intros x Hx; apply Hall; now right).
    assert (Hdrop : fhir_keeps net message ws = false ->
                    remove_first ws (active w) = pre ++ copy).
    { intros Hk. rewrite Hact. apply remove_first_middle.
      intros Hin. apply Hpre in Hin. congruence. }
    unfold fhir_keeps at 1, fhir_trace at 1, takes at 1, trace at 1.
    unfold fhir_keeps at 1, takes at 1 in Hdrop.
    destruct (is_connected (client_state (net ws))) eqn:Hconn; simpl in *.
    + destruct (Hall ws (or_introl eq_refl)) as [Hc | [Hok | (e & He & Hc)]].
      * apply is_connected_iff in Hconn. contradiction.
      * rewrite Hok. rewrite Hok in Hdrop.
        rewrite (IH (pre ++ [ws])); simpl.
        -- now rewrite <- !app_assoc.
        -- now rewrite Hact, <- app_assoc.
        -- intros x Hx. apply in_app_or in Hx.
           destruct Hx as [Hx | [<- | []]]; [now apply Hpre|].
           unfold fhir_keeps, takes. now rewrite Hconn, Hok.
        -- exact Hrest.
      * rewrite He, Hc. rewrite He in Hdrop.
        rewrite (IH pre); simpl.
        -- now rewrite <- !app_assoc.
        -- now apply Hdrop.
        -- exact Hpre.
        -- exact Hrest.
    + rewrite (IH pre); simpl.
      * reflexivity.
      * now apply Hdrop.
      * exact Hpre.
      * exact Hrest.
Qed.

(** A loop that returns has had every visit settled. *)
Lemma fhir_visit_returned (copy : list WebSocket) :
  forall (i : nat) (w : world),
    fst (Fhir.visit net quiet message copy i w) = Ok tt ->
    forall x, In x copy -> fhir_settled net message x.
Proof.
  induction copy as [|ws copy IH]; intros i w Hret x Hx; [destruct Hx|].
  rewrite fhir_visit_step in Hret.
  destruct (is_connected (client_state (net ws))) eqn:Hconn.
  - destruct (send_json (net ws) message) as [[] | e |] eqn:Hsend;
      [| | discriminate].
    + destruct Hx as [<- | Hx]; [right; now left | exact (IH _ _ Hret x Hx)].
    + destruct (caught e Fhir.absorbed) eqn:Hc; [|discriminate].
      destruct Hx as [<- | Hx]; [|exact (IH _ _ Hret x Hx)].
      right. right. now exists e.
  - destruct Hx as [<- | Hx]; [|exact (IH _ _ Hret x Hx)].
    left. intros Hs. apply is_connected_iff in Hs. congruence.
Qed.

(** [broadcast] in closed form when every visit is settled. *)
Lemma fhir_broadcast_settled (w : world) :
  (forall x, In x (active w) -> fhir_settled net message x) ->
  Fhir.broadcast net quiet message w
  = (Ok tt,
     {| active := filter (fhir_keeps net message) (active w);
        wire := wire w ++ flat_map (fhir_trace net message) (active w);
        clock := clock w |}).
Proof.
  intros Hall. unfold Fhir.broadcast, snapshot.
  now rewrite (fhir_visit_settled (active w) [] 0 w eq_refl)
    by (assumption || intros x []).
Qed.
End FhirBroadcast.

Lemma delivered_trace (net : WebSocket -> peer) (message : json)
  (l : list WebSocket) :
filter is_delivered (flat_map (trace net message) l)
= map (fun x => Delivered x message) (filter (takes net message) l).
Proof.
induction l as [|x l IH]; simpl; [reflexivity|].
rewrite filter_app, IH.
destruct (takes net message x) eqn:Ht; unfold takes in Ht; unfold trace;
  destruct (send_json (net x) message); try discriminate; reflexivity.
Qed.

Lemma delivered_fhir_trace (net : WebSocket -> peer) (message : json)
  (l : list WebSocket) :
filter is_delivered (flat_map (fhir_trace net message) l)
= map (fun x => Delivered x message) (filter (fhir_keeps net message) l).
Proof.
induction l as [|x l IH]; simpl; [reflexivity|].
rewrite filter_app, IH.
destruct (fhir_keeps net message x) eqn:Ht;
  unfold fhir_keeps, takes in Ht; unfold fhir_trace, trace;
  destruct (is_connected (client_state (net x)));
  destruct (send_json (net x) message); try discriminate; reflexivity.
Qed.

(** The four parts of [only_dropped] from a closed form of the result. *)
Lemma only_dropped_intro (message : json) (k : WebSocket) (w w' : world)
  (keeps : WebSocket -> bool) (fs : list frame) :
(forall x, In x (active w) -> keeps x = is_not k x) ->
active w' = filter keeps (active w) ->
wire w' = wire w ++ fs ->
filter is_delivered fs
= map (fun x => Delivered x message) (filter keeps (active w)) ->
only_dropped message k w (Ok tt, w').
Proof.
intros Hkeeps Hact Hwire Hdel.
assert (Hf : filter keeps (active w) = filter (is_not k) (active w))
  by now apply filter_ext_in.
unfold only_dropped. simpl. rewrite Hact, Hf. repeat split.
- apply length_filter_is_not.
- rewrite (new_frames_app w w' fs Hwire). now rewrite Hdel, Hf.
Qed.

(** C1 (as amended): with no concurrent registry calls, when every
  connection other than [k] is open and takes the message, and the send
  to [k] fails with an error that the method absorbs -- any [Exception]
  in chief_server.py; in FHIR/main.py one of the classes of its [except]
  clause, or [k] not being in the CONNECTED state -- the call returns
  without raising, the message is delivered to each of the others, and
  the registry afterwards is the old one without [k]. *)
Theorem broadcast_one_failure (net : WebSocket -> peer) (message : json)
  (w : world) (k : WebSocket) :
others_take net message k w ->
(forall (e : exn) (fuel : nat),
    send_json (net k) message = Raise e ->
    isinstance e Exception = true ->
    List.length (active w) <= fuel ->
    only_dropped message k w (Chief.broadcast net quiet message fuel w))
/\ (client_state (net k) <> CONNECTED
    \/ (exists e, send_json (net k) message = Raise e
                  /\ caught e Fhir.absorbed = true) ->
    only_dropped message k w (Fhir.broadcast net quiet message w)).
Proof.
intros Hothers. split.
- intros e fuel He Hexc Hfuel.
  rewrite chief_broadcast_settled; [| exact Hfuel |].
  + eapply only_dropped_intro with (keeps := takes net message);
      [| reflexivity | reflexivity | apply delivered_trace].
    intros x Hx. unfold takes, is_not.
    destruct (Nat.eqb_spec x k) as [-> | Hne].
    * now rewrite He.
    * destruct (Hothers x Hx Hne) as [_ Hok]. now rewrite Hok.
  + intros x Hx. destruct (Nat.eq_dec x k) as [-> | Hne].
    * right. now exists e.
    * left. now destruct (Hothers x Hx Hne).
- intros Hk. rewrite fhir_broadcast_settled.
  + eapply only_dropped_intro with (keeps := fhir_keeps net message);
      [| reflexivity | reflexivity | apply delivered_fhir_trace].
    intros x Hx. unfold fhir_keeps, takes, is_not.
    destruct (Nat.eqb_spec x k) as [-> | Hne].
    * destruct Hk as [Hc | (e & He & _)].
      -- destruct (is_connected (client_state (net k))) eqn:E;
           [apply is_connected_iff in E; contradiction | reflexivity].
      -- rewrite He. apply andb_false_r.
    * destruct (Hothers x Hx Hne) as [Hc Hok]. now rewrite Hc, Hok.
  + intros x Hx. destruct (Nat.eq_dec x k) as [-> | Hne].
    * destruct Hk as [Hc | Hraise]; [now left | right; now right].
    * right. left. now destruct (Hothers x Hx Hne).
Qed.

Lemma broadcast_one_failure_witness :
let net := fun x : WebSocket =>
  {| client_state := CONNECTED;
     send_json := fun _ =>
       if Nat.eqb x 2 then Raise ConnectionResetError else Ok tt |} in
let w := {| active := [1; 2; 3]; wire := []; clock := 0 |} in
only_dropped ping 2 w (Chief.broadcast net quiet ping 3 w)
/\ only_dropped ping 2 w (Fhir.broadcast net quiet ping w).
Proof.
intros net w.
assert (Hothers : others_take net ping 2 w).
{ intros x Hx Hne. split; [reflexivity|]. simpl.
  destruct (Nat.eqb_spec x 2); [contradiction | reflexivity]. }
destruct (broadcast_one_failure net ping w 2 Hothers) as [Hchief Hfhir].
split.
- apply (Hchief ConnectionResetError 3); [reflexivity | reflexivity |].
  simpl. lia.
- apply Hfhir. right. exists ConnectionResetError.
  split; reflexivity.
Defined.

(** C1 fails as stated in FHIR/main.py: a send that raises an exception
  outside the classes of the [except] clause (here the [TypeError] of a
  serialization failure) leaves [broadcast] as an exception, nothing is
  sent to the connection behind it, and the registry is unchanged. *)
Lemma broadcast_unabsorbed_counterexample :
let net := fun x : WebSocket =>
  {| client_state := CONNECTED;
     send_json := fun _ => if Nat.eqb x 1 then Raise TypeError else Ok tt |} in
let w := {| active := [1; 2]; wire := []; clock := 0 |} in
others_take net ping 1 w
/\ send_json (net 1) ping = Raise TypeError
/\ Fhir.broadcast net quiet ping w
   = (Raise TypeError,
      {| active := [1; 2]; wire := [Failed 1 ping TypeError]; clock := 0 |})
/\ ~ only_dropped ping 1 w (Fhir.broadcast net quiet ping w).
Proof.
intros net w. split; [|split; [reflexivity | split; [reflexivity|]]].
- intros x Hx Hne. split; [reflexivity|]. simpl.
  destruct (Nat.eqb_spec x 1); [contradiction | reflexivity].
- intros (Hret & _). discriminate Hret.
Qed.

(** C7 (as amended): with no concurrent registry calls, a connection that
  is not in the CONNECTED state is out of the registry after a
  [broadcast] call that returns: in FHIR/main.py by the state test; in
  chief_server.py, which does not read the state, when the send on the
  closed connection raises. *)
Theorem broadcast_drops_closed (net : WebSocket -> peer) (message : json)
  (w : world) (c : WebSocket) :
client_state (net c) <> CONNECTED ->
(fst (Fhir.broadcast net quiet message w) = Ok tt ->
 ~ In c (active (snd (Fhir.broadcast net quiet message w))))
/\ (forall fuel : nat,
      (exists e, send_json (net c) message = Raise e) ->
      fst (Chief.broadcast net quiet message fuel w) = Ok tt ->
      ~ In c (active (snd (Chief.broadcast net quiet message fuel w)))).
Proof.
intros Hclosed. split.
- intros Hret.
  rewrite fhir_broadcast_settled.
  + simpl. intros Hin. apply filter_In in Hin. destruct Hin as [_ Hk].
    unfold fhir_keeps in Hk. apply andb_prop in Hk. destruct Hk as [Hc _].
    apply is_connected_iff in Hc. contradiction.
  + exact (fhir_visit_returned net message (active w) 0 w Hret).
- intros fuel (e & He) Hret.
  assert (Hdel : exists d, fst (Chief.deliver net quiet message fuel 0 [] w)
                           = Ok d).
  { unfold Chief.broadcast, bind in Hret.
    destruct (Chief.deliver net quiet message fuel 0 [] w) as [[d | e' |] w'];
      simpl in *; try discriminate. now exists d. }
  destruct Hdel as (d & Hd).
  apply chief_deliver_returned in Hd. destruct Hd as [Hlen Hall].
  rewrite chief_broadcast_settled; [| simpl in Hlen; lia | exact Hall].
  simpl. intros Hin. apply filter_In in Hin. destruct Hin as [_ Hk].
  unfold takes in Hk. rewrite He in Hk. discriminate.
Qed.

Lemma broadcast_drops_closed_witness :
let net := fun x : WebSocket =>
  if Nat.eqb x 2
  then {| client_state := DISCONNECTED;
          send_json := fun _ => Raise RuntimeError |}
  else {| client_state := CONNECTED; send_json := fun _ => Ok tt |} in
let w := {| active := [1; 2; 3]; wire := []; clock := 0 |} in
~ In 2 (active (snd (Fhir.broadcast net quiet ping w)))
/\ ~ In 2 (active (snd (Chief.broadcast net quiet ping 3 w))).
Proof.
intros net w.
assert (Hclosed : client_state (net 2) <> CONNECTED) by discriminate.
destruct (broadcast_drops_closed net ping w 2 Hclosed) as [Hfhir Hchief].
split.
- apply Hfhir. reflexivity.
- apply (Hchief 3); [now exists RuntimeError | reflexivity].
Defined.

(** C7 fails as stated in FHIR/main.py: when the send to an earlier
  connection raises outside the absorbed classes the call is over, and a
  closed connection behind it stays in the registry. *)
Lemma broadcast_keeps_closed_counterexample :
let net := fun x : WebSocket =>
  if Nat.eqb x 1
  then {| client_state := CONNECTED; send_json := fun _ => Raise TypeError |}
  else {| client_state := DISCONNECTED;
          send_json := fun _ => Raise RuntimeError |} in
let w := {| active := [1; 2]; wire := []; clock := 0 |} in
client_state (net 2) = DISCONNECTED
/\ fst (Fhir.broadcast net quiet ping w) = Raise TypeError
/\ In 2 (active (snd (Fhir.broadcast net quiet ping w))).
Proof. repeat split. simpl. tauto. Qed.

(** * Broadcast while other tasks call the registry *)

Lemma perform_wire (c : call) (w : world) :
wire (snd (perform c w)) = wire w /\ clock (snd (perform c w)) = clock w.
Proof.
destruct c as [ws [u | e |] | ws]; simpl;
  try rewrite disconnect_eq; now split.
Qed.

Lemma after_calls_wire (calls : list call) :
forall w : world,
  wire (after_calls calls w) = wire w
  /\ clock (after_calls calls w) = clock w.
Proof.
induction calls as [|c calls IH]; intros w; simpl; [now split|].
destruct (IH (snd (perform c w))) as [Hw Hc].
destruct (perform_wire c w) as [Hw' Hc']. split; congruence.
Qed.

Lemma fhir_visit_step_any (net : WebSocket -> peer)
  (meanwhile : nat -> list call) (message : json) (ws : WebSocket)
  (rest : list WebSocket) (i : nat) (w : world) :
Fhir.visit net meanwhile message (ws :: rest) i w
= if is_connected (client_state (net ws)) then
    match send_json (net ws) message with
    | Ok _ =>
        Fhir.visit net meanwhile message rest (S i)
          (after_calls (meanwhile i) (emit (Delivered ws message) w))
    | Raise e =>
        let w' := after_calls (meanwhile i) (emit (Failed ws message e) w) in
        if caught e Fhir.absorbed
        then Fhir.visit net meanwhile message rest (S i)
               (set_active (remove_first ws (active w')) w')
        else (Raise e, w')
    | Pending => (Pending, after_calls (meanwhile i) w)
    end
  else Fhir.visit net meanwhile message rest (S i)
         (set_active (remove_first ws (active w)) w).
Proof.
simpl. unfold bind, try_except.
destruct (is_connected (client_state (net ws))).
- unfold await_send.
  destruct (send_json (net ws) message) as [[] | e |]; simpl;
    try reflexivity.
  destruct (caught e Fhir.absorbed); [|reflexivity].
  now rewrite disconnect_eq.
- now rewrite disconnect_eq.
Qed.

(** In FHIR/main.py the connections visited, the frames sent and the
  result of [broadcast] are those of the copy taken at call time,
  whatever other tasks do to the registry in the meantime. *)
Lemma fhir_visit_fixed (net : WebSocket -> peer) (message : json)
  (m1 m2 : nat -> list call) (copy : list WebSocket) :
forall (i : nat) (w1 w2 : world),
  wire w1 = wire w2 ->
  fst (Fhir.visit net m1 message copy i w1)
  = fst (Fhir.visit net m2 message copy i w2)
  /\ wire (snd (Fhir.visit net m1 message copy i w1))
     = wire (snd (Fhir.visit net m2 message copy i w2)).
Proof.
induction copy as [|ws copy IH]; intros i w1 w2 Hw; [now split|].
rewrite !fhir_visit_step_any.
destruct (is_connected (client_state (net ws))).
- destruct (send_json (net ws) message) as [[] | e |]; simpl.
  + apply IH.
    destruct (after_calls_wire (m1 i) (emit (Delivered ws message) w1))
      as [-> _].
    destruct (after_calls_wire (m2 i) (emit (Delivered ws message) w2))
      as [-> _].
    simpl. now rewrite Hw.
  + assert (Hw' : wire (after_calls (m1 i) (emit (Failed ws message e) w1))
                  = wire (after_calls (m2 i) (emit (Failed ws message e) w2))).
    { destruct (after_calls_wire (m1 i) (emit (Failed ws message e) w1))
        as [-> _].
      destruct (after_calls_wire (m2 i) (emit (Failed ws message e) w2))
        as [-> _].
      simpl. now rewrite Hw. }
    destruct (caught e Fhir.absorbed); [apply IH | split]; easy.
  + split; [reflexivity|].
    destruct (after_calls_wire (m1 i) w1) as [-> _].
    now destruct (after_calls_wire (m2 i) w2) as [-> _].
- apply IH. exact Hw.
Qed.

Lemma fhir_broadcast_fixed (net : WebSocket -> peer) (message : json)
  (meanwhile : nat -> list call) (w : world) :
fst (Fhir.broadcast net meanwhile message w)
= fst (Fhir.broadcast net quiet message w)
/\ wire (snd (Fhir.broadcast net meanwhile message w))
   = wire (snd (Fhir.broadcast net quiet message w)).
Proof. now apply fhir_visit_fixed. Qed.

(** C8, the defect in chief_server.py: its loop runs over the live list.
  With the registry [1; 2; 3] and every send succeeding, a [disconnect]
  of connection 1 by its own handler during the first [await] makes the
  loop skip connection 2, and a [connect] of connection 4 in the same
  place makes the loop deliver to 4, which was not registered when the
  call started.  The loop of FHIR/main.py visits 1, 2, 3 in both cases. *)
Theorem chief_broadcast_follows_live_list :
let net := fun _ : WebSocket =>
  {| client_state := CONNECTED; send_json := fun _ => Ok tt |} in
let w := {| active := [1; 2; 3]; wire := []; clock := 0 |} in
let leaves := fun i => if Nat.eqb i 0 then [Disconnect 1] else [] in
let joins := fun i => if Nat.eqb i 0 then [Connect 4 (Ok tt)] else [] in
snapshot w = [1; 2; 3]
/\ map frame_ws (wire (snd (Chief.broadcast net leaves ping 5 w))) = [1; 3]
/\ active (snd (Chief.broadcast net leaves ping 5 w)) = [2; 3]
/\ map frame_ws (wire (snd (Chief.broadcast net joins ping 5 w)))
   = [1; 2; 3; 4]
/\ map frame_ws (wire (snd (Fhir.broadcast net leaves ping w))) = [1; 2; 3]
/\ map frame_ws (wire (snd (Fhir.broadcast net joins ping w))) = [1; 2; 3].
Proof. repeat split. Qed.

(** * The liveness loop: heartbeats *)

Lemma wait_for_next (timeout : nat) (script : list inbound) :
forall w : world,
  Fhir.wait_for timeout script w
  = Fhir.wait_for timeout (next_inbound script)
      (after_calls (pending_calls script) w).
Proof.
induction script as [|[gap data | gap e | c] script IH]; intros w;
  try reflexivity.
simpl. apply IH.
Qed.

Lemma wait_for_silent (timeout : nat) (script : list inbound) (w : world) :
silent_for timeout script = true ->
Fhir.wait_for timeout script w
= (Ok (None, later timeout script), tick timeout w).
Proof.
destruct script as [|[gap data | gap e | c] script]; simpl; intros H;
  try reflexivity; try discriminate.
- apply Nat.leb_le in H. destruct (Nat.ltb_spec gap timeout); [lia|reflexivity].
- apply Nat.leb_le in H. destruct (Nat.ltb_spec gap timeout); [lia|reflexivity].
Qed.

Lemma silent_for_later (a b : nat) (script : list inbound) :
silent_for (a + b) script = true ->
silent_for a script = true /\ silent_for b (later a script) = true.
Proof.
destruct script as [|[gap data | gap e | c] script]; simpl; intros H;
  try discriminate; try (now split);
  apply Nat.leb_le in H; split; apply Nat.leb_le; lia.
Qed.

Lemma later_later (a b : nat) (script : list inbound) :
later b (later a script) = later (a + b) script.
Proof.
destruct script as [|[gap data | gap e | c] script]; simpl;
  try reflexivity; f_equal; f_equal; lia.
Qed.

Lemma next_inbound_silent (n : nat) (script : list inbound) :
silent_for n script = true ->
next_inbound script = script /\ pending_calls script = [].
Proof.
destruct script as [|[gap data | gap e | c] script]; simpl; intros H;
  try discriminate; now split.
Qed.

Section FhirHeartbeat.
Variable line : nat -> peer.
Variable ws : WebSocket.

(** One timeout: one ping, then the next wait. *)
Lemma fhir_keep_alive_timeout (fuel : nat) (script : list inbound)
    (w : world) :
  silent_for Fhir.TIMEOUT (next_inbound script) = true ->
  stays_open line (clock w) (clock w + Fhir.TIMEOUT) ->
  Fhir.keep_alive line ws (S fuel) script w
  = Fhir.keep_alive line ws fuel (later Fhir.TIMEOUT (next_inbound script))
      {| active := active (after_calls (pending_calls script) w);
         wire := wire w ++ [Delivered ws ping];
         clock := clock w + Fhir.TIMEOUT |}.
Proof.
  intros Hsilent Hopen. simpl. unfold bind at 1.
  rewrite wait_for_next, wait_for_silent by exact Hsilent. simpl.
  destruct (after_calls_wire (pending_calls script) w) as [Hw Hc].
  unfold bind, Fhir.heartbeat. simpl. rewrite Hc.
  destruct (Hopen (clock w + Fhir.TIMEOUT)) as [Hst Hsend];
    [unfold Fhir.TIMEOUT; lia|].
  rewrite Hst. simpl. unfold await_send. rewrite Hsend. simpl.
  unfold emit, tick. simpl. now rewrite Hw, Hc.
Qed.

Lemma fhir_keep_alive_timeouts (k : nat) :
  forall (fuel : nat) (script : list inbound) (w : world),
    silent_for (S k * Fhir.TIMEOUT) (next_inbound script) = true ->
    stays_open line (clock w) (clock w + S k * Fhir.TIMEOUT) ->
    Fhir.keep_alive line ws (S k + fuel) script w
    = Fhir.keep_alive line ws fuel
        (later (S k * Fhir.TIMEOUT) (next_inbound script))
        {| active := active (after_calls (pending_calls script) w);
           wire := wire w ++ repeat (Delivered ws ping) (S k);
           clock := clock w + S k * Fhir.TIMEOUT |}.
Proof.
  induction k as [|k IH]; intros fuel script w Hsilent Hopen.
  - rewrite Nat.mul_1_l in *. change (1 + fuel) with (S fuel).
    now rewrite fhir_keep_alive_timeout.
  - replace (S (S k) * Fhir.TIMEOUT)
      with (Fhir.TIMEOUT + S k * Fhir.TIMEOUT) in * by lia.
    apply silent_for_later in Hsilent. destruct Hsilent as [H1 Hk].
    change (S (S k) + fuel) with (S (S k + fuel)).
    rewrite fhir_keep_alive_timeout; [| exact H1 |].
    + destruct (next_inbound_silent _ _ Hk) as [Hnext Hpend].
      rewrite IH.
      * rewrite Hnext, later_later, Hpend.
        cbn [after_calls fold_left active wire clock].
        rewrite <- app_assoc.
        f_equal; f_equal; try reflexivity; lia.
      * now rewrite Hnext.
      * intros t Ht. cbn [clock] in Ht. apply Hopen. lia.
    + intros t Ht. apply Hopen. lia.
Qed.
End FhirHeartbeat.

(** C3 (as amended), FHIR/main.py: while the connection stays in the
  CONNECTED state and takes the pings, every 30 time units that pass
  without an inbound frame make the loop send exactly one ping and start
  the next wait: after [S k] such intervals the loop is at its next wait,
  the wire has [S k] pings more and nothing else.  (chief_server.py waits
  without a timeout and never sends a ping.) *)
Theorem fhir_heartbeat_per_timeout (line : nat -> peer) (ws : WebSocket)
  (k fuel : nat) (script : list inbound) (w : world) :
silent_for (S k * 30) (next_inbound script) = true ->
stays_open line (clock w) (clock w + S k * 30) ->
Fhir.keep_alive line ws (S k + fuel) script w
= Fhir.keep_alive line ws fuel (later (S k * 30) (next_inbound script))
    {| active := active (after_calls (pending_calls script) w);
       wire := wire w ++ repeat (Delivered ws ping) (S k);
       clock := clock w + S k * 30 |}.
Proof. exact (fhir_keep_alive_timeouts line ws k fuel script w). Qed.

Lemma fhir_heartbeat_per_timeout_witness :
let line := fun _ : nat =>
  {| client_state := CONNECTED; send_json := fun _ => Ok tt |} in
let w := {| active := [1]; wire := []; clock := 0 |} in
Fhir.keep_alive line 1 (1 + 1) [Text 31 "hello"] w
= Fhir.keep_alive line 1 1 [Text 1 "hello"]
    {| active := [1]; wire := [Delivered 1 ping]; clock := 30 |}.
Proof.
intros line w.
apply (fhir_heartbeat_per_timeout line 1 0 1 [Text 31 "hello"] w).
- reflexivity.
- intros t _. split; reflexivity.
Defined.

(** C3 fails as stated in chief_server.py: its loop has no timeout.  With
  the connection open and the client silent for 95 time units the
  handler has put the patient list on the wire and not a single ping. *)
Lemma chief_no_heartbeat_counterexample :
let line := fun _ : nat =>
  {| client_state := CONNECTED; send_json := fun _ => Ok tt |} in
Chief.chief_ws (Ok tt) (Ok []) line 1 3 [Text 95 "hello"] empty_world
= (Pending,
   {| active := [1];
      wire := [Delivered 1 (patients_message [])];
      clock := 95 |})
/\ pings (wire (snd (Chief.chief_ws (Ok tt) (Ok []) line 1 3
                       [Text 95 "hello"] empty_world))) = 0.
Proof. split; reflexivity. Qed.

(** * The liveness loop: leaving the registry *)

Lemma perform_no_more (ws : WebSocket) (c : call) (w : world) :
(forall ws' a, c = Connect ws' a -> ws' <> ws) ->
occurrences ws (active (snd (perform c w))) <= occurrences ws (active w).
Proof.
intros Hc. destruct c as [ws' [u | e |] | ws']; simpl; try lia.
- rewrite occurrences_app. unfold occurrences at 2. simpl.
  destruct (Nat.eq_dec ws' ws) as [E | _]; [|lia].
  now apply (Hc ws' (Ok u)) in E.
- rewrite disconnect_eq. simpl. rewrite occurrences_remove_first.
  destruct (Nat.eqb ws ws'); lia.
Qed.

Lemma receive_text_no_more (ws : WebSocket) (script : list inbound) :
forall w : world,
  foreign ws script = true ->
  occurrences ws (active (snd (receive_text script w)))
  <= occurrences ws (active w)
  /\ forall r, fst (receive_text script w) = Ok r ->
               foreign ws (snd r) = true.
Proof.
induction script as [|[gap data | gap e | c] script IH]; intros w Hf;
  simpl in *.
- split; [lia | discriminate].
- split; [lia|]. intros r [= <-]. exact Hf.
- split; [lia | discriminate].
- assert (Hc : (forall ws' a, c = Connect ws' a -> ws' <> ws)
               /\ foreign ws script = true).
  { destruct c as [ws' a | ws'].
    - apply andb_prop in Hf. destruct Hf as [Hne Hf]. split; [|exact Hf].
      intros ws'' a' [= <- <-]. apply negb_true_iff in Hne.
      now apply Nat.eqb_neq in Hne.
    - split; [discriminate | exact Hf]. }
  destruct Hc as [Hc Hf'].
  destruct (IH (snd (perform c w)) Hf') as [Hocc Hrest].
  split; [|exact Hrest].
  pose proof (perform_no_more ws c w Hc). lia.
Qed.

Lemma wait_for_no_more (ws : WebSocket) (timeout : nat)
  (script : list inbound) :
forall w : world,
  foreign ws script = true ->
  occurrences ws (active (snd (Fhir.wait_for timeout script w)))
  <= occurrences ws (active w)
  /\ forall r, fst (Fhir.wait_for timeout script w) = Ok r ->
               foreign ws (snd r) = true.
Proof.
induction script as [|[gap data | gap e | c] script IH]; intros w Hf;
  simpl in *.
- split; [lia|]. now intros r [= <-].
- destruct (gap <? timeout); (split; [simpl; lia|]); now intros r [= <-].
- destruct (gap <? timeout); (split; [simpl; lia|]);
    [discriminate | now intros r [= <-]].
- assert (Hc : (forall ws' a, c = Connect ws' a -> ws' <> ws)
               /\ foreign ws script = true).
  { destruct c as [ws' a | ws'].
    - apply andb_prop in Hf. destruct Hf as [Hne Hf]. split; [|exact Hf].
      intros ws'' a' [= <- <-]. apply negb_true_iff in Hne.
      now apply Nat.eqb_neq in Hne.
    - split; [discriminate | exact Hf]. }
  destruct Hc as [Hc Hf'].
  destruct (IH (snd (perform c w)) Hf') as [Hocc Hrest].
  split; [|exact Hrest].
  pose proof (perform_no_more ws c w Hc). lia.
Qed.

Lemma await_send_active (p : peer) (ws : WebSocket) (message : json)
  (w : world) :
active (snd (await_send p ws message [] w)) = active w.
Proof. unfold await_send. now destruct (send_json p message). Qed.

Lemma chief_keep_alive_no_more (ws : WebSocket) (fuel : nat) :
forall (script : list inbound) (w : world),
  foreign ws script = true ->
  occurrences ws (active (snd (Chief.keep_alive fuel script w)))
  <= occurrences ws (active w).
Proof.
induction fuel as [|fuel IH]; intros script w Hf; simpl; [lia|].
unfold bind. destruct (receive_text_no_more ws script w Hf) as [Hocc Hrest].
destruct (receive_text script w) as [[r | e |] w1]; simpl in *; try lia.
specialize (IH (snd r) w1 (Hrest r eq_refl)). lia.
Qed.

(** The loop of chief_server.py does not return. *)
Lemma chief_keep_alive_no_return (fuel : nat) :
forall (script : list inbound) (w : world) u,
  fst (Chief.keep_alive fuel script w) <> Ok u.
Proof.
induction fuel as [|fuel IH]; intros script w u; simpl; [discriminate|].
unfold bind. destruct (receive_text script w) as [[r | e |] w1]; simpl;
  try discriminate. apply IH.
Qed.

Lemma fhir_keep_alive_no_more (line : nat -> peer) (ws : WebSocket)
  (fuel : nat) :
forall (script : list inbound) (w : world),
  foreign ws script = true ->
  occurrences ws (active (snd (Fhir.keep_alive line ws fuel script w)))
  <= occurrences ws (active w).
Proof.
induction fuel as [|fuel IH]; intros script w Hf; simpl; [lia|].
unfold bind at 1.
destruct (wait_for_no_more ws Fhir.TIMEOUT script w Hf) as [Hocc Hrest].
destruct (Fhir.wait_for Fhir.TIMEOUT script w) as [[r | e |] w1];
  simpl in *; try lia.
specialize (Hrest r eq_refl). unfold bind.
destruct (fst r); unfold ret.
- specialize (IH (snd r) w1 Hrest). lia.
- assert (Hb : active (snd (Fhir.heartbeat line ws w1)) = active w1).
  { unfold Fhir.heartbeat.
    destruct (is_connected (client_state (line (clock w1))));
      [apply await_send_active | reflexivity]. }
  destruct (Fhir.heartbeat line ws w1) as [[u | e |] w2]; simpl in *;
    [| rewrite Hb; lia | rewrite Hb; lia].
  specialize (IH (snd r) w2 Hrest). rewrite Hb in IH. lia.
Qed.

Lemma connect_once (ws : WebSocket) (w : world) :
~ In ws (active w) ->
occurrences ws (active (set_active (active w ++ [ws]) w)) = 1.
Proof.
intros H. simpl. rewrite occurrences_app.
apply occurrences_zero in H. rewrite H. unfold occurrences. simpl.
destruct (Nat.eq_dec ws ws); [reflexivity | contradiction].
Qed.

Lemma gone_after_disconnect (ws : WebSocket) (w : world) :
occurrences ws (active w) <= 1 ->
~ In ws (active (snd (disconnect ws w))).
Proof.
intros H. rewrite disconnect_eq. simpl. apply occurrences_zero.
rewrite occurrences_remove_first, Nat.eqb_refl. lia.
Qed.

Lemma try_finally_disconnect {A} (body : M A) (ws : WebSocket) (w : world) :
occurrences ws (active (snd (body w))) <= 1 ->
fst (try_finally body (disconnect ws) w) <> Pending ->
~ In ws (active (snd (try_finally body (disconnect ws) w))).
Proof.
intros Hocc. unfold try_finally.
destruct (body w) as [[a | e |] w2]; simpl in *; try tauto;
  intros _; pose proof (gone_after_disconnect ws w2 Hocc) as Hg;
  rewrite disconnect_eq in *; exact Hg.
Qed.

Lemma try_except_pass_active (body : M unit) (classes : list exn) (w : world) :
active (snd (try_except body [(classes, ret tt)] w)) = active (snd (body w)).
Proof.
unfold try_except. destruct (body w) as [[a | e |] w2]; simpl;
  try reflexivity.
now destruct (caught e classes).
Qed.

Lemma try_except_disconnect (body : M unit) (ws : WebSocket) (w : world) :
occurrences ws (active (snd (body w))) <= 1 ->
(forall v, fst (body w) <> Ok v) ->
exited_on_error
  (fst (try_except body [([WebSocketDisconnect], disconnect ws);
                         ([Exception], disconnect ws)] w)) ->
~ In ws
    (active
       (snd (try_except body [([WebSocketDisconnect], disconnect ws);
                              ([Exception], disconnect ws)] w))).
Proof.
intros Hocc Hnoret. unfold try_except.
destruct (body w) as [[v | e |] w2]; simpl in *.
- now destruct (Hnoret v).
- unfold caught. simpl. rewrite !orb_false_r.
  destruct (isinstance e WebSocketDisconnect).
  + intros _. now apply gone_after_disconnect.
  + destruct (isinstance e Exception) eqn:Hexc.
    * intros _. now apply gone_after_disconnect.
    * simpl. rewrite Hexc. discriminate.
- tauto.
Qed.

Section HandlerBodies.
Variable fetch : res (list json).
Variable line : nat -> peer.
Variable ws : WebSocket.
Variable fuel : nat.
Variable script : list inbound.
Hypothesis script_foreign : foreign ws script = true.

(** Sending the patient list and keeping the connection alive does not
    add the connection to the registry. *)
Lemma fhir_body_no_more (w : world) :
  occurrences ws
    (active
       (snd ((rows <- lift fetch ;;
              (fun w0 => await_send (line (clock w0)) ws
                           (patients_message rows) [] w0) ;;;
              Fhir.keep_alive line ws fuel script) w)))
  <= occurrences ws (active w).
Proof.
  unfold bind, lift. destruct fetch as [rows | e |]; simpl; try lia.
  pose proof (await_send_active (line (clock w)) ws
                (patients_message rows) w) as Hs.
  destruct (await_send (line (clock w)) ws (patients_message rows) [] w)
    as [[v | e |] w2]; simpl in *; try (rewrite Hs; lia).
  pose proof (fhir_keep_alive_no_more line ws fuel script w2 script_foreign).
  rewrite Hs in *. lia.
Qed.

Lemma chief_body_no_more (w : world) :
  occurrences ws
    (active
       (snd ((rows <- lift fetch ;;
              (fun w0 => await_send (line (clock w0)) ws
                           (patients_message rows) [] w0) ;;;
              Chief.keep_alive fuel script) w)))
  <= occurrences ws (active w)
  /\ forall v,
       fst ((rows <- lift fetch ;;
             (fun w0 => await_send (line (clock w0)) ws
                          (patients_message rows) [] w0) ;;;
             Chief.keep_alive fuel script) w) <> Ok v.
Proof.
  unfold bind, lift. destruct fetch as [rows | e |]; simpl;
    try (split; [lia | discriminate]).
  pose proof (await_send_active (line (clock w)) ws
                (patients_message rows) w) as Hs.
  destruct (await_send (line (clock w)) ws (patients_message rows) [] w)
    as [[v | e |] w2]; simpl in *;
    try (split; [rewrite Hs; lia | discriminate]).
  pose proof (chief_keep_alive_no_more ws fuel script w2 script_foreign).
  rewrite Hs in *. split; [lia|].
  intros v'. apply chief_keep_alive_no_return.
Qed.
End HandlerBodies.

(** *** The handlers do come to an end *)

Lemma receive_text_progress (script : list inbound) :
  forall w : world,
    breaks script = true ->
    match receive_text script w with
    | (Ok r, _) => breaks (snd r) = true /\ patience (snd r) < patience script
    | (Raise _, _) => True
    | (Pending, _) => False
    end.
Proof.
  induction script as [|[gap data | gap e | c] script IH]; intros w Hb;
    simpl in *; try discriminate.
  - split; [exact Hb | lia].
  - exact I.
  - specialize (IH (snd (perform c w)) Hb).
    destruct (receive_text script (snd (perform c w))) as [[r | e |] w1];
      try exact IH.
    destruct IH as [IH1 IH2]. split; [exact IH1 | lia].
Qed.

Lemma timeout_shortens (gap : nat) :
  Fhir.TIMEOUT <= gap ->
  (gap - Fhir.TIMEOUT) / Fhir.TIMEOUT < gap / Fhir.TIMEOUT.
Proof.
  intros H. unfold Fhir.TIMEOUT in *.
  replace gap with (1 * 30 + (gap - 30)) at 2 by lia.
  rewrite Nat.div_add_l by discriminate. lia.
Qed.

Lemma wait_for_progress (script : list inbound) :
  forall w : world,
    breaks script = true ->
    match Fhir.wait_for Fhir.TIMEOUT script w with
    | (Ok r, _) => breaks (snd r) = true /\ patience (snd r) < patience script
    | (Raise _, _) => True
    | (Pending, _) => False
    end.
Proof.
  induction script as [|[gap data | gap e | c] script IH]; intros w Hb;
    try discriminate.
  - simpl Fhir.wait_for.
    destruct (Nat.ltb_spec gap Fhir.TIMEOUT) as [Hlt | Hge].
    + split; [exact Hb|]. cbn [snd patience]. lia.
    + split; [exact Hb|]. cbn [snd patience].
      pose proof (timeout_shortens gap Hge). lia.
  - simpl Fhir.wait_for.
    destruct (Nat.ltb_spec gap Fhir.TIMEOUT) as [Hlt | Hge].
    + exact I.
    + split; [reflexivity|]. cbn [snd patience].
      pose proof (timeout_shortens gap Hge). lia.
  - simpl in Hb. specialize (IH (snd (perform c w)) Hb).
    simpl Fhir.wait_for.
    destruct (Fhir.wait_for Fhir.TIMEOUT script (snd (perform c w)))
      as [[r | e |] w1]; try exact IH.
    destruct IH as [IH1 IH2]. split; [exact IH1 | cbn [patience]; lia].
Qed.

Lemma chief_keep_alive_exits (fuel : nat) :
  forall (script : list inbound) (w : world),
    breaks script = true ->
    patience script <= fuel ->
    exists e, fst (Chief.keep_alive fuel script w) = Raise e.
Proof.
  induction fuel as [|fuel IH]; intros script w Hb Hfuel.
  - destruct script as [|[gap data | gap e | c] script]; simpl in *;
      try discriminate; lia.
  - simpl. unfold bind. pose proof (receive_text_progress script w Hb) as Hp.
    destruct (receive_text script w) as [[r | e |] w1]; simpl.
    + destruct Hp as [Hb' Hlt]. apply IH; [exact Hb' | lia].
    + now exists e.
    + destruct Hp.
Qed.

Lemma fhir_keep_alive_exits (line : nat -> peer) (ws : WebSocket)
    (fuel : nat) :
  never_hangs line ->
  forall (script : list inbound) (w : world),
    breaks script = true ->
    patience script <= fuel ->
    exists e, fst (Fhir.keep_alive line ws fuel script w) = Raise e.
Proof.
  intros Hline. induction fuel as [|fuel IH]; intros script w Hb Hfuel.
  - destruct script as [|[gap data | gap e | c] script]; simpl in *;
      try discriminate; lia.
  - simpl. unfold bind at 1.
    pose proof (wait_for_progress script w Hb) as Hp.
    destruct (Fhir.wait_for Fhir.TIMEOUT script w) as [[r | e |] w1]; simpl.
    + destruct Hp as [Hb' Hlt]. unfold bind.
      destruct (fst r) as [data|]; simpl.
      * apply IH; [exact Hb' | lia].
      * unfold Fhir.heartbeat.
        destruct (is_connected (client_state (line (clock w1)))).
        -- unfold await_send.
           destruct (send_json (line (clock w1)) ping) as [u | e |] eqn:Hs;
             simpl.
           ++ apply IH; [exact Hb' | lia].
           ++ now exists e.
           ++ now apply Hline in Hs.
        -- apply IH; [exact Hb' | lia].
    + now exists e.
    + destruct Hp.
Qed.

(** With a failure of [receive_text] ahead, the handshake and the query
    answered, no send that hangs and fuel for every wait cycle, both
    handlers are over. *)
Lemma handlers_exit (accepted : res unit) (fetch : res (list json))
    (line : nat -> peer) (ws : WebSocket) (fuel : nat)
    (script : list inbound) (w : world) :
  accepted <> Pending -> fetch <> Pending -> never_hangs line ->
  breaks script = true -> patience script <= fuel ->
  fst (Fhir.chief_ws accepted fetch line ws fuel script w) <> Pending
  /\ fst (Chief.chief_ws accepted fetch line ws fuel script w) <> Pending.
Proof.
  intros Hacc Hfetch Hline Hb Hfuel.
  destruct accepted as [u | e |]; [| split; discriminate | contradiction].
  destruct fetch as [rows | e |]; [| | contradiction].
  - set (w1 := set_active (active w ++ [ws]) w).
    assert (Hsend : forall keep : M unit,
               (forall w', exists e, fst (keep w') = Raise e) ->
               exists e,
                 fst (((fun w0 => await_send (line (clock w0)) ws
                                    (patients_message rows) [] w0) ;;; keep) w1)
                 = Raise e).
    { intros keep Hkeep. unfold bind, await_send.
      destruct (send_json (line (clock w1)) (patients_message rows))
        as [v | e |] eqn:Hs; simpl.
      - apply Hkeep.
      - now exists e.
      - now apply Hline in Hs. }
    split.
    + destruct (Hsend (Fhir.keep_alive line ws fuel script)) as (e & He).
      { intros w'. now apply fhir_keep_alive_exits. }
      unfold Fhir.chief_ws, connect, lift, bind at 1 2. simpl. fold w1.
      unfold try_finally, try_except, bind at 1, lift. simpl.
      destruct ((_ ;;; Fhir.keep_alive line ws fuel script) w1)
        as [[v | e' |] w2]; simpl in *; try discriminate.
      destruct (caught e' _); unfold ret; rewrite disconnect_eq; discriminate.
    + destruct (Hsend (Chief.keep_alive fuel script)) as (e & He).
      { intros w'. now apply chief_keep_alive_exits. }
      unfold Chief.chief_ws, connect, lift, bind at 1 2. simpl. fold w1.
      unfold try_except, bind at 1, lift. simpl.
      destruct ((_ ;;; Chief.keep_alive fuel script) w1)
        as [[v | e' |] w2]; simpl in *; try discriminate.
      destruct (caught e' [WebSocketDisconnect]);
        [rewrite disconnect_eq; discriminate|].
      destruct (caught e' [Exception]);
        [rewrite disconnect_eq; discriminate | discriminate].
  - split.
    + unfold Fhir.chief_ws, connect, lift, bind, try_finally, try_except.
      simpl. destruct (caught e _); unfold ret; rewrite disconnect_eq;
        discriminate.
    + unfold Chief.chief_ws, connect, lift, bind, try_except. simpl.
      destruct (caught e [WebSocketDisconnect]);
        [rewrite disconnect_eq; discriminate|].
      destruct (caught e [Exception]);
        [rewrite disconnect_eq; discriminate | discriminate].
Qed.

(** * The liveness loop: client frames are not looked at *)

Lemma receive_text_blank (script : list inbound) :
forall w : world,
  receive_text (map blank script) w
  = match receive_text script w with
    | (Ok r, w') => (Ok ("", map blank (snd r)), w')
    | (Raise e, w') => (Raise e, w')
    | (Pending, w') => (Pending, w')
    end.
Proof.
induction script as [|[gap data | gap e | c] script IH]; intros w; simpl;
  try reflexivity.
apply IH.
Qed.

Lemma wait_for_blank (timeout : nat) (script : list inbound) :
forall w : world,
  Fhir.wait_for timeout (map blank script) w
  = match Fhir.wait_for timeout script w with
    | (Ok r, w') =>
        (Ok (option_map (fun _ => "") (fst r), map blank (snd r)), w')
    | (Raise e, w') => (Raise e, w')
    | (Pending, w') => (Pending, w')
    end.
Proof.
induction script as [|[gap data | gap e | c] script IH]; intros w; simpl;
  try reflexivity.
- now destruct (gap <? timeout).
- now destruct (gap <? timeout).
- apply IH.
Qed.

Lemma chief_keep_alive_blank (fuel : nat) :
forall (script : list inbound) (w : world),
  Chief.keep_alive fuel (map blank script) w = Chief.keep_alive fuel script w.
Proof.
induction fuel as [|fuel IH]; intros script w; simpl; [reflexivity|].
unfold bind. rewrite receive_text_blank.
destruct (receive_text script w) as [[r | e |] w1]; simpl;
  try reflexivity. apply IH.
Qed.

Lemma fhir_keep_alive_blank (line : nat -> peer) (ws : WebSocket)
  (fuel : nat) :
forall (script : list inbound) (w : world),
  Fhir.keep_alive line ws fuel (map blank script) w
  = Fhir.keep_alive line ws fuel script w.
Proof.
induction fuel as [|fuel IH]; intros script w; simpl; [reflexivity|].
unfold bind at 1 3. rewrite wait_for_blank.
destruct (Fhir.wait_for Fhir.TIMEOUT script w) as [[r | e |] w1]; simpl;
  try reflexivity.
unfold bind. destruct (fst r) as [data|]; simpl.
- apply IH.
- destruct (Fhir.heartbeat line ws w1) as [[u | e |] w2]; try reflexivity.
  apply IH.
Qed.

Lemma bind_ext {A B} (m : M A) (k1 k2 : A -> M B) (w : world) :
(forall a w', k1 a w' = k2 a w') -> bind m k1 w = bind m k2 w.
Proof.
intros H. unfold bind. destruct (m w) as [[a | e |] w1]; auto.
Qed.

Lemma try_except_ext {A} (b1 b2 : M A) (clauses : list (list exn * M A))
  (w : world) :
b1 w = b2 w -> try_except b1 clauses w = try_except b2 clauses w.
Proof. intros H. unfold try_except. now rewrite H. Qed.

Lemma try_finally_ext {A} (b1 b2 : M A) (cleanup : M unit) (w : world) :
b1 w = b2 w -> try_finally b1 cleanup w = try_finally b2 cleanup w.
Proof. intros H. unfold try_finally. now rewrite H. Qed.

Lemma fhir_chief_ws_blank (accepted : res unit) (fetch : res (list json))
  (line : nat -> peer) (ws : WebSocket) (fuel : nat)
  (script : list inbound) (w : world) :
Fhir.chief_ws accepted fetch line ws fuel (map blank script) w
= Fhir.chief_ws accepted fetch line ws fuel script w.
Proof.
unfold Fhir.chief_ws. apply bind_ext. intros _ w1.
apply try_finally_ext, try_except_ext, bind_ext. intros rows w2.
apply bind_ext. intros _ w3. apply fhir_keep_alive_blank.
Qed.

Lemma chief_chief_ws_blank (accepted : res unit) (fetch : res (list json))
  (line : nat -> peer) (ws : WebSocket) (fuel : nat)
  (script : list inbound) (w : world) :
Chief.chief_ws accepted fetch line ws fuel (map blank script) w
= Chief.chief_ws accepted fetch line ws fuel script w.
Proof.
unfold Chief.chief_ws. apply bind_ext. intros _ w1.
apply try_except_ext, bind_ext. intros rows w2.
apply bind_ext. intros _ w3. apply chief_keep_alive_blank.
Qed.

(** C9: two runs of a handler on inbound scripts that differ only in the
  contents of the client frames end in the same result and the same
  world: the same registry, the same frames on the wire, the same
  clock.  This holds for both services. *)
Theorem inbound_content_ignored (accepted : res unit)
  (fetch : res (list json)) (line : nat -> peer) (ws : WebSocket)
  (fuel : nat) (script1 script2 : list inbound) (w : world) :
map blank script1 = map blank script2 ->
Fhir.chief_ws accepted fetch line ws fuel script1 w
= Fhir.chief_ws accepted fetch line ws fuel script2 w
/\ Chief.chief_ws accepted fetch line ws fuel script1 w
   = Chief.chief_ws accepted fetch line ws fuel script2 w.
Proof.
intros H. split.
- rewrite <- (fhir_chief_ws_blank _ _ _ _ _ script1).
  rewrite <- (fhir_chief_ws_blank _ _ _ _ _ script2). now rewrite H.
- rewrite <- (chief_chief_ws_blank _ _ _ _ _ script1).
  rewrite <- (chief_chief_ws_blank _ _ _ _ _ script2). now rewrite H.
Qed.

Lemma inbound_content_ignored_witness :
let line := fun _ : nat =>
  {| client_state := CONNECTED; send_json := fun _ => Ok tt |} in
let w := {| active := [3]; wire := []; clock := 0 |} in
let script1 := [Text 5 "delete everything"; Text 40 "";
                Broken 7 WebSocketDisconnect] in
let script2 := [Text 5 "{}"; Text 40 "subscribe";
                Broken 7 WebSocketDisconnect] in
Fhir.chief_ws (Ok tt) (Ok []) line 4 9 script1 w
= Fhir.chief_ws (Ok tt) (Ok []) line 4 9 script2 w
/\ Chief.chief_ws (Ok tt) (Ok []) line 4 9 script1 w
   = Chief.chief_ws (Ok tt) (Ok []) line 4 9 script2 w.
Proof.
intros line w script1 script2.
apply (inbound_content_ignored (Ok tt) (Ok []) line 4 9 script1 script2 w).
reflexivity.
Defined.

(** * POST /fhir/Patient: the raw message is stored first *)

Lemma insert_message_changes (created_at raw : string) (db : Fhir.database) :
Fhir.insert_message created_at raw db <> db.
Proof.
intros H. apply (f_equal Fhir.fhir_messages) in H. simpl in H.
apply (f_equal (@List.length _)) in H. rewrite length_app in H.
simpl in H. lia.
Qed.

(** C10: on a request with an accepted content type the handler appends
  the raw body to [fhir_messages] whatever the payload is; a 400 reply
  leaves exactly that insertion behind (the database is not the one
  before the request, the patients are untouched, no broadcast is
  started); and a body that does not parse, or whose resourceType is not
  Patient, is answered with 400. *)
Theorem fhir_ingest_stores_raw_first (c : Fhir.codec) (now : string)
  (req : Fhir.request) (db : Fhir.database) :
Fhir.accepted_content_type req = true ->
let o := Fhir.fhir_ingest c now req db in
Fhir.fhir_messages (Fhir.stored o)
= Fhir.fhir_messages db
  ++ [((Fhir.fhir_messages_seq db + 1)%Z, now,
       Fhir.decode_ignore c (Fhir.body req))]
/\ (forall r, Fhir.reply o = Ok r -> Fhir.status_code r = 400 ->
     Fhir.stored o
     = Fhir.insert_message now (Fhir.decode_ignore c (Fhir.body req)) db
     /\ Fhir.stored o <> db
     /\ Fhir.patients (Fhir.stored o) = Fhir.patients db
     /\ Fhir.spawned o = None)
/\ (forall text e,
     Fhir.decode_strict c (Fhir.body req) = Ok text ->
     Fhir.loads c text = Raise e -> isinstance e Exception = true ->
     Fhir.reply o = Ok (Fhir.BadJson e))
/\ (forall text fields,
     Fhir.decode_strict c (Fhir.body req) = Ok text ->
     Fhir.loads c text = Ok (JObj fields) ->
     Fhir.lookup "resourceType" fields <> Some (JStr "Patient") ->
     Fhir.reply o = Ok Fhir.NotPatient).
Proof.
intros Hct o. unfold o, Fhir.fhir_ingest. rewrite Hct. simpl.
split; [|split; [|split]].
- destruct (Fhir.extract c (Fhir.body req))
    as [[early | [[[fid fam] giv] bd]] | e |]; try reflexivity.
  destruct (Fhir.bind_texts c [fid; fam; giv; bd]); reflexivity.
- intros r.
  destruct (Fhir.extract c (Fhir.body req))
    as [[early | [[[fid fam] giv] bd]] | e |]; simpl.
  + intros _ _. repeat split. apply insert_message_changes.
  + destruct (Fhir.bind_texts c [fid; fam; giv; bd]); simpl;
      [intros [= <-]; discriminate | discriminate | discriminate].
  + intros _ _. repeat split. apply insert_message_changes.
  + discriminate.
- intros text e Hdec Hloads Hexc. unfold Fhir.extract, Fhir.rbind.
  rewrite Hdec, Hloads. simpl. now rewrite Hexc.
- intros text fields Hdec Hloads Hrt. unfold Fhir.extract, Fhir.rbind.
  rewrite Hdec, Hloads. simpl.
  destruct (Fhir.lookup "resourceType" fields) as [[| | | | t | |]|];
    try reflexivity.
  simpl. destruct (String.eqb_spec t "Patient") as [-> | _];
    [congruence | reflexivity].
Qed.

Lemma fhir_ingest_stores_raw_first_witness :
let o := Fhir.fhir_ingest demo_codec "2024-01-01T00:00:00" (json_post "{}")
           empty_db in
Fhir.reply o = Ok Fhir.NotPatient
/\ Fhir.fhir_messages (Fhir.stored o) = [(1%Z, "2024-01-01T00:00:00", "{}")]
/\ Fhir.stored o <> empty_db.
Proof.
intros o.
destruct (fhir_ingest_stores_raw_first demo_codec "2024-01-01T00:00:00"
            (json_post "{}") empty_db eq_refl)
  as (Hstored & H400 & _ & Hnot).
assert (Hreply : Fhir.reply o = Ok Fhir.NotPatient)
  by (apply (Hnot "{}" []); [reflexivity | reflexivity | discriminate]).
split; [exact Hreply|]. split; [exact Hstored|].
now destruct (H400 Fhir.NotPatient Hreply eq_refl) as (_ & Hne & _).
Defined.

(** The replies of the handler on the example bodies. *)
Example fhir_ingest_replies :
let run := fun body =>
  Fhir.fhir_ingest demo_codec "now" (json_post body) empty_db in
Fhir.reply (run "{") = Ok (Fhir.BadJson ValueError)
/\ Fhir.reply (run "[]") = Ok (Fhir.BadJson AttributeError)
/\ Fhir.reply (run body_patient_only) = Ok Fhir.MissingFields
/\ Fhir.reply (run body_jane) = Ok (Fhir.Created "p1")
/\ map Fhir.row_family (Fhir.patients (Fhir.stored (run body_jane))) = ["Doe"]
/\ List.length (Fhir.fhir_messages (Fhir.stored (run body_patient_only))) = 1
/\ Fhir.fhir_ingest demo_codec "now"
     {| Fhir.content_type := Some "text/plain"; Fhir.body := "{}" |} empty_db
   = {| Fhir.reply := Ok Fhir.Unsupported; Fhir.stored := empty_db;
        Fhir.spawned := None |}.
Proof. repeat split. Qed.

(** * FHIR/main.py: the tables behind the HTTP handlers *)

Lemma ascending_app (l : list Z) (k : Z) :
  ascending l -> Forall (fun x => (x < k)%Z) l -> ascending (l ++ [k]).
Proof.
  induction l as [|x l IH]; simpl; intros Hasc Hlt.
  - split; [constructor | exact I].
  - destruct Hasc as [Hx Hl]. inversion Hlt as [|? ? Hxk Hlk]; subst.
    split; [|now apply IH].
    apply Forall_app. split; [exact Hx | now constructor].
Qed.

Lemma ascending_filter (p : Z -> bool) (l : list Z) :
  ascending l -> ascending (filter p l).
Proof.
  induction l as [|x l IH]; simpl; [tauto|]. intros [Hx Hl].
  destruct (p x); simpl; [split|]; try now apply IH.
  apply Forall_forall. intros y Hy. apply filter_In in Hy.
  rewrite Forall_forall in Hx. now apply Hx.
Qed.

Lemma descending_rev (l : list Z) : ascending l -> descending (rev l).
Proof.
  induction l as [|x l IH]; simpl; [tauto|]. intros [Hx Hl].
  specialize (IH Hl). revert IH.
  assert (Hlt : Forall (fun y => (x < y)%Z) (rev l))
    by (apply Forall_forall; intros y Hy; apply in_rev in Hy;
        rewrite Forall_forall in Hx; now apply Hx).
  induction (rev l) as [|y r IHr]; simpl.
  - intros _. split; [constructor | exact I].
  - intros [Hy Hr]. inversion Hlt as [|? ? Hxy Hxr]; subst.
    split; [|now apply IHr].
    apply Forall_app. split; [exact Hy | now constructor].
Qed.

Lemma In_firstn {A} (n : nat) (l : list A) (x : A) :
  In x (firstn n l) -> In x l.
Proof.
  intros H. rewrite <- (firstn_skipn n l). apply in_or_app. now left.
Qed.

Lemma descending_firstn (n : nat) (l : list Z) :
  descending l -> descending (firstn n l).
Proof.
  revert n. induction l as [|x l IH]; intros [|n]; simpl; try tauto.
  intros [Hx Hl]. split; [|now apply IH].
  apply Forall_forall. intros y Hy. apply In_firstn in Hy.
  rewrite Forall_forall in Hx. now apply Hx.
Qed.

Lemma filter_none {A} (p : A -> bool) (l : list A) :
  (forall x, In x l -> p x = false) ->
  filter p l = [] /\ filter (fun x => negb (p x)) l = l.
Proof.
  induction l as [|x l IH]; simpl; intros H; [now split|].
  rewrite (H x) by now left. simpl.
  destruct IH as [IH1 IH2]; [intros y Hy; apply H; now right|].
  split; [exact IH1 | now rewrite IH2].
Qed.

Lemma filter_some {A} (p : A -> bool) (l : list A) (x : A) :
  In x l -> p x = true -> List.length (filter p l) <> 0.
Proof.
  intros Hin Hp Hlen. apply length_zero_iff_nil in Hlen.
  assert (Hf : In x (filter p l)) by (apply filter_In; now split).
  now rewrite Hlen in Hf.
Qed.

Lemma key_absent (pid : Z) (rows : list Fhir.patient_row) :
  ~ In pid (map Fhir.row_id rows) <->
  forall r, In r rows -> Z.eqb (Fhir.row_id r) pid = false.
Proof.
  split.
  - intros H r Hr. apply Z.eqb_neq. intros E. apply H.
    rewrite <- E. now apply in_map.
  - intros H Hin. apply in_map_iff in Hin. destruct Hin as (r & E & Hr).
    apply H in Hr. apply Z.eqb_neq in Hr. contradiction.
Qed.

Lemma bind_int_ok (n : Z) : in_int64 n = true -> bind_int n = Ok n.
Proof. unfold bind_int. now intros ->. Qed.

Lemma bind_int_overflow (n : Z) :
  in_int64 n = false -> bind_int n = Raise OverflowError.
Proof. unfold bind_int. now intros ->. Qed.

(** X1: [api_delete_patient] on a key outside the 64-bit range ends in the
    [OverflowError] of the [execute], with the database as it is and no
    broadcast.  On a key of the range that no row has it answers 404,
    leaves the database as it is and starts no broadcast; on a key that a
    row has it replies with that key, takes out the rows of that key and
    no other, broadcasts the list read after the deletion, and the same
    request made again answers 404. *)
Theorem api_delete_patient_spec (pid : Z) (db : Fhir.database) :
  (in_int64 pid = false ->
   Fhir.api_delete_patient pid db
   = {| Fhir.del_reply := Raise OverflowError; Fhir.del_stored := db;
        Fhir.del_spawned := None |})
  /\ (in_int64 pid = true -> ~ In pid (fhir_keys db) ->
      Fhir.api_delete_patient pid db
      = {| Fhir.del_reply := Ok Fhir.NotFound; Fhir.del_stored := db;
           Fhir.del_spawned := None |})
  /\ (in_int64 pid = true -> In pid (fhir_keys db) ->
      let o := Fhir.api_delete_patient pid db in
      Fhir.del_reply o = Ok (Fhir.Deleted pid)
      /\ Fhir.patients (Fhir.del_stored o)
         = filter (fun r => negb (Z.eqb (Fhir.row_id r) pid))
             (Fhir.patients db)
      /\ ~ In pid (fhir_keys (Fhir.del_stored o))
      /\ Fhir.fhir_messages (Fhir.del_stored o) = Fhir.fhir_messages db
      /\ Fhir.del_spawned o
         = Some (patients_message
                   (Fhir.fetch_last_patients 10 (Fhir.del_stored o)))
      /\ Fhir.del_reply (Fhir.api_delete_patient pid (Fhir.del_stored o))
         = Ok Fhir.NotFound).
Proof.
  unfold fhir_keys. split; [|split].
  - intros Hout. unfold Fhir.api_delete_patient.
    now rewrite (bind_int_overflow pid Hout).
  - intros Hin Habsent.
    destruct (filter_none _ _ (proj1 (key_absent _ _) Habsent))
      as [Hnone Hall].
    unfold Fhir.api_delete_patient, Fhir.delete_patient.
    rewrite (bind_int_ok pid Hin), Hnone, Hall. simpl. now destruct db.
  - intros Hrange Hin. apply in_map_iff in Hin. destruct Hin as (r & E & Hr).
    assert (Hcount : List.length
                       (filter (fun r => Z.eqb (Fhir.row_id r) pid)
                          (Fhir.patients db)) <> 0)
      by (apply (filter_some _ _ r Hr); now apply Z.eqb_eq).
    assert (Hgone : ~ In pid
                        (map Fhir.row_id
                           (filter (fun r => negb (Z.eqb (Fhir.row_id r) pid))
                              (Fhir.patients db)))).
    { intros H. apply in_map_iff in H. destruct H as (x & Ex & Hx).
      apply filter_In in Hx. destruct Hx as [_ Hx].
      apply negb_true_iff, Z.eqb_neq in Hx. contradiction. }
    unfold Fhir.api_delete_patient, Fhir.delete_patient.
    apply Nat.eqb_neq in Hcount.
    rewrite (bind_int_ok pid Hrange), Hcount. simpl.
    repeat split; try exact Hgone.
    destruct (filter_none _ _ (proj1 (key_absent _ _) Hgone)) as [Hnone _].
    now rewrite Hnone.
Qed.

Lemma api_delete_patient_spec_witness :
  let db := Fhir.insert_patient "b" "Roe" "Ann" "1980-02-03" "t2"
              (Fhir.insert_patient "a" "Doe" "Jane" "1990-01-01" "t1"
                 empty_db) in
  Fhir.del_reply (Fhir.api_delete_patient (2 ^ 63) db) = Raise OverflowError
  /\ Fhir.del_reply (Fhir.api_delete_patient 7 db) = Ok Fhir.NotFound
  /\ Fhir.del_reply (Fhir.api_delete_patient 1 db) = Ok (Fhir.Deleted 1%Z)
  /\ fhir_keys (Fhir.del_stored (Fhir.api_delete_patient 1 db)) = [2%Z].
Proof.
  intros db.
  destruct (api_delete_patient_spec (2 ^ 63) db) as (Hout & _).
  destruct (api_delete_patient_spec 7 db) as (_ & Habsent & _).
  destruct (api_delete_patient_spec 1 db) as (_ & _ & Hpresent).
  split; [|split; [|split]].
  - now rewrite Hout.
  - rewrite Habsent; [reflexivity | reflexivity |].
    simpl. intros [H | [H | []]]; discriminate.
  - apply Hpresent; [reflexivity|]. simpl. now left.
  - reflexivity.
Defined.

(** What one request does to the patients: nothing, one row more under the
    next key, or the rows of one key less. *)
Lemma fhir_serve_patients (c : Fhir.codec) (db : Fhir.database)
    (r : fhir_request) :
  (Fhir.patients (fhir_serve c db r) = Fhir.patients db
   /\ Fhir.patients_seq (fhir_serve c db r) = Fhir.patients_seq db)
  \/ (exists row,
        Fhir.patients (fhir_serve c db r) = Fhir.patients db ++ [row]
        /\ Fhir.row_id row = (Fhir.patients_seq db + 1)%Z
        /\ Fhir.patients_seq (fhir_serve c db r)
           = (Fhir.patients_seq db + 1)%Z)
  \/ (exists pid,
        Fhir.patients (fhir_serve c db r)
        = filter (fun x => negb (Z.eqb (Fhir.row_id x) pid)) (Fhir.patients db)
        /\ Fhir.patients_seq (fhir_serve c db r) = Fhir.patients_seq db).
Proof.
  destruct r as [now req | pid]; simpl.
  - unfold Fhir.fhir_ingest.
    destruct (negb (Fhir.accepted_content_type req)); [left; now split|].
    destruct (Fhir.extract c (Fhir.body req))
      as [[early | [[[fid fam] giv] bd]] | e |]; simpl;
      try (left; now split).
    destruct (Fhir.bind_texts c [fid; fam; giv; bd]); simpl;
      try (left; now split).
    right. left. eexists. repeat split.
  - unfold Fhir.api_delete_patient, bind_int.
    destruct (in_int64 pid); [|left; now split].
    right. right. exists pid. simpl.
    destruct (Nat.eqb _ 0); now split.
Qed.

Lemma fhir_serve_keys_ok (c : Fhir.codec) (db : Fhir.database)
    (r : fhir_request) :
  fhir_keys_ok db ->
  fhir_keys_ok (fhir_serve c db r)
  /\ forall k, (k <= Fhir.patients_seq db)%Z -> ~ In k (fhir_keys db) ->
               (k <= Fhir.patients_seq (fhir_serve c db r))%Z
               /\ ~ In k (fhir_keys (fhir_serve c db r)).
Proof.
  unfold fhir_keys_ok, fhir_keys. intros [Hasc Hmax].
  destruct (fhir_serve_patients c db r)
    as [[-> ->] | [(row & -> & Hid & ->) | (pid & -> & ->)]].
  - repeat split; try assumption.
  - rewrite map_app. simpl. rewrite Hid. split; [split|].
    + apply ascending_app; [exact Hasc|].
      eapply Forall_impl; [|exact Hmax]. simpl. intros; lia.
    + apply Forall_app. split; [|repeat constructor; lia].
      eapply Forall_impl; [|exact Hmax]. simpl. intros; lia.
    + intros k Hk Habsent. split; [lia|]. intros Hin.
      apply in_app_or in Hin. destruct Hin as [Hin | [E | []]]; [tauto | lia].
  - assert (Hsub : forall k,
               In k (map Fhir.row_id
                       (filter (fun x => negb (Z.eqb (Fhir.row_id x) pid))
                          (Fhir.patients db))) ->
               In k (map Fhir.row_id (Fhir.patients db))).
    { intros k Hin. apply in_map_iff in Hin. destruct Hin as (x & E & Hx).
      apply filter_In in Hx. rewrite <- E. apply in_map. tauto. }
    split; [split|].
    + clear Hmax Hsub. induction (Fhir.patients db) as [|x l IH]; simpl in *;
        [exact I|]. destruct Hasc as [Hx Hl].
      destruct (negb (Z.eqb (Fhir.row_id x) pid)); simpl; [split|];
        try now apply IH.
      apply Forall_forall. intros y Hy. apply in_map_iff in Hy.
      destruct Hy as (z & E & Hz). apply filter_In in Hz.
      rewrite Forall_forall in Hx. apply Hx. rewrite <- E. apply in_map. tauto.
    + apply Forall_forall. intros k Hk. rewrite Forall_forall in Hmax.
      now apply Hmax, Hsub.
    + intros k Hk Habsent. split; [exact Hk|]. intros Hin.
      now apply Habsent, Hsub.
Qed.

Lemma fhir_serve_all_keys_ok (c : Fhir.codec)
    (requests : list fhir_request) (db : Fhir.database) :
  fhir_keys_ok db ->
  fhir_keys_ok (fhir_serve_all c requests db)
  /\ forall k, (k <= Fhir.patients_seq db)%Z -> ~ In k (fhir_keys db) ->
               ~ In k (fhir_keys (fhir_serve_all c requests db)).
Proof.
  revert db. induction requests as [|r requests IH]; intros db Hok; simpl.
  - split; [exact Hok | tauto].
  - destruct (fhir_serve_keys_ok c db r Hok) as [Hok' Hgone].
    destruct (IH _ Hok') as [Hfinal Hstay]. split; [exact Hfinal|].
    intros k Hk Habsent. destruct (Hgone k Hk Habsent) as [Hk' Habsent'].
    now apply Hstay.
Qed.

(** X2: the keys of the patients stay ascending in insertion order and
    never exceed the AUTOINCREMENT counter through any series of POST
    /fhir/Patient and DELETE /api/patient requests; and a key that has
    been handed out and is no longer in the table (its row was deleted) is
    never handed out again. *)
Theorem fhir_keys_never_reused (c : Fhir.codec)
    (requests : list fhir_request) (db : Fhir.database) :
  fhir_keys_ok db ->
  fhir_keys_ok (fhir_serve_all c requests db)
  /\ forall k, (k <= Fhir.patients_seq db)%Z -> ~ In k (fhir_keys db) ->
               ~ In k (fhir_keys (fhir_serve_all c requests db)).
Proof. exact (fhir_serve_all_keys_ok c requests db). Qed.

Lemma fhir_keys_never_reused_witness :
  let db := fhir_serve_all demo_codec
              [Ingest "t1" (json_post body_jane);
               Ingest "t2" (json_post body_jane); Delete 2] empty_db in
  let more := [Ingest "t3" (json_post "{}");
               Ingest "t4" (json_post body_jane)] in
  fhir_keys db = [1%Z]
  /\ fhir_keys (fhir_serve_all demo_codec more db) = [1%Z; 3%Z]
  /\ fhir_keys_ok (fhir_serve_all demo_codec more db)
  /\ ~ In 2%Z (fhir_keys (fhir_serve_all demo_codec more db)).
Proof.
  intros db more.
  assert (Hok : fhir_keys_ok db).
  { split; [split; [constructor | exact I]|].
    constructor; [vm_compute; discriminate | constructor]. }
  destruct (fhir_keys_never_reused demo_codec more db Hok) as [Hkeys Hgone].
  split; [reflexivity|]. split; [reflexivity|]. split; [exact Hkeys|].
  apply Hgone.
  - vm_compute. discriminate.
  - simpl. intros [H | []]. discriminate.
Defined.

Lemma listed_keys_fhir (rows : list Fhir.patient_row) :
  listed_keys (map Fhir.row_json rows) = map Fhir.row_id rows.
Proof. induction rows as [|r rows IH]; simpl; [|rewrite IH]; reflexivity. Qed.

Lemma descending_app_lt (a b : list Z) :
  descending (a ++ b) -> forall x y, In x a -> In y b -> (y < x)%Z.
Proof.
  induction a as [|z a IH]; simpl; intros Hd x y Hx Hy; [destruct Hx|].
  destruct Hd as [Hz Ha]. destruct Hx as [<- | Hx].
  - rewrite Forall_forall in Hz. apply Hz. apply in_or_app. now right.
  - now apply (IH Ha x y).
Qed.

(** X3: [fetch_last_patients] lists the keys of the table from the last
    inserted backwards, at most [limit] of them; while the keys are in
    AUTOINCREMENT order this is the ORDER BY id DESC of the query: the
    listed keys are strictly descending and every key of the table that is
    not listed is below every listed one. *)
Theorem fetch_last_patients_newest_first (limit : nat) (db : Fhir.database) :
  listed_keys (Fhir.fetch_last_patients limit db)
  = firstn limit (rev (fhir_keys db))
  /\ List.length (Fhir.fetch_last_patients limit db)
     = Nat.min limit (List.length (Fhir.patients db))
  /\ (fhir_keys_ok db ->
      descending (listed_keys (Fhir.fetch_last_patients limit db))
      /\ forall k k',
           In k' (listed_keys (Fhir.fetch_last_patients limit db)) ->
           In k (fhir_keys db) ->
           ~ In k (listed_keys (Fhir.fetch_last_patients limit db)) ->
           (k < k')%Z).
Proof.
  assert (Hkeys : listed_keys (Fhir.fetch_last_patients limit db)
                  = firstn limit (rev (fhir_keys db))).
  { unfold Fhir.fetch_last_patients, fhir_keys.
    now rewrite listed_keys_fhir, <- firstn_map, map_rev. }
  split; [exact Hkeys|]. split.
  - unfold Fhir.fetch_last_patients.
    now rewrite length_map, length_firstn, length_rev.
  - intros [Hasc _]. rewrite Hkeys. apply descending_rev in Hasc.
    split; [now apply descending_firstn|].
    intros k k' Hk' Hk Hout.
    rewrite <- (firstn_skipn limit (rev (fhir_keys db))) in Hasc.
    apply (descending_app_lt _ _ Hasc k' k Hk').
    apply in_rev in Hk.
    rewrite <- (firstn_skipn limit (rev (fhir_keys db))) in Hk.
    apply in_app_or in Hk. tauto.
Qed.

Lemma fetch_last_patients_newest_first_witness :
  let db := fhir_serve_all demo_codec
              [Ingest "t1" (json_post body_jane);
               Ingest "t2" (json_post body_jane);
               Ingest "t3" (json_post body_jane)] empty_db in
  listed_keys (Fhir.fetch_last_patients 2 db) = [3%Z; 2%Z]
  /\ descending (listed_keys (Fhir.fetch_last_patients 2 db)).
Proof.
  intros db.
  destruct (fetch_last_patients_newest_first 2 db) as (Hkeys & _ & Hord).
  split; [exact Hkeys|]. apply Hord.
  apply (fhir_serve_all_keys_ok demo_codec _ empty_db).
  split; [exact I | constructor].
Defined.

(** * FHIR/main.py: what POST /fhir/Patient stores *)

Lemma rstrip_idem (s : string) : Fhir.rstrip (Fhir.rstrip s) = Fhir.rstrip s.
Proof.
  induction s as [|c s IH]; simpl; [reflexivity|].
  destruct (Fhir.rstrip s) as [|c' r] eqn:E.
  - destruct (Fhir.is_space c) eqn:Hc; simpl; [reflexivity|]. now rewrite Hc.
  - simpl in *. now rewrite IH.
Qed.

Lemma lstrip_head (s : string) :
  Fhir.lstrip s = ""
  \/ exists c t, Fhir.lstrip s = String c t /\ Fhir.is_space c = false.
Proof.
  induction s as [|c s IH]; simpl; [now left|].
  destruct (Fhir.is_space c) eqn:Hc; [exact IH|].
  right. now exists c, s.
Qed.

Lemma rstrip_head (c : ascii) (t : string) :
  Fhir.is_space c = false -> exists t', Fhir.rstrip (String c t) = String c t'.
Proof.
  intros Hc. simpl. destruct (Fhir.rstrip t) as [|c' r].
  - rewrite Hc. now exists "".
  - now exists (String c' r).
Qed.

(** [strip] leaves a stripped string as it is. *)
Lemma strip_idem (s : string) : Fhir.strip (Fhir.strip s) = Fhir.strip s.
Proof.
  unfold Fhir.strip.
  destruct (lstrip_head s) as [-> | (c & t & -> & Hc)]; [reflexivity|].
  destruct (rstrip_head c t Hc) as (t' & E).
  rewrite E at 1. simpl Fhir.lstrip. rewrite Hc, <- E. apply rstrip_idem.
Qed.

Lemma py_strip_ok (v : json) (x : string) :
  Fhir.py_strip v = Ok x -> exists s, v = JStr s /\ x = Fhir.strip s.
Proof.
  destruct v; simpl; try discriminate. intros [= <-]. now eexists.
Qed.

Lemma nonempty_iff (s : string) : negb (String.eqb s "") = true <-> s <> "".
Proof.
  destruct (String.eqb_spec s ""); simpl; split; congruence.
Qed.

(** What the [try] block has established when it hands over four fields. *)
Lemma extract_fields (c : Fhir.codec) (raw fid fam giv bd : string) :
  Fhir.extract c raw = Ok (inr (fid, fam, giv, bd)) ->
  fam <> "" /\ giv <> "" /\ bd <> ""
  /\ stripped fam /\ stripped giv /\ stripped bd /\ stripped fid.
Proof.
  unfold Fhir.extract, Fhir.rbind. intros H.
  destruct (Fhir.decode_strict c raw) as [text | |]; try discriminate.
  destruct (Fhir.loads c text) as [obj | |]; try discriminate.
  destruct (Fhir.py_get obj "resourceType" JNull) as [rt | |];
    try discriminate.
  destruct (Fhir.differs_from_str rt "Patient"); try discriminate.
  destruct (Fhir.py_get obj "name" _) as [names | |]; try discriminate.
  destruct (Fhir.py_first names) as [name | |]; try discriminate.
  destruct (Fhir.py_get name "family" JNull) as [vf | |]; try discriminate.
  destruct (Fhir.py_strip (Fhir.py_or vf _)) as [family | |] eqn:Hf;
    try discriminate.
  destruct (Fhir.py_get name "given" JNull) as [vg | |]; try discriminate.
  destruct (if Fhir.truthy _ then _ else _) as [g | |]; try discriminate.
  destruct (Fhir.py_strip g) as [given | |] eqn:Hg; try discriminate.
  destruct (Fhir.py_get obj "birthDate" JNull) as [vb | |]; try discriminate.
  destruct (Fhir.py_strip (Fhir.py_or vb _)) as [birth | |] eqn:Hb;
    try discriminate.
  destruct (Fhir.py_get obj "id" JNull) as [vi | |]; try discriminate.
  destruct (Fhir.py_strip (Fhir.py_or vi _)) as [ident | |] eqn:Hi;
    try discriminate.
  destruct (negb _) eqn:Hall; try discriminate.
  injection H as <- <- <- <-.
  apply negb_false_iff in Hall.
  apply andb_prop in Hall. destruct Hall as [Hall H3].
  apply andb_prop in Hall. destruct Hall as [H1 H2].
  apply nonempty_iff in H1, H2, H3.
  apply py_strip_ok in Hf, Hg, Hb, Hi.
  destruct Hf as (? & _ & ->), Hg as (? & _ & ->), Hb as (? & _ & ->),
    Hi as (? & _ & ->).
  repeat split; try assumption; apply strip_idem.
Qed.

Lemma fhir_serve_complete (c : Fhir.codec) (db : Fhir.database)
    (r : fhir_request) :
  Forall complete_row (Fhir.patients db) ->
  Forall complete_row (Fhir.patients (fhir_serve c db r)).
Proof.
  intros Hall. destruct r as [now req | pid]; simpl.
  - unfold Fhir.fhir_ingest.
    destruct (negb (Fhir.accepted_content_type req)); [exact Hall|].
    destruct (Fhir.extract c (Fhir.body req))
      as [[early | [[[fid fam] giv] bd]] | e |] eqn:E; simpl;
      try exact Hall.
    destruct (Fhir.bind_texts c [fid; fam; giv; bd]); simpl;
      try exact Hall.
    apply Forall_app. split; [exact Hall|]. constructor; [|constructor].
    apply extract_fields in E. unfold complete_row. simpl. tauto.
  - unfold Fhir.api_delete_patient, bind_int.
    destruct (in_int64 pid); [|exact Hall]. simpl.
    assert (Hf : Forall complete_row
                   (filter (fun x => negb (Z.eqb (Fhir.row_id x) pid))
                      (Fhir.patients db))).
    { apply Forall_forall. intros x Hx. apply filter_In in Hx.
      rewrite Forall_forall in Hall. now apply Hall. }
    now destruct (Nat.eqb _ 0).
Qed.

Lemma fhir_serve_all_complete (c : Fhir.codec)
    (requests : list fhir_request) :
  forall db : Fhir.database,
    Forall complete_row (Fhir.patients db) ->
    Forall complete_row (Fhir.patients (fhir_serve_all c requests db)).
Proof.
  induction requests as [|r requests IH]; intros db Hall; simpl;
    [exact Hall|].
  apply IH. now apply fhir_serve_complete.
Qed.

(** X4: whatever bodies are posted and whatever the JSON decoder makes of
    them, every row of [patients] has a family name, a given name and a
    birth date that are not empty, and no field of it has whitespace
    around it: the table starts empty and every series of POST
    /fhir/Patient and DELETE /api/patient requests keeps this. *)
Theorem fhir_patients_complete (c : Fhir.codec)
    (requests : list fhir_request) :
  Forall complete_row
    (Fhir.patients (fhir_serve_all c requests empty_db)).
Proof. apply fhir_serve_all_complete. constructor. Qed.

Lemma py_or_strip (s : string) :
  Fhir.py_strip (Fhir.py_or (JStr s) (JStr "")) = Ok (Fhir.strip s).
Proof. unfold Fhir.py_or. simpl. now destruct s. Qed.

Lemma py_or_strip_id (i : option string) :
  Fhir.py_strip
    (Fhir.py_or (match option_map JStr i with Some v => v | None => JNull end)
       (JStr ""))
  = Ok (Fhir.strip (or_empty i)).
Proof. destruct i as [s|]; [apply py_or_strip | reflexivity]. Qed.

Lemma empty_or_not (s : string) : s = "" \/ s <> "".
Proof. destruct s; [now left | now right]. Qed.

(** [fhir_ingest] on a Patient resource whose [given] entry [gv] yields the
    string [g]. *)
Lemma fhir_ingest_patient (c : Fhir.codec) (now : string)
    (req : Fhir.request) (db : Fhir.database) (text : string)
    (fields name : list (string * json)) (f g b : string)
    (i : option string) (gv : json) :
  Fhir.accepted_content_type req = true ->
  Fhir.decode_strict c (Fhir.body req) = Ok text ->
  Fhir.loads c text = Ok (JObj fields) ->
  patient_fields fields name b i ->
  Fhir.lookup "family" name = Some (JStr f) ->
  Fhir.lookup "given" name = Some gv ->
  Fhir.truthy gv = true ->
  Fhir.py_first gv = Ok (JStr g) ->
  ingested c db now (or_empty i) f g b (Fhir.fhir_ingest c now req db).
Proof.
  intros Hct Hdec Hloads (Hrt & (more & Hname) & Hb & Hi) Hf Hg Htruthy Hfirst.
  assert (Hx : Fhir.extract c (Fhir.body req)
               = if negb (negb (String.eqb (Fhir.strip f) "")
                          && negb (String.eqb (Fhir.strip g) "")
                          && negb (String.eqb (Fhir.strip b) ""))
                 then Ok (inl Fhir.MissingFields)
                 else Ok (inr (Fhir.strip (or_empty i), Fhir.strip f,
                               Fhir.strip g, Fhir.strip b))).
  { unfold Fhir.extract, Fhir.rbind. rewrite Hdec, Hloads. simpl.
    assert (Hor : Fhir.py_or gv (JArr []) = gv)
      by (unfold Fhir.py_or; now rewrite Htruthy).
    rewrite Hrt, Hname. simpl. rewrite Hf, Hg, py_or_strip.
    rewrite Hor, Htruthy, Hfirst. simpl.
    rewrite Hb, py_or_strip, Hi, py_or_strip_id. reflexivity. }
  unfold ingested, Fhir.fhir_ingest. rewrite Hct, Hx. simpl. split.
  - intros Hf' Hg' Hb'.
    apply nonempty_iff in Hf', Hg', Hb'. rewrite Hf', Hg', Hb'. simpl.
    split.
    + intros ->. repeat split. unfold Fhir.fetch_last_patients. simpl.
      now rewrite rev_app_distr.
    + intros e ->. repeat split.
  - intros Hempty.
    assert (Hno : negb (String.eqb (Fhir.strip f) "")
                  && negb (String.eqb (Fhir.strip g) "")
                  && negb (String.eqb (Fhir.strip b) "") = false).
    { destruct Hempty as [-> | [-> | ->]]; simpl;
        rewrite ?andb_false_r; reflexivity. }
    rewrite Hno. simpl. repeat split.
Qed.

(** X5: a POST /fhir/Patient with an accepted content type whose body
    decodes to a Patient resource with a name entry holding a string
    [family] and a list [given] that starts with a string, a string
    [birthDate] and a string [id] (or none).  When the three stripped
    values are not empty and SQLite takes the four stripped values, the
    answer is 201: one row is appended under the next key with the
    stripped values (the id stripped, empty when absent), and the
    broadcast started carries that row first, followed by the nine newest
    rows of before.  When SQLite refuses one of them (a text that does not
    encode), the exception of the INSERT leaves the handler, no patient is
    stored and no broadcast started.  When one of the three is empty after
    stripping the answer is 400 missing required fields and no patient is
    stored. *)
Theorem fhir_ingest_creates_patient (c : Fhir.codec) (now : string)
    (req : Fhir.request) (db : Fhir.database) (text : string)
    (fields name : list (string * json)) (f g b : string)
    (i : option string) (gs : list json) :
  Fhir.accepted_content_type req = true ->
  Fhir.decode_strict c (Fhir.body req) = Ok text ->
  Fhir.loads c text = Ok (JObj fields) ->
  patient_fields fields name b i ->
  Fhir.lookup "family" name = Some (JStr f) ->
  Fhir.lookup "given" name = Some (JArr (JStr g :: gs)) ->
  ingested c db now (or_empty i) f g b (Fhir.fhir_ingest c now req db).
Proof.
  intros Hct Hdec Hloads Hp Hf Hg.
  now apply (fhir_ingest_patient c now req db text fields name f g b i
               (JArr (JStr g :: gs))).
Qed.

Lemma fhir_ingest_creates_patient_witness :
  let o := Fhir.fhir_ingest demo_codec "t1" (json_post body_jane) empty_db in
  Fhir.reply o = Ok (Fhir.Created "p1")
  /\ map Fhir.row_family (Fhir.patients (Fhir.stored o)) = ["Doe"]
  /\ Fhir.reply (Fhir.fhir_ingest demo_codec "t1"
                   (json_post body_patient_only) empty_db)
     = Ok Fhir.MissingFields.
Proof.
  intros o.
  assert (Hjane : ingested demo_codec empty_db "t1" "p1" " Doe " "Jane"
                    "1990-01-01" o).
  { apply (fhir_ingest_creates_patient demo_codec "t1" (json_post body_jane)
             empty_db body_jane
             [("resourceType", JStr "Patient"); ("id", JStr "p1");
              ("name", JArr [JObj [("family", JStr " Doe ");
                                   ("given", JArr [JStr "Jane"])]]);
              ("birthDate", JStr "1990-01-01")]
             [("family", JStr " Doe "); ("given", JArr [JStr "Jane"])]
             " Doe " "Jane" "1990-01-01" (Some "p1") []);
      try reflexivity.
    repeat split. now exists []. }
  destruct Hjane as [Hcreated _].
  destruct Hcreated as [Hstored _]; try discriminate.
  destruct (Hstored eq_refl) as (Hreply & Hrows & _).
  split; [exact Hreply|]. split; [now rewrite Hrows|]. reflexivity.
Defined.

(** X6: when the [given] entry of the name is a JSON string rather than a
    list, [given_arr[0]] is its first character, and that character alone
    is taken as the given name: found missing when it is whitespace,
    stored when SQLite takes the values, and otherwise the cause of the
    exception of the INSERT, as for a given name from a list. *)
Theorem fhir_ingest_given_string (c : Fhir.codec) (now : string)
    (req : Fhir.request) (db : Fhir.database) (text : string)
    (fields name : list (string * json)) (f b : string)
    (i : option string) (ch : ascii) (rest : string) :
  Fhir.accepted_content_type req = true ->
  Fhir.decode_strict c (Fhir.body req) = Ok text ->
  Fhir.loads c text = Ok (JObj fields) ->
  patient_fields fields name b i ->
  Fhir.lookup "family" name = Some (JStr f) ->
  Fhir.lookup "given" name = Some (JStr (String ch rest)) ->
  ingested c db now (or_empty i) f (String ch "") b
    (Fhir.fhir_ingest c now req db).
Proof.
  intros Hct Hdec Hloads Hp Hf Hg.
  now apply (fhir_ingest_patient c now req db text fields name f
               (String ch "") b i (JStr (String ch rest))).
Qed.

Lemma fhir_ingest_given_string_witness :
  let name := [("family", JStr "Doe"); ("given", JStr "Jane")] in
  let fields := [("resourceType", JStr "Patient"); ("name", JArr [JObj name]);
                 ("birthDate", JStr "1990-01-01")] in
  let c := fun refused =>
    {| Fhir.decode_ignore := fun s => s;
       Fhir.decode_strict := fun s => Ok s;
       Fhir.loads := fun _ => Ok (JObj fields);
       Fhir.bind_text := fun s =>
         if String.eqb s refused then Raise ValueError else Ok tt |} in
  let o := Fhir.fhir_ingest (c "") "t1" (json_post "body") empty_db in
  (Fhir.reply o = Raise ValueError /\ Fhir.patients (Fhir.stored o) = [])
  /\ Fhir.reply (Fhir.fhir_ingest (c "?") "t1" (json_post "body") empty_db)
     = Ok (Fhir.Created "")
  /\ map Fhir.row_given
       (Fhir.patients
          (Fhir.stored
             (Fhir.fhir_ingest (c "?") "t1" (json_post "body") empty_db)))
     = ["J"].
Proof.
  intros name fields c o.
  assert (H : forall refused,
             ingested (c refused) empty_db "t1" "" "Doe" "J" "1990-01-01"
               (Fhir.fhir_ingest (c refused) "t1" (json_post "body")
                  empty_db)).
  { intros refused.
    apply (fhir_ingest_given_string (c refused) "t1" (json_post "body")
             empty_db "body" fields name "Doe" "1990-01-01" None "J" "ane");
      try reflexivity.
    repeat split. now exists []. }
  destruct (H "") as [Hrefused _]. destruct (H "?") as [Htaken _].
  destruct Hrefused as [_ Hraised]; try discriminate.
  destruct Htaken as [Hstored _]; try discriminate.
  destruct (Hraised ValueError eq_refl) as (Hreply0 & Hrows0 & _).
  destruct (Hstored eq_refl) as (Hreply & Hrows & _).
  split; [split; [exact Hreply0 | exact Hrows0]|].
  split; [exact Hreply | now rewrite Hrows].
Defined.

(** * FHIR/main.py: the Content-Type test *)

Lemma before_app (sep : ascii) (h p : string) :
  Fhir.before sep (h ++ String sep p) = Fhir.before sep h.
Proof.
  induction h as [|c h IH]; simpl.
  - now rewrite Ascii.eqb_refl.
  - destruct (Ascii.eqb c sep); [reflexivity | now rewrite IH].
Qed.

Lemma lower_char_facts (c : ascii) :
  Fhir.is_space (Fhir.lower_char c) = Fhir.is_space c
  /\ Ascii.eqb (Fhir.lower_char c) ";" = Ascii.eqb c ";"
  /\ Fhir.lower_char (Fhir.lower_char c) = Fhir.lower_char c.
Proof.
  destruct c as [[] [] [] [] [] [] [] []]; vm_compute; repeat split.
Qed.

Lemma lower_idem (s : string) : Fhir.lower (Fhir.lower s) = Fhir.lower s.
Proof.
  induction s as [|c s IH]; simpl; [reflexivity|].
  destruct (lower_char_facts c) as (_ & _ & ->). now rewrite IH.
Qed.

Lemma lower_before (s : string) :
  Fhir.before ";" (Fhir.lower s) = Fhir.lower (Fhir.before ";" s).
Proof.
  induction s as [|c s IH]; simpl; [reflexivity|].
  destruct (lower_char_facts c) as (_ & -> & _).
  destruct (Ascii.eqb c ";"); simpl; [reflexivity | now rewrite IH].
Qed.

Lemma lower_lstrip (s : string) :
  Fhir.lstrip (Fhir.lower s) = Fhir.lower (Fhir.lstrip s).
Proof.
  induction s as [|c s IH]; simpl; [reflexivity|].
  destruct (lower_char_facts c) as (-> & _ & _).
  destruct (Fhir.is_space c); [exact IH | reflexivity].
Qed.

Lemma lower_rstrip (s : string) :
  Fhir.rstrip (Fhir.lower s) = Fhir.lower (Fhir.rstrip s).
Proof.
  induction s as [|c s IH]; simpl; [reflexivity|].
  rewrite IH. destruct (lower_char_facts c) as (-> & _ & _).
  destruct (Fhir.rstrip s); simpl; [|reflexivity].
  now destruct (Fhir.is_space c).
Qed.

(** X7: the Content-Type test of POST /fhir/Patient looks at the media
    type alone: whatever follows the first [;] is ignored, upper and lower
    case make no difference, and a request without the header is
    refused with 415, nothing being stored. *)
Theorem content_type_test (h p : string) (body : string) (c : Fhir.codec)
    (now : string) (db : Fhir.database) :
  let with_type := fun v =>
    {| Fhir.content_type := v; Fhir.body := body |} in
  Fhir.accepted_content_type (with_type (Some (h ++ String ";" p)%string))
  = Fhir.accepted_content_type (with_type (Some h))
  /\ Fhir.accepted_content_type (with_type (Some (Fhir.lower h)))
     = Fhir.accepted_content_type (with_type (Some h))
  /\ Fhir.fhir_ingest c now (with_type None) db
     = {| Fhir.reply := Ok Fhir.Unsupported; Fhir.stored := db;
          Fhir.spawned := None |}.
Proof.
  intros with_type. unfold Fhir.accepted_content_type. simpl.
  split; [now rewrite before_app|]. split; [|reflexivity].
  unfold Fhir.strip.
  now rewrite lower_before, lower_lstrip, lower_rstrip, lower_idem.
Qed.

Lemma fhir_ingest_messages (c : Fhir.codec) (now : string)
    (req : Fhir.request) (db : Fhir.database) :
  Fhir.accepted_content_type req = true ->
  Fhir.fhir_messages (Fhir.stored (Fhir.fhir_ingest c now req db))
  = Fhir.fhir_messages db
    ++ [((Fhir.fhir_messages_seq db + 1)%Z, now,
         Fhir.decode_ignore c (Fhir.body req))].
Proof.
  intros Hct. unfold Fhir.fhir_ingest. rewrite Hct. simpl.
  destruct (Fhir.extract c (Fhir.body req))
    as [[early | [[[fid fam] giv] bd]] | e |]; try reflexivity.
  destruct (Fhir.bind_texts c [fid; fam; giv; bd]); reflexivity.
Qed.

Lemma sql_limit_in_range {A} (n : Z) (rows : list A) :
  in_int64 n = true ->
  Fhir.sql_limit n rows
  = Ok (if (n <? 0)%Z then rows else firstn (Z.to_nat n) rows).
Proof.
  intros Hn. unfold Fhir.sql_limit. now rewrite (bind_int_ok n Hn).
Qed.

Lemma sql_limit_overflow {A} (n : Z) (rows : list A) :
  in_int64 n = false -> Fhir.sql_limit n rows = Raise OverflowError.
Proof.
  intros Hn. unfold Fhir.sql_limit. now rewrite (bind_int_overflow n Hn).
Qed.

Lemma sql_limit_head {A} (n : Z) (x : A) (rows : list A) :
  n <> 0%Z ->
  exists rest,
    (if (n <? 0)%Z then x :: rows else firstn (Z.to_nat n) (x :: rows))
    = x :: rest.
Proof.
  intros Hn. destruct (Z.ltb_spec n 0); [now exists rows|].
  destruct (Z.to_nat n) eqn:E; [lia|]. simpl. now eexists.
Qed.

(** X8: GET /api/fhir/last with a bound [n] outside the 64-bit range ends
    in the [OverflowError] of the [execute].  With a bound of the range
    the answer has [min n rows] entries for [n >= 0] and all rows for a
    negative [n]; and it reads back what POST /fhir/Patient stored: after
    a request with an accepted content type the first entry of the answer,
    for every [n] other than 0, is the raw body of that request with its
    timestamp, whatever the reply to the request was. *)
Theorem api_fhir_last_reads_back (c : Fhir.codec) (now : string)
    (req : Fhir.request) (db : Fhir.database) (n : Z) :
  (in_int64 n = false -> Fhir.api_fhir_last n db = Raise OverflowError)
  /\ (in_int64 n = true ->
      (exists rows,
          Fhir.api_fhir_last n db = Ok rows
          /\ List.length rows
             = if (n <? 0)%Z then List.length (Fhir.fhir_messages db)
               else Nat.min (Z.to_nat n)
                      (List.length (Fhir.fhir_messages db)))
      /\ (Fhir.accepted_content_type req = true -> n <> 0%Z ->
          exists rest,
            Fhir.api_fhir_last n
              (Fhir.stored (Fhir.fhir_ingest c now req db))
            = Ok (JObj [("created_at", JStr now);
                        ("raw",
                         JStr (Fhir.decode_ignore c (Fhir.body req)))]
                  :: rest))).
Proof.
  split; [|intros Hin; split].
  - intros Hn. unfold Fhir.api_fhir_last.
    now rewrite (sql_limit_overflow n _ Hn).
  - unfold Fhir.api_fhir_last. rewrite (sql_limit_in_range n _ Hin).
    eexists. split; [reflexivity|]. rewrite length_map.
    destruct (n <? 0)%Z; [apply length_rev|].
    now rewrite length_firstn, length_rev.
  - intros Hct Hn. unfold Fhir.api_fhir_last.
    rewrite (sql_limit_in_range n _ Hin).
    rewrite (fhir_ingest_messages c now req db Hct), rev_app_distr.
    cbn [rev app].
    destruct (sql_limit_head n
                ((Fhir.fhir_messages_seq db + 1)%Z, now,
                 Fhir.decode_ignore c (Fhir.body req))
                (rev (Fhir.fhir_messages db)) Hn) as (rest & ->).
    now eexists.
Qed.

Lemma api_fhir_last_reads_back_witness :
  Fhir.api_fhir_last (- 2 ^ 63 - 1) empty_db = Raise OverflowError
  /\ exists rest,
       Fhir.api_fhir_last 5
         (Fhir.stored
            (Fhir.fhir_ingest demo_codec "t1" (json_post "{") empty_db))
       = Ok (JObj [("created_at", JStr "t1"); ("raw", JStr "{")] :: rest).
Proof.
  destruct (api_fhir_last_reads_back demo_codec "t1" (json_post "{")
              empty_db (- 2 ^ 63 - 1)) as [Hout _].
  destruct (api_fhir_last_reads_back demo_codec "t1" (json_post "{")
              empty_db 5) as [_ Hin].
  split; [now apply Hout|].
  destruct (Hin eq_refl) as [_ Hback].
  apply Hback; [reflexivity | discriminate].
Defined.

(** * chief_server.py: register_patient *)

Lemma listed_keys_chief (rows : list ChiefApi.patient_row) :
  listed_keys (map ChiefApi.row_json rows) = map ChiefApi.row_id rows.
Proof. induction rows as [|r rows IH]; simpl; [|rewrite IH]; reflexivity. Qed.

Lemma replace_row_keys (r : ChiefApi.patient_row)
    (rows : list ChiefApi.patient_row) :
  forall k, In k (map ChiefApi.row_id (ChiefApi.replace_row r rows)) ->
            k = ChiefApi.row_id r \/ In k (map ChiefApi.row_id rows).
Proof.
  induction rows as [|x rows IH]; simpl; intros k Hk.
  - destruct Hk as [<- | []]. now left.
  - destruct (Z.ltb_spec (ChiefApi.row_id r) (ChiefApi.row_id x)).
    + simpl in Hk. destruct Hk as [<- | Hk]; [now left | now right].
    + destruct (Z.eqb_spec (ChiefApi.row_id r) (ChiefApi.row_id x)).
      * simpl in Hk. destruct Hk as [<- | Hk]; [now left | right; now right].
      * simpl in Hk. destruct Hk as [<- | Hk]; [right; now left|].
        apply IH in Hk. tauto.
Qed.

Lemma replace_row_ascending (r : ChiefApi.patient_row)
    (rows : list ChiefApi.patient_row) :
  ascending (map ChiefApi.row_id rows) ->
  ascending (map ChiefApi.row_id (ChiefApi.replace_row r rows)).
Proof.
  induction rows as [|x rows IH]; simpl; intros Hasc.
  - split; [constructor | exact I].
  - destruct Hasc as [Hx Hrows].
    destruct (Z.ltb_spec (ChiefApi.row_id r) (ChiefApi.row_id x)).
    + simpl. split; [|now split]. constructor; [exact H|].
      eapply Forall_impl; [|exact Hx]. simpl. intros; lia.
    + destruct (Z.eqb_spec (ChiefApi.row_id r) (ChiefApi.row_id x))
        as [E | Hne].
      * simpl. rewrite E. now split.
      * simpl. split; [|now apply IH].
        apply Forall_forall. intros k Hk. apply replace_row_keys in Hk.
        destruct Hk as [-> | Hk]; [lia|].
        rewrite Forall_forall in Hx. now apply Hx.
Qed.

Lemma replace_row_find (r : ChiefApi.patient_row)
    (rows : list ChiefApi.patient_row) (k : Z) :
  find (fun x => Z.eqb (ChiefApi.row_id x) k) (ChiefApi.replace_row r rows)
  = if Z.eqb k (ChiefApi.row_id r) then Some r
    else find (fun x => Z.eqb (ChiefApi.row_id x) k) rows.
Proof.
  induction rows as [|x rows IH]; simpl.
  - rewrite (Z.eqb_sym (ChiefApi.row_id r) k).
    now destruct (Z.eqb k (ChiefApi.row_id r)).
  - destruct (Z.ltb_spec (ChiefApi.row_id r) (ChiefApi.row_id x)).
    + simpl. rewrite (Z.eqb_sym (ChiefApi.row_id r) k).
      now destruct (Z.eqb k (ChiefApi.row_id r)).
    + destruct (Z.eqb_spec (ChiefApi.row_id r) (ChiefApi.row_id x))
        as [E | Hne].
      * simpl. rewrite (Z.eqb_sym (ChiefApi.row_id r) k).
        destruct (Z.eqb_spec k (ChiefApi.row_id r)) as [Ek | Hk];
          [reflexivity|].
        destruct (Z.eqb_spec (ChiefApi.row_id x) k); [congruence|reflexivity].
      * simpl. rewrite IH.
        destruct (Z.eqb_spec (ChiefApi.row_id x) k) as [<- | Hk];
          [|reflexivity].
        destruct (Z.eqb_spec (ChiefApi.row_id x) (ChiefApi.row_id r));
          [congruence | reflexivity].
Qed.

Lemma register_patient_overflow (now1 now2 : string)
    (p : ChiefApi.PatientData) (db : ChiefApi.database) :
  in_int64 (ChiefApi.patient_id p) = false ->
  ChiefApi.register_patient now1 now2 p db
  = {| ChiefApi.reply := Raise OverflowError; ChiefApi.stored := db;
       ChiefApi.spawned := None |}.
Proof.
  intros Hout. unfold ChiefApi.register_patient.
  now rewrite (bind_int_overflow _ Hout).
Qed.


Lemma register_patient_patients (now1 now2 : string)
    (p : ChiefApi.PatientData) (db : ChiefApi.database) :
  in_int64 (ChiefApi.patient_id p) = true ->
  exists r,
    ChiefApi.row_id r = ChiefApi.patient_id p
    /\ ChiefApi.patients
         (ChiefApi.stored (ChiefApi.register_patient now1 now2 p db))
       = ChiefApi.replace_row r (ChiefApi.patients db).
Proof.
  intros Hin. unfold ChiefApi.register_patient. rewrite (bind_int_ok _ Hin).
  eexists. split; [|simpl; destruct (ChiefApi.has_hl7 p); reflexivity].
  reflexivity.
Qed.

Lemma replace_row_length (r : ChiefApi.patient_row)
    (rows : list ChiefApi.patient_row) :
  ascending (map ChiefApi.row_id rows) ->
  List.length (ChiefApi.replace_row r rows)
  = if existsb (Z.eqb (ChiefApi.row_id r)) (map ChiefApi.row_id rows)
    then List.length rows else S (List.length rows).
Proof.
  induction rows as [|x rows IH]; simpl; intros Hasc; [reflexivity|].
  destruct Hasc as [Hx Hrows].
  destruct (Z.ltb_spec (ChiefApi.row_id r) (ChiefApi.row_id x)).
  - destruct (Z.eqb_spec (ChiefApi.row_id r) (ChiefApi.row_id x)); [lia|].
    simpl.
    assert (Hno : existsb (Z.eqb (ChiefApi.row_id r))
                    (map ChiefApi.row_id rows) = false).
    { destruct (existsb _ _) eqn:E; [|reflexivity].
      apply existsb_exists in E. destruct E as (k & Hk & Ek).
      apply Z.eqb_eq in Ek. rewrite Forall_forall in Hx.
      apply Hx in Hk. lia. }
    now rewrite Hno.
  - destruct (Z.eqb_spec (ChiefApi.row_id r) (ChiefApi.row_id x)).
    + reflexivity.
    + simpl. rewrite (IH Hrows). now destruct (existsb _ _).
Qed.

Lemma chief_register_all_cons (now1 now2 : string)
    (p : ChiefApi.PatientData)
    (calls : list (string * string * ChiefApi.PatientData))
    (db : ChiefApi.database) :
  chief_register_all ((now1, now2, p) :: calls) db
  = chief_register_all calls
      (ChiefApi.stored (ChiefApi.register_patient now1 now2 p db)).
Proof. reflexivity. Qed.

Lemma register_patient_ascending (now1 now2 : string)
    (p : ChiefApi.PatientData) (db : ChiefApi.database) :
  ascending (chief_keys db) ->
  ascending
    (chief_keys (ChiefApi.stored (ChiefApi.register_patient now1 now2 p db))).
Proof.
  intros Hasc. destruct (in_int64 (ChiefApi.patient_id p)) eqn:Hin.
  - unfold chief_keys.
    destruct (register_patient_patients now1 now2 p db Hin) as (r & _ & ->).
    now apply replace_row_ascending.
  - now rewrite (register_patient_overflow now1 now2 p db Hin).
Qed.

Lemma chief_register_all_ascending
    (calls : list (string * string * ChiefApi.PatientData)) :
  forall db : ChiefApi.database,
    ascending (chief_keys db) ->
    ascending (chief_keys (chief_register_all calls db)).
Proof.
  induction calls as [|[[now1 now2] p] calls IH]; intros db Hasc;
    [exact Hasc|].
  rewrite chief_register_all_cons. apply IH.
  now apply register_patient_ascending.
Qed.


Lemma top_membership (d : list Z) (k : Z) :
  descending d -> In k d ->
  forall n : nat,
    In k (firstn n d) <-> List.length (filter (Z.ltb k) d) < n.
Proof.
  induction d as [|x d IH]; simpl; intros Hd Hk n; [destruct Hk|].
  destruct Hd as [Hx Hd].
  destruct (Z.eq_dec x k) as [-> | Hne].
  - rewrite Z.ltb_irrefl.
    assert (Hnone : filter (Z.ltb k) d = []).
    { apply filter_none. intros y Hy. rewrite Forall_forall in Hx.
      apply Hx in Hy. apply Z.ltb_ge. lia. }
    rewrite Hnone. destruct n as [|n]; simpl; [split; [tauto | lia]|].
    split; [lia | now left].
  - destruct Hk as [Hk | Hk]; [contradiction|].
    assert (Hlt : (k <? x)%Z = true).
    { rewrite Forall_forall in Hx. apply Hx in Hk. now apply Z.ltb_lt. }
    rewrite Hlt. simpl. destruct n as [|n]; simpl; [split; [tauto | lia]|].
    rewrite <- Nat.succ_lt_mono, <- (IH Hd Hk n). split; [|tauto].
    intros [E | H]; [contradiction | exact H].
Qed.

Lemma filter_length_rev {A} (p : A -> bool) (l : list A) :
  List.length (filter p (rev l)) = List.length (filter p l).
Proof.
  induction l as [|x l IH]; simpl; [reflexivity|].
  rewrite filter_app, length_app, IH. simpl.
  destruct (p x); simpl; lia.
Qed.

Lemma replace_row_In (r : ChiefApi.patient_row)
    (rows : list ChiefApi.patient_row) :
  In (ChiefApi.row_id r) (map ChiefApi.row_id (ChiefApi.replace_row r rows)).
Proof.
  induction rows as [|x rows IH]; simpl; [now left|].
  destruct (Z.ltb (ChiefApi.row_id r) (ChiefApi.row_id x)); [now left|].
  destruct (Z.eqb (ChiefApi.row_id r) (ChiefApi.row_id x)); [now left|].
  right. exact IH.
Qed.



(** * HL7/main.py: the ADT^A04 message *)

Lemma string_app_assoc (a b c : string) :
  ((a ++ b) ++ c = a ++ (b ++ c))%string.
Proof. induction a as [|x a IH]; simpl; [reflexivity | now rewrite IH]. Qed.

Lemma count_char_app (c : ascii) (a b : string) :
  count_char c (a ++ b) = count_char c a + count_char c b.
Proof. induction a as [|x a IH]; simpl; [reflexivity | rewrite IH; lia]. Qed.

Lemma split_length (sep : ascii) (s : string) :
  List.length (split sep s) = S (count_char sep s).
Proof.
  induction s as [|c s IH]; simpl; [reflexivity|].
  destruct (Ascii.eqb c sep); simpl; [now rewrite IH|].
  destruct (split sep s); simpl in *; lia.
Qed.

Lemma split_whole (sep : ascii) (a : string) :
  count_char sep a = 0 -> split sep a = [a].
Proof.
  induction a as [|c a IH]; simpl; [reflexivity|].
  destruct (Ascii.eqb c sep); [discriminate|]. simpl. intros H.
  now rewrite IH.
Qed.

Lemma split_app (sep : ascii) (a b : string) :
  count_char sep a = 0 ->
  split sep (a ++ String sep b) = a :: split sep b.
Proof.
  induction a as [|c a IH]; simpl.
  - now rewrite Ascii.eqb_refl.
  - destruct (Ascii.eqb c sep); [discriminate|]. simpl. intros H.
    now rewrite IH.
Qed.

Lemma count_char_uint (c : ascii) (d : Decimal.uint) :
  (nat_of_ascii c < 48 \/ 57 < nat_of_ascii c) ->
  count_char c (DecimalString.NilEmpty.string_of_uint d) = 0.
Proof.
  intros Hc.
  assert (Hd : forall a, 48 <= nat_of_ascii a <= 57 -> Ascii.eqb a c = false).
  { intros a Ha. apply Ascii.eqb_neq. intros ->. lia. }
  induction d as [|d IH|d IH|d IH|d IH|d IH|d IH|d IH|d IH|d IH|d IH];
    cbn [count_char DecimalString.NilEmpty.string_of_uint];
    [reflexivity|..]; rewrite Hd, IH by (vm_compute; lia); reflexivity.
Qed.

(** [str(n)] has digits and a sign only. *)
Lemma count_char_str_int (c : ascii) (n : Z) :
  (nat_of_ascii c < 45 \/ 57 < nat_of_ascii c) ->
  count_char c (Reception.str_int n) = 0.
Proof.
  intros Hc.
  assert (Hu : forall d,
             count_char c (DecimalString.NilZero.string_of_uint d) = 0).
  { intros d. unfold DecimalString.NilZero.string_of_uint.
    destruct d; try (apply count_char_uint; lia).
    cbn [count_char].
    destruct (Ascii.eqb_spec "0" c) as [<- | _]; [vm_compute in Hc; lia|].
    reflexivity. }
  unfold Reception.str_int, DecimalString.NilZero.string_of_int.
  destruct (Z.to_int n); [apply Hu|]. cbn [count_char]. rewrite Hu.
  destruct (Ascii.eqb_spec "-" c) as [<- | _]; [vm_compute in Hc; lia|].
  reflexivity.
Qed.

Lemma count_char_remove (c x : ascii) (s : string) :
  x <> c ->
  count_char c (Reception.remove_char x s) = count_char c s.
Proof.
  intros Hne. induction s as [|a s IH]; simpl; [reflexivity|].
  destruct (Ascii.eqb_spec a x) as [-> | _]; simpl.
  - destruct (Ascii.eqb_spec x c); [contradiction | exact IH].
  - now rewrite IH.
Qed.

(** X12: [dob.replace('-', '')] leaves no hyphen, and makes the eight
    digits of an HL7 date of an ISO date: of [y-m-d], with no hyphen in
    [y], [m] and [d], it makes [ymd]. *)
Theorem dob_without_hyphens (y m d dob : string) :
  count_char "-" (Reception.remove_char "-" dob) = 0
  /\ (count_char "-" y = 0 -> count_char "-" m = 0 -> count_char "-" d = 0 ->
      Reception.remove_char "-" (y ++ "-" ++ m ++ "-" ++ d)
      = (y ++ m ++ d)%string).
Proof.
  split.
  - induction dob as [|a s IH]; simpl; [reflexivity|].
    destruct (Ascii.eqb_spec a "-") as [-> | Hne]; [exact IH|].
    simpl. destruct (Ascii.eqb_spec a "-"); [contradiction | exact IH].
  - assert (Hkeep : forall s, count_char "-" s = 0 ->
                              Reception.remove_char "-" s = s).
    { induction s as [|a s IH]; simpl; [reflexivity|].
      destruct (Ascii.eqb a "-"); [discriminate|]. simpl. intros H.
      now rewrite IH. }
    assert (Happ : forall a b,
               Reception.remove_char "-" (a ++ b)
               = (Reception.remove_char "-" a
                  ++ Reception.remove_char "-" b)%string).
    { induction a as [|x a IH]; simpl; intros b; [reflexivity|].
      destruct (Ascii.eqb x "-"); simpl; now rewrite IH. }
    intros Hy Hm Hd. rewrite !Happ. simpl.
    now rewrite (Hkeep y Hy), (Hkeep m Hm), (Hkeep d Hd).
Qed.

Lemma dob_without_hyphens_witness :
  Reception.remove_char "-" "1990-01-31" = "19900131".
Proof.
  destruct (dob_without_hyphens "1990" "01" "31" "") as [_ H].
  apply H; reflexivity.
Defined.

Lemma count_msh (c : ascii) (ts msg_id : string) :
  count_char c (Reception.msh_segment ts msg_id)
  = count_char c "MSH|^~\&|Reception|Clinic|HIS|Hospital|" + count_char c ts
    + count_char c "||ADT^A04|" + count_char c msg_id + count_char c "|P|2.5".
Proof.
  unfold Reception.msh_segment. rewrite !count_char_app. lia.
Qed.

Lemma count_pid (c : ascii) (patient_id : Z) (first last dob : string) :
  count_char c (Reception.pid_segment patient_id first last dob)
  = count_char c "PID|||" + count_char c (Reception.str_int patient_id)
    + count_char c "||" + count_char c last + count_char c "^"
    + count_char c first + count_char c "||"
    + count_char c (Reception.remove_char "-" dob) + count_char c "|".
Proof.
  unfold Reception.pid_segment. rewrite !count_char_app. lia.
Qed.

(** X13: the message of [build_hl7_adt_a04] is three segments, MSH, PID
    and PV1, each closed by a carriage return, when the timestamp, the
    message id, the names and the date hold no carriage return. *)
Theorem hl7_message_segments (ts msg_id : string) (patient_id : Z)
    (first last dob : string) :
  count_char "013" ts = 0 -> count_char "013" msg_id = 0 ->
  count_char "013" first = 0 -> count_char "013" last = 0 ->
  count_char "013" dob = 0 ->
  split "013"
    (Reception.build_hl7_adt_a04 ts msg_id patient_id first last dob)
  = [Reception.msh_segment ts msg_id;
     Reception.pid_segment patient_id first last dob;
     Reception.pv1_segment; ""].
Proof.
  intros Hts Hid Hf Hl Hd.
  assert (Hmsh : count_char "013" (Reception.msh_segment ts msg_id) = 0)
    by (rewrite count_msh, Hts, Hid; reflexivity).
  assert (Hpid : count_char "013"
                   (Reception.pid_segment patient_id first last dob) = 0).
  { rewrite count_pid, Hf, Hl, count_char_remove, Hd by discriminate.
    rewrite count_char_str_int by (vm_compute; lia). reflexivity. }
  unfold Reception.build_hl7_adt_a04. cbn [Reception.join].
  unfold Reception.CR. rewrite !string_app_assoc. cbn [append].
  rewrite (split_app _ _ _ Hmsh), (split_app _ _ _ Hpid).
  now rewrite (split_app "013" Reception.pv1_segment "" eq_refl).
Qed.

Lemma hl7_message_segments_witness :
  List.length
    (split "013"
       (Reception.build_hl7_adt_a04 "20240101120000" "id-1" 7 "Jane" "Doe"
          "1990-01-31")) = 4.
Proof.
  now rewrite (hl7_message_segments "20240101120000" "id-1" 7 "Jane" "Doe"
                 "1990-01-31" eq_refl eq_refl eq_refl eq_refl eq_refl).
Defined.

(** X14: in the PID segment the patient id is field 3, the name, as
    [last^first], field 5 and the date without hyphens field 7, counting
    from [PID] as field 0, when neither name nor the date holds a [|]. *)
Theorem pid_segment_fields (patient_id : Z) (first last dob : string) :
  count_char "|" first = 0 -> count_char "|" last = 0 ->
  count_char "|" dob = 0 ->
  split "|" (Reception.pid_segment patient_id first last dob)
  = ["PID"; ""; ""; Reception.str_int patient_id; "";
     (last ++ "^" ++ first)%string; "";
     Reception.remove_char "-" dob; ""].
Proof.
  intros Hf Hl Hd.
  assert (Hid : count_char "|" (Reception.str_int patient_id) = 0)
    by (apply count_char_str_int; vm_compute; lia).
  assert (Hname : count_char "|" (last ++ "^" ++ first) = 0)
    by (rewrite !count_char_app, Hf, Hl; reflexivity).
  assert (Hdob : count_char "|" (Reception.remove_char "-" dob) = 0)
    by (rewrite count_char_remove, Hd by discriminate; reflexivity).
  assert (E : Reception.pid_segment patient_id first last dob
              = ("PID|||"
                 ++ Reception.str_int patient_id
                 ++ String "|" (String "|"
                      ((last ++ "^" ++ first)
                       ++ String "|" (String "|"
                            (Reception.remove_char "-" dob
                             ++ String "|" "")))))%string).
  { unfold Reception.pid_segment. rewrite !string_app_assoc. reflexivity. }
  rewrite E.
  change ("PID|||" ++ ?x)%string
    with (String "P" (String "I" (String "D"
           (String "|" (String "|" (String "|" x)))))).
  cbn [split Ascii.eqb Bool.eqb].
  rewrite (split_app _ _ _ Hid). cbn [split Ascii.eqb Bool.eqb].
  rewrite (split_app _ _ _ Hname). cbn [split Ascii.eqb Bool.eqb].
  now rewrite (split_app _ _ _ Hdob).
Qed.

Lemma pid_segment_fields_witness :
  split "|" (Reception.pid_segment 7 "Jane" "Doe" "1990-01-31")
  = ["PID"; ""; ""; "7"; ""; "Doe^Jane"; ""; "19900131"; ""].
Proof.
  exact (pid_segment_fields 7 "Jane" "Doe" "1990-01-31"
           eq_refl eq_refl eq_refl).
Defined.

(** X15: [build_hl7_adt_a04] does not escape the field separator: the PID
    segment has nine fields and one more for every [|] in the names and
    the date, so a [|] typed into a name moves the fields behind it. *)
Theorem pid_segment_never_escapes (patient_id : Z) (first last dob : string) :
  List.length (split "|" (Reception.pid_segment patient_id first last dob))
  = 9 + count_char "|" first + count_char "|" last + count_char "|" dob.
Proof.
  rewrite split_length, count_pid, count_char_remove by discriminate.
  rewrite count_char_str_int by (vm_compute; lia). simpl. lia.
Qed.

(** * HL7/main.py: register, and the chief server behind it *)

(** X16: [register] does not depend on the chief server: whether the
    notification succeeds or ends in any [Exception], the reply is the new
    id with the data as typed, the patient is stored under that id with
    the names stripped, and the HL7 text built from the names as typed is
    stored and sent along. *)
Theorem register_survives_notification (ts msg_id now : string)
    (notified : res unit) (p : Reception.PatientIn)
    (db : Reception.database) :
  notification_over notified ->
  let o := Reception.register ts msg_id now notified p db in
  let k := (Reception.patients_seq db + 1)%Z in
  let hl7 := Reception.build_hl7_adt_a04 ts msg_id k
               (Reception.first_name p) (Reception.last_name p)
               (Reception.dob p) in
  o = Reception.register ts msg_id now (Ok tt) p db
  /\ Reception.reply o = Ok (k, p)
  /\ Reception.patients (Reception.stored o)
     = Reception.patients db
       ++ [{| Reception.row_id := k;
              Reception.row_first_name := Fhir.strip (Reception.first_name p);
              Reception.row_last_name := Fhir.strip (Reception.last_name p);
              Reception.row_dob := Reception.dob p |}]
  /\ Reception.hl7_messages (Reception.stored o)
     = Reception.hl7_messages db
       ++ [((Reception.hl7_messages_seq db + 1)%Z, now, hl7)]
  /\ ChiefApi.hl7_raw (Reception.posted o) = Some hl7.
Proof.
  intros Hover o k hl7.
  assert (Hreply : Reception.reply o = Ok (k, p)).
  { unfold o, Reception.register. simpl.
    destruct notified as [u | e |]; simpl in *; [reflexivity | | tauto].
    destruct (caught e [ConnectionResetError]); [reflexivity|].
    unfold caught. simpl. now rewrite Hover. }
  split; [|now repeat split].
  unfold o in *. unfold Reception.register in *. simpl in *.
  now rewrite Hreply.
Qed.

Lemma register_survives_notification_witness :
  let p := {| Reception.first_name := " Jane "; Reception.last_name := "Doe";
              Reception.dob := "1990-01-31" |} in
  let db := {| Reception.patients := []; Reception.patients_seq := 0;
               Reception.hl7_messages := [];
               Reception.hl7_messages_seq := 0 |} in
  Reception.reply (Reception.register "ts" "id" "now" (Raise OSError) p db)
  = Ok (1%Z, p)
  /\ map Reception.row_first_name
       (Reception.patients
          (Reception.stored
             (Reception.register "ts" "id" "now" (Raise OSError) p db)))
     = ["Jane"].
Proof.
  intros p db.
  destruct (register_survives_notification "ts" "id" "now" (Raise OSError) p db
              eq_refl) as (_ & Hreply & Hrows & _).
  split; [exact Hreply | now rewrite Hrows].
Defined.

Lemma build_hl7_nonempty (ts msg_id : string) (patient_id : Z)
    (first last dob : string) :
  String.eqb
    (Reception.build_hl7_adt_a04 ts msg_id patient_id first last dob) ""
  = false.
Proof. reflexivity. Qed.

(** X17: when the chief server handles what [register] posts, it stores
    the patient under the id the reception gave it, with the same stripped
    names and the same date as the reception's own row, appends the same
    HL7 text to its [hl7_messages], and echoes that id.  The id is the
    reception's own [lastrowid], a key that SQLite holds and so one that
    the chief server's [execute] can bind. *)
Theorem reception_to_chief (ts msg_id now : string) (notified : res unit)
    (p : Reception.PatientIn) (rdb : Reception.database)
    (now1 now2 : string) (cdb : ChiefApi.database) :
  in_int64 (Reception.patients_seq rdb + 1) = true ->
  let o := Reception.register ts msg_id now notified p rdb in
  let co := ChiefApi.register_patient now1 now2 (Reception.posted o) cdb in
  exists (row : Reception.patient_row) (key : Z) (hl7 : string),
    Reception.patients (Reception.stored o)
    = Reception.patients rdb ++ [row]
    /\ Reception.hl7_messages (Reception.stored o)
       = Reception.hl7_messages rdb ++ [(key, now, hl7)]
    /\ ChiefApi.reply co = Ok (Reception.row_id row)
    /\ chief_row_of (Reception.row_id row) (ChiefApi.stored co)
       = Some {| ChiefApi.row_id := Reception.row_id row;
                 ChiefApi.row_first_name := Reception.row_first_name row;
                 ChiefApi.row_last_name := Reception.row_last_name row;
                 ChiefApi.row_dob := Reception.row_dob row;
                 ChiefApi.row_registered_at := now1 |}
    /\ ChiefApi.hl7_messages (ChiefApi.stored co)
       = ChiefApi.hl7_messages cdb
         ++ [((ChiefApi.hl7_messages_seq cdb + 1)%Z, now2, hl7)].
Proof.
  intros Hkey o co.
  assert (Hco : co = ChiefApi.register_patient now1 now2
                       (Reception.posted o) cdb) by reflexivity.
  unfold ChiefApi.register_patient in Hco.
  cbn [Reception.posted o Reception.register ChiefApi.patient_id] in Hco.
  rewrite (bind_int_ok _ Hkey) in Hco. rewrite Hco.
  eexists _, _, _.
  split; [reflexivity|]. split; [reflexivity|]. split; [reflexivity|].
  cbn [ChiefApi.stored ChiefApi.has_hl7 ChiefApi.hl7_raw].
  rewrite build_hl7_nonempty. split.
  - unfold chief_row_of. cbn [ChiefApi.patients ChiefApi.insert_hl7].
    rewrite replace_row_find. cbn [ChiefApi.row_id Reception.row_id].
    now rewrite Z.eqb_refl.
  - reflexivity.
Qed.

Lemma reception_to_chief_witness :
  let p := {| Reception.first_name := " Jane"; Reception.last_name := "Doe";
              Reception.dob := "1990-01-01" |} in
  let rdb := {| Reception.patients := []; Reception.patients_seq := 41;
                Reception.hl7_messages := [];
                Reception.hl7_messages_seq := 0 |} in
  let o := Reception.register "ts" "id" "now" (Ok tt) p rdb in
  let co := ChiefApi.register_patient "t1" "t2" (Reception.posted o)
              chief_empty_db in
  ChiefApi.reply co = Ok 42%Z
  /\ map ChiefApi.row_first_name (ChiefApi.patients (ChiefApi.stored co))
     = ["Jane"].
Proof.
  intros p rdb o co.
  destruct (reception_to_chief "ts" "id" "now" (Ok tt) p rdb "t1" "t2"
              chief_empty_db eq_refl)
    as (row & key & hl7 & Hrow & _ & Hreply & _).
  apply app_inj_tail in Hrow. destruct Hrow as [_ <-].
  split; [exact Hreply | reflexivity].
Defined.

(** * Broadcast: what it leaves of the registry *)

Lemma sublist_refl (l : list WebSocket) : sublist l l.
Proof. induction l; constructor; assumption. Qed.

Lemma sublist_trans (a b c : list WebSocket) :
  sublist a b -> sublist b c -> sublist a c.
Proof.
  intros Hab Hbc. revert a Hab.
  induction Hbc as [| x s l _ IH | x s l _ IH]; intros a Hab.
  - exact Hab.
  - inversion Hab; subst.
    + apply sublist_keep. now apply IH.
    + apply sublist_skip. now apply IH.
  - apply sublist_skip. now apply IH.
Qed.

Lemma sublist_remove_first (ws : WebSocket) (l : list WebSocket) :
  sublist (remove_first ws l) l.
Proof.
  induction l as [|x l IH]; simpl; [constructor|].
  destruct (Nat.eqb x ws).
  - apply sublist_skip, sublist_refl.
  - now apply sublist_keep.
Qed.

Lemma sublist_remove_all (drop : list WebSocket) :
  forall l : list WebSocket,
    sublist (fold_left (fun l x => remove_first x l) drop l) l.
Proof.
  induction drop as [|x drop IH]; intros l; simpl; [apply sublist_refl|].
  eapply sublist_trans; [apply IH | apply sublist_remove_first].
Qed.

(** The send loop of chief_server.py does not touch the registry. *)
Lemma chief_deliver_active (net : WebSocket -> peer) (message : json)
    (fuel : nat) :
  forall (i : nat) (drop : list WebSocket) (w : world),
    active (snd (Chief.deliver net quiet message fuel i drop w)) = active w.
Proof.
  induction fuel as [|fuel IH]; intros i drop w.
  - simpl. now destruct (nth_error (active w) i).
  - destruct (nth_error (active w) i) as [ws|] eqn:Hi.
    + rewrite (chief_deliver_step net message fuel i drop w ws Hi).
      destruct (send_json (net ws) message) as [u | e |];
        [now rewrite IH | | reflexivity].
      destruct (isinstance e Exception); [now rewrite IH | reflexivity].
    + now rewrite chief_deliver_stop.
Qed.

Lemma fhir_visit_sublist (net : WebSocket -> peer) (message : json)
    (copy : list WebSocket) :
  forall (i : nat) (w : world),
    sublist (active (snd (Fhir.visit net quiet message copy i w))) (active w).
Proof.
  induction copy as [|ws copy IH]; intros i w.
  - apply sublist_refl.
  - rewrite fhir_visit_step.
    destruct (is_connected (client_state (net ws))).
    + destruct (send_json (net ws) message) as [u | e |].
      * apply (IH (S i) (emit (Delivered ws message) w)).
      * destruct (caught e Fhir.absorbed).
        -- eapply sublist_trans; [apply IH|]. apply sublist_remove_first.
        -- apply sublist_refl.
      * apply sublist_refl.
    + eapply sublist_trans; [apply IH|]. apply sublist_remove_first.
Qed.

(** X18: a broadcast that no registry call interleaves with never adds a
    connection to the registry and never reorders it, however it ends
    (returning, raising, or suspended in a send): the registry afterwards
    is the one before with some connections left out. *)
Theorem broadcast_only_removes (net : WebSocket -> peer) (message : json)
    (fuel : nat) (w : world) :
  sublist (active (snd (Fhir.broadcast net quiet message w))) (active w)
  /\ sublist (active (snd (Chief.broadcast net quiet message fuel w)))
       (active w).
Proof.
  split.
  - apply fhir_visit_sublist.
  - unfold Chief.broadcast, bind.
    pose proof (chief_deliver_active net message fuel 0 [] w) as Ha.
    destruct (Chief.deliver net quiet message fuel 0 [] w)
      as [[drop | e |] w1]; simpl in *.
    + rewrite chief_disconnect_all. simpl. rewrite Ha.
      apply sublist_remove_all.
    + rewrite Ha. apply sublist_refl.
    + rewrite Ha. apply sublist_refl.
Qed.

(** X19: chief_server.py removes the connections whose send failed only
    after the whole loop.  When the loop does not come to its end (a send
    raises outside [Exception], as on cancellation, or stays suspended),
    the registry is left exactly as it was, with the connections that have
    already failed still in it. *)
Theorem chief_broadcast_aborted_keeps_all (net : WebSocket -> peer)
    (message : json) (fuel : nat) (w : world) :
  fst (Chief.broadcast net quiet message fuel w) <> Ok tt ->
  active (snd (Chief.broadcast net quiet message fuel w)) = active w.
Proof.
  unfold Chief.broadcast, bind.
  pose proof (chief_deliver_active net message fuel 0 [] w) as Ha.
  destruct (Chief.deliver net quiet message fuel 0 [] w)
    as [[drop | e |] w1]; simpl in *; intros H; try exact Ha.
  rewrite chief_disconnect_all in H. now destruct H.
Qed.

Lemma chief_broadcast_aborted_keeps_all_witness :
  let net := fun x : WebSocket =>
    {| client_state := DISCONNECTED;
       send_json := fun _ =>
         if Nat.eqb x 1 then Raise RuntimeError
         else if Nat.eqb x 2 then Raise CancelledError else Ok tt |} in
  let w := {| active := [1; 2; 3]; wire := []; clock := 0 |} in
  Chief.broadcast net quiet ping 3 w
  = (Raise CancelledError,
     {| active := [1; 2; 3];
        wire := [Failed 1 ping RuntimeError; Failed 2 ping CancelledError];
        clock := 0 |})
  /\ active (snd (Chief.broadcast net quiet ping 3 w)) = active w.
Proof.
  intros net w. split; [reflexivity|].
  apply (chief_broadcast_aborted_keeps_all net ping 3 w).
  vm_compute. discriminate.
Defined.

(** * Broadcast: a second round *)

Lemma filter_all {A} (p : A -> bool) (l : list A) :
  (forall x, In x l -> p x = true) -> filter p l = l.
Proof.
  induction l as [|x l IH]; intros H; simpl; [reflexivity|].
  rewrite (H x (or_introl eq_refl)). f_equal. apply IH.
  intros y Hy. apply H. now right.
Qed.

Lemma flat_map_delivered (tr : WebSocket -> list frame) (message : json)
    (l : list WebSocket) :
  (forall x, In x l -> tr x = [Delivered x message]) ->
  flat_map tr l = map (fun x => Delivered x message) l.
Proof.
  induction l as [|x l IH]; intros H; simpl; [reflexivity|].
  rewrite (H x (or_introl eq_refl)). simpl. f_equal. apply IH.
  intros y Hy. apply H. now right.
Qed.

Lemma takes_send (net : WebSocket -> peer) (message : json) (x : WebSocket) :
  takes net message x = true -> send_json (net x) message = Ok tt.
Proof.
  unfold takes. destruct (send_json (net x) message) as [[] | e |];
    [reflexivity | discriminate | discriminate].
Qed.

(** X20: when a broadcast has returned, every connection it left in the
    registry took the message; a second broadcast over the same transport
    delivers to each of them, in registry order, and removes none. *)
Theorem broadcast_again_drops_nobody (net : WebSocket -> peer)
    (message : json) (fuel : nat) (w : world) :
  (fst (Fhir.broadcast net quiet message w) = Ok tt ->
   let w1 := snd (Fhir.broadcast net quiet message w) in
   Fhir.broadcast net quiet message w1
   = (Ok tt,
      {| active := active w1;
         wire := wire w1 ++ map (fun x => Delivered x message) (active w1);
         clock := clock w1 |}))
  /\ (fst (Chief.broadcast net quiet message fuel w) = Ok tt ->
      let w1 := snd (Chief.broadcast net quiet message fuel w) in
      Chief.broadcast net quiet message fuel w1
      = (Ok tt,
         {| active := active w1;
            wire := wire w1 ++ map (fun x => Delivered x message) (active w1);
            clock := clock w1 |})).
Proof.
  split.
  - intros Hret.
    pose proof (fhir_visit_returned net message (active w) 0 w Hret) as Hs.
    rewrite (fhir_broadcast_settled net message w Hs). cbn [snd].
    set (l := filter (fhir_keeps net message) (active w)).
    assert (Hk : forall x, In x l -> fhir_keeps net message x = true).
    { intros x Hx. apply filter_In in Hx. apply Hx. }
    rewrite fhir_broadcast_settled; cbn [active wire clock].
    + rewrite (filter_all _ l Hk).
      rewrite (flat_map_delivered (fhir_trace net message) message l);
        [reflexivity|].
      intros x Hx. specialize (Hk x Hx). unfold fhir_keeps in Hk.
      apply andb_prop in Hk. destruct Hk as [Hc Ht].
      unfold fhir_trace, trace. rewrite Hc, (takes_send _ _ _ Ht).
      reflexivity.
    + intros x Hx. specialize (Hk x Hx). unfold fhir_keeps in Hk.
      apply andb_prop in Hk. right. left. now apply takes_send.
  - intros Hret.
    assert (Hd : exists d,
               fst (Chief.deliver net quiet message fuel 0 [] w) = Ok d).
    { unfold Chief.broadcast, bind in Hret.
      destruct (Chief.deliver net quiet message fuel 0 [] w)
        as [[d | e |] w1]; simpl in *; [now exists d | | ]; discriminate. }
    destruct Hd as (d & Hd).
    destruct (chief_deliver_returned net message fuel 0 [] w d Hd)
      as [Hfuel Hs].
    simpl in Hfuel, Hs.
    rewrite (chief_broadcast_settled net message fuel w Hfuel Hs). cbn [snd].
    set (l := filter (takes net message) (active w)).
    assert (Hk : forall x, In x l -> takes net message x = true).
    { intros x Hx. apply filter_In in Hx. apply Hx. }
    rewrite chief_broadcast_settled; cbn [active wire clock].
    + rewrite (filter_all _ l Hk).
      rewrite (flat_map_delivered (trace net message) message l);
        [reflexivity|].
      intros x Hx. unfold trace. now rewrite (takes_send _ _ _ (Hk x Hx)).
    + pose proof (filter_length_le (takes net message) (active w)) as Hl.
      fold l in Hl. lia.
    + intros x Hx. left. apply takes_send. now apply Hk.
Qed.

Lemma broadcast_again_drops_nobody_witness :
  let net := fun x : WebSocket =>
    {| client_state := CONNECTED;
       send_json := fun _ =>
         if Nat.eqb x 2 then Raise ConnectionResetError else Ok tt |} in
  let w := {| active := [1; 2; 3]; wire := []; clock := 0 |} in
  let w1 := snd (Fhir.broadcast net quiet ping w) in
  let w2 := snd (Chief.broadcast net quiet ping 3 w) in
  active w1 = [1; 3]
  /\ Fhir.broadcast net quiet ping w1
     = (Ok tt,
        {| active := active w1;
           wire := wire w1 ++ map (fun x => Delivered x ping) (active w1);
           clock := clock w1 |})
  /\ Chief.broadcast net quiet ping 3 w2
     = (Ok tt,
        {| active := active w2;
           wire := wire w2 ++ map (fun x => Delivered x ping) (active w2);
           clock := clock w2 |}).
Proof.
  intros net w.
  destruct (broadcast_again_drops_nobody net ping 3 w) as [Hf Hc].
  split; [reflexivity|]. split; [apply Hf | apply Hc]; reflexivity.
Defined.

(** * The handlers: what they send *)

Lemma receive_text_wire (script : list inbound) :
  forall w : world, wire (snd (receive_text script w)) = wire w.
Proof.
  induction script as [|[gap data | gap e | c] script IH]; intros w; simpl;
    try reflexivity.
  rewrite IH. apply perform_wire.
Qed.

Lemma wait_for_wire (timeout : nat) (script : list inbound) :
  forall w : world, wire (snd (Fhir.wait_for timeout script w)) = wire w.
Proof.
  induction script as [|[gap data | gap e | c] script IH]; intros w; simpl;
    try reflexivity; try (now destruct (gap <? timeout)).
  rewrite IH. apply perform_wire.
Qed.

(** The loop of chief_server.py sends nothing. *)
Lemma chief_keep_alive_wire (fuel : nat) :
  forall (script : list inbound) (w : world),
    wire (snd (Chief.keep_alive fuel script w)) = wire w.
Proof.
  induction fuel as [|fuel IH]; intros script w; simpl; [reflexivity|].
  unfold bind. pose proof (receive_text_wire script w) as Hw.
  destruct (receive_text script w) as [[r | e |] w1]; simpl in *;
    try exact Hw.
  now rewrite IH.
Qed.

Lemma heartbeat_wire (line : nat -> peer) (ws : WebSocket) (w : world) :
  exists fs, wire (snd (Fhir.heartbeat line ws w)) = wire w ++ fs
             /\ Forall (sends ws ping) fs.
Proof.
  unfold Fhir.heartbeat.
  destruct (is_connected (client_state (line (clock w)))).
  - unfold await_send.
    destruct (send_json (line (clock w)) ping) as [u | e |]; simpl.
    + exists [Delivered ws ping]. split; [reflexivity|].
      constructor; [now split | constructor].
    + exists [Failed ws ping e]. split; [reflexivity|].
      constructor; [now split | constructor].
    + exists []. split; [now rewrite app_nil_r | constructor].
  - exists []. split; [simpl; now rewrite app_nil_r | constructor].
Qed.

(** The loop of FHIR/main.py sends pings on its own connection only. *)
Lemma fhir_keep_alive_wire (line : nat -> peer) (ws : WebSocket)
    (fuel : nat) :
  forall (script : list inbound) (w : world),
    exists fs,
      wire (snd (Fhir.keep_alive line ws fuel script w)) = wire w ++ fs
      /\ Forall (sends ws ping) fs.
Proof.
  induction fuel as [|fuel IH]; intros script w; simpl.
  - exists []. split; [now rewrite app_nil_r | constructor].
  - unfold bind at 1. pose proof (wait_for_wire Fhir.TIMEOUT script w) as Hw.
    destruct (Fhir.wait_for Fhir.TIMEOUT script w) as [[r | e |] w1];
      simpl in *;
      try (exists []; split; [now rewrite app_nil_r | constructor]).
    unfold bind. destruct (fst r) as [data|]; unfold ret.
    + destruct (IH (snd r) w1) as (fs & Hfs & Hall).
      exists fs. split; [now rewrite Hfs, Hw | exact Hall].
    + destruct (heartbeat_wire line ws w1) as (hs & Hhs & Hhall).
      destruct (Fhir.heartbeat line ws w1) as [[u | e |] w2]; simpl in *;
        try (exists hs; split; [now rewrite Hhs, Hw | exact Hhall]).
      destruct (IH (snd r) w2) as (fs & Hfs & Hall).
      exists (hs ++ fs). split.
      * now rewrite Hfs, Hhs, Hw, app_assoc.
      * apply Forall_app. now split.
Qed.

(** X21: what a [chief_ws] handler puts on the wire.  When [accept] does
    not return, the handler ends there: nothing is registered and nothing
    sent.  Otherwise the first frame it sends is the patient list, on its
    own connection; in chief_server.py this is the only frame the handler
    ever sends, in FHIR/main.py all that follow are pings on the same
    connection. *)
Theorem handler_sends_list_first (accepted : res unit)
    (fetch : res (list json)) (line : nat -> peer) (ws : WebSocket)
    (fuel : nat) (script : list inbound) (w : world) :
  (accepted <> Ok tt ->
   Fhir.chief_ws accepted fetch line ws fuel script w = (accepted, w)
   /\ Chief.chief_ws accepted fetch line ws fuel script w = (accepted, w))
  /\ (forall rows : list json,
        accepted = Ok tt -> fetch = Ok rows ->
        send_json (line (clock w)) (patients_message rows) <> Pending ->
        (exists f rest,
            new_frames w
              (snd (Fhir.chief_ws accepted fetch line ws fuel script w))
            = f :: rest
            /\ sends ws (patients_message rows) f
            /\ Forall (sends ws ping) rest)
        /\ (exists f,
               new_frames w
                 (snd (Chief.chief_ws accepted fetch line ws fuel script w))
               = [f]
               /\ sends ws (patients_message rows) f)).
Proof.
  split.
  - intros Hacc. destruct accepted as [[] | e |]; [now destruct Hacc | |];
      now split.
  - intros rows -> -> Hsend.
    set (w1 := set_active (active w ++ [ws]) w).
    set (msg := patients_message rows).
    assert (Hfirst : exists f r w2,
               await_send (line (clock w1)) ws msg [] w1 = (r, w2)
               /\ r <> Pending /\ wire w2 = wire w ++ [f]
               /\ sends ws msg f).
    { unfold await_send. change (clock w1) with (clock w).
      destruct (send_json (line (clock w)) msg) as [u | e |] eqn:Hs0;
        [| | now destruct (Hsend Hs0)].
      - exists (Delivered ws msg). eexists. eexists.
        split; [reflexivity|]. split; [discriminate|]. now split.
      - exists (Failed ws msg e). eexists. eexists.
        split; [reflexivity|]. split; [discriminate|]. now split. }
    destruct Hfirst as (f & r & w2 & Hs & Hr & Hw2 & Hf).
    split.
    + assert (Hbody : exists rest,
                 wire (snd (((fun w0 => await_send (line (clock w0)) ws
                                         msg [] w0) ;;;
                             Fhir.keep_alive line ws fuel script) w1))
                 = wire w ++ f :: rest
                 /\ Forall (sends ws ping) rest).
      { unfold bind. rewrite Hs.
        destruct r as [u | e |]; simpl;
          try (exists []; split; [exact Hw2 | constructor]).
        destruct (fhir_keep_alive_wire line ws fuel script w2)
          as (fs & Hfs & Hall).
        exists fs. split; [|exact Hall].
        now rewrite Hfs, Hw2, <- app_assoc. }
      destruct Hbody as (rest & Hrest & Hall).
      exists f, rest. split; [|now split].
      apply new_frames_app.
      unfold Fhir.chief_ws, connect, lift, bind at 1 2. simpl. fold w1.
      unfold try_finally, try_except, bind at 1, lift. simpl. fold msg.
      destruct ((_ ;;; Fhir.keep_alive line ws fuel script) w1)
        as [[v | e' |] w3]; simpl in *.
      * rewrite disconnect_eq. exact Hrest.
      * destruct (caught e' _); unfold ret; rewrite disconnect_eq;
          exact Hrest.
      * exact Hrest.
    + exists f. split; [|exact Hf].
      apply new_frames_app.
      assert (Hbody : wire (snd (((fun w0 => await_send (line (clock w0)) ws
                                               msg [] w0) ;;;
                                   Chief.keep_alive fuel script) w1))
                      = wire w ++ [f]).
      { unfold bind. rewrite Hs.
        destruct r as [u | e |]; simpl; try exact Hw2.
        now rewrite chief_keep_alive_wire. }
      unfold Chief.chief_ws, connect, lift, bind at 1 2. simpl. fold w1.
      unfold try_except, bind at 1, lift. simpl. fold msg.
      destruct ((_ ;;; Chief.keep_alive fuel script) w1)
        as [[v | e' |] w3]; simpl in *; try exact Hbody.
      destruct (caught e' [WebSocketDisconnect]);
        [rewrite disconnect_eq; exact Hbody|].
      destruct (caught e' [Exception]);
        [rewrite disconnect_eq; exact Hbody | exact Hbody].
Qed.

Lemma handler_sends_list_first_witness :
  let line := fun _ : nat =>
    {| client_state := CONNECTED; send_json := fun _ => Ok tt |} in
  let w := {| active := [3]; wire := [Delivered 3 ping]; clock := 0 |} in
  let script := [Text 70 "hello"; Broken 5 WebSocketDisconnect] in
  Fhir.chief_ws (Raise RuntimeError) (Ok []) line 4 9 script w
  = (Raise RuntimeError, w)
  /\ new_frames w (snd (Fhir.chief_ws (Ok tt) (Ok []) line 4 9 script w))
     = [Delivered 4 (patients_message []); Delivered 4 ping;
        Delivered 4 ping]
  /\ (exists f,
         new_frames w (snd (Chief.chief_ws (Ok tt) (Ok []) line 4 9 script w))
         = [f]
         /\ sends 4 (patients_message []) f).
Proof.
  intros line w script.
  destruct (handler_sends_list_first (Raise RuntimeError) (Ok []) line 4 9
              script w) as [Hfail _].
  destruct (handler_sends_list_first (Ok tt) (Ok []) line 4 9 script w)
    as [_ Hsent].
  split; [apply Hfail; discriminate|].
  split; [reflexivity|].
  apply (Hsent [] eq_refl eq_refl). discriminate.
Defined.

(** * The handlers: in the registry while they run *)

Lemma perform_keeps (ws : WebSocket) (c : call) (w : world) :
  c <> Disconnect ws ->
  occurrences ws (active w) <= occurrences ws (active (snd (perform c w))).
Proof.
  intros Hc. destruct c as [ws' [u | e |] | ws']; simpl; try lia.
  - rewrite occurrences_app. lia.
  - rewrite disconnect_eq. simpl. rewrite occurrences_remove_first.
    destruct (Nat.eqb_spec ws ws') as [-> | _]; [now destruct Hc | lia].
Qed.

Lemma undisturbed_meanwhile (ws : WebSocket) (c : call)
    (script : list inbound) :
  undisturbed ws (Meanwhile c :: script) = true ->
  c <> Disconnect ws /\ undisturbed ws script = true.
Proof.
  destruct c as [ws' a | ws']; simpl; intros H.
  - split; [discriminate | exact H].
  - apply andb_prop in H. destruct H as [Hne H]. split; [|exact H].
    intros [= ->]. now rewrite Nat.eqb_refl in Hne.
Qed.

Lemma receive_text_keeps (ws : WebSocket) (script : list inbound) :
  forall w : world,
    undisturbed ws script = true ->
    occurrences ws (active w)
    <= occurrences ws (active (snd (receive_text script w)))
    /\ forall r, fst (receive_text script w) = Ok r ->
                 undisturbed ws (snd r) = true.
Proof.
  induction script as [|[gap data | gap e | c] script IH]; intros w Hu.
  - split; [simpl; lia | discriminate].
  - split; [simpl; lia|]. intros r [= <-]. exact Hu.
  - split; [simpl; lia | discriminate].
  - apply undisturbed_meanwhile in Hu. destruct Hu as [Hc Hu].
    destruct (IH (snd (perform c w)) Hu) as [Hocc Hrest].
    split; [|exact Hrest].
    pose proof (perform_keeps ws c w Hc). simpl. lia.
Qed.

Lemma wait_for_keeps (ws : WebSocket) (timeout : nat)
    (script : list inbound) :
  forall w : world,
    undisturbed ws script = true ->
    occurrences ws (active w)
    <= occurrences ws (active (snd (Fhir.wait_for timeout script w)))
    /\ forall r, fst (Fhir.wait_for timeout script w) = Ok r ->
                 undisturbed ws (snd r) = true.
Proof.
  induction script as [|[gap data | gap e | c] script IH]; intros w Hu.
  - split; [simpl; lia|]. now intros r [= <-].
  - simpl. destruct (gap <? timeout); (split; [simpl; lia|]);
      now intros r [= <-].
  - simpl. destruct (gap <? timeout); (split; [simpl; lia|]);
      [discriminate | now intros r [= <-]].
  - apply undisturbed_meanwhile in Hu. destruct Hu as [Hc Hu].
    destruct (IH (snd (perform c w)) Hu) as [Hocc Hrest].
    split; [|exact Hrest].
    pose proof (perform_keeps ws c w Hc). simpl. lia.
Qed.

Lemma chief_keep_alive_keeps (ws : WebSocket) (fuel : nat) :
  forall (script : list inbound) (w : world),
    undisturbed ws script = true ->
    occurrences ws (active w)
    <= occurrences ws (active (snd (Chief.keep_alive fuel script w))).
Proof.
  induction fuel as [|fuel IH]; intros script w Hu; simpl; [lia|].
  unfold bind. destruct (receive_text_keeps ws script w Hu) as [Hocc Hrest].
  destruct (receive_text script w) as [[r | e |] w1]; simpl in *; try lia.
  specialize (IH (snd r) w1 (Hrest r eq_refl)). lia.
Qed.

Lemma fhir_keep_alive_keeps (line : nat -> peer) (ws : WebSocket)
    (fuel : nat) :
  forall (script : list inbound) (w : world),
    undisturbed ws script = true ->
    occurrences ws (active w)
    <= occurrences ws (active (snd (Fhir.keep_alive line ws fuel script w))).
Proof.
  induction fuel as [|fuel IH]; intros script w Hu; simpl; [lia|].
  unfold bind at 1.
  destruct (wait_for_keeps ws Fhir.TIMEOUT script w Hu) as [Hocc Hrest].
  destruct (Fhir.wait_for Fhir.TIMEOUT script w) as [[r | e |] w1];
    simpl in *; try lia.
  specialize (Hrest r eq_refl). unfold bind.
  destruct (fst r); unfold ret.
  - specialize (IH (snd r) w1 Hrest). lia.
  - assert (Hb : active (snd (Fhir.heartbeat line ws w1)) = active w1).
    { unfold Fhir.heartbeat.
      destruct (is_connected (client_state (line (clock w1))));
        [apply await_send_active | reflexivity]. }
    destruct (Fhir.heartbeat line ws w1) as [[u | e |] w2]; simpl in *;
      [| rewrite Hb; lia | rewrite Hb; lia].
    specialize (IH (snd r) w2 Hrest). rewrite Hb in IH. lia.
Qed.

Section RunningBodies.
Variable fetch : res (list json).
Variable line : nat -> peer.
Variable ws : WebSocket.
Variable fuel : nat.
Variable script : list inbound.
Hypothesis script_undisturbed : undisturbed ws script = true.

(** Sending the patient list and keeping the connection alive does not
    take the connection out of the registry. *)
Lemma fhir_body_keeps (w : world) :
  occurrences ws (active w)
  <= occurrences ws
       (active
          (snd ((rows <- lift fetch ;;
                 (fun w0 => await_send (line (clock w0)) ws
                              (patients_message rows) [] w0) ;;;
                 Fhir.keep_alive line ws fuel script) w))).
Proof.
  unfold bind, lift. destruct fetch as [rows | e |]; simpl; try lia.
  pose proof (await_send_active (line (clock w)) ws
                (patients_message rows) w) as Hs.
  destruct (await_send (line (clock w)) ws (patients_message rows) [] w)
    as [[v | e |] w2]; simpl in *; try (rewrite Hs; lia).
  pose proof (fhir_keep_alive_keeps line ws fuel script w2
                script_undisturbed).
  rewrite Hs in *. lia.
Qed.

Lemma chief_body_keeps (w : world) :
  occurrences ws (active w)
  <= occurrences ws
       (active
          (snd ((rows <- lift fetch ;;
                 (fun w0 => await_send (line (clock w0)) ws
                              (patients_message rows) [] w0) ;;;
                 Chief.keep_alive fuel script) w))).
Proof.
  unfold bind, lift. destruct fetch as [rows | e |]; simpl; try lia.
  pose proof (await_send_active (line (clock w)) ws
                (patients_message rows) w) as Hs.
  destruct (await_send (line (clock w)) ws (patients_message rows) [] w)
    as [[v | e |] w2]; simpl in *; try (rewrite Hs; lia).
  pose proof (chief_keep_alive_keeps ws fuel script w2 script_undisturbed).
  rewrite Hs in *. lia.
Qed.
End RunningBodies.

Lemma registered_after_connect (ws : WebSocket) (w : world) :
  1 <= occurrences ws (active (set_active (active w ++ [ws]) w)).
Proof.
  simpl. rewrite occurrences_app. unfold occurrences at 2. simpl.
  destruct (Nat.eq_dec ws ws); [lia | contradiction].
Qed.

Lemma occurrences_In (ws : WebSocket) (l : list WebSocket) :
  1 <= occurrences ws l -> In ws l.
Proof.
  intros H. destruct (in_dec Nat.eq_dec ws l) as [Hin | Hout];
    [exact Hin|].
  apply occurrences_zero in Hout. lia.
Qed.

Lemma fhir_chief_ws_accepted (fetch : res (list json)) (line : nat -> peer)
    (ws : WebSocket) (fuel : nat) (script : list inbound) (w : world) :
  Fhir.chief_ws (Ok tt) fetch line ws fuel script w
  = try_finally
      (try_except
         (rows <- lift fetch ;;
          (fun w0 => await_send (line (clock w0)) ws
                       (patients_message rows) [] w0) ;;;
          Fhir.keep_alive line ws fuel script)
         [([WebSocketDisconnect; ConnectionResetError; OSError], ret tt)])
      (disconnect ws) (set_active (active w ++ [ws]) w).
Proof. reflexivity. Qed.

Lemma chief_chief_ws_accepted (fetch : res (list json)) (line : nat -> peer)
    (ws : WebSocket) (fuel : nat) (script : list inbound) (w : world) :
  Chief.chief_ws (Ok tt) fetch line ws fuel script w
  = try_except
      (rows <- lift fetch ;;
       (fun w0 => await_send (line (clock w0)) ws
                    (patients_message rows) [] w0) ;;;
       Chief.keep_alive fuel script)
      [([WebSocketDisconnect], disconnect ws);
       ([Exception], disconnect ws)]
      (set_active (active w ++ [ws]) w).
Proof. reflexivity. Qed.

(** X22: a handler that is running has its connection in the registry.
    Once [accept] has returned, as long as the handler is suspended (in
    its first send, in [receive_text] or [wait_for], or in a ping) and no
    other task has disconnected the connection, the connection is in
    [ws_manager.active], so that a broadcast reaches it. *)
Theorem running_handler_registered (fetch : res (list json))
    (line : nat -> peer) (ws : WebSocket) (fuel : nat)
    (script : list inbound) (w : world) :
  undisturbed ws script = true ->
  (fst (Fhir.chief_ws (Ok tt) fetch line ws fuel script w) = Pending ->
   In ws (active (snd (Fhir.chief_ws (Ok tt) fetch line ws fuel script w))))
  /\ (fst (Chief.chief_ws (Ok tt) fetch line ws fuel script w) = Pending ->
      In ws
        (active (snd (Chief.chief_ws (Ok tt) fetch line ws fuel script w)))).
Proof.
  intros Hu.
  pose proof (registered_after_connect ws w) as Hone.
  split; intros Hp; apply occurrences_In.
  - pose proof (fhir_body_keeps fetch line ws fuel script Hu
                  (set_active (active w ++ [ws]) w)) as Hb.
    rewrite fhir_chief_ws_accepted in *.
    unfold try_finally, try_except in *.
    destruct ((_ <- _ ;; _) (set_active (active w ++ [ws]) w))
      as [[v | e |] w2]; cbn [fst snd select_handler] in *.
    + rewrite disconnect_eq in Hp. discriminate.
    + destruct (caught e _); unfold ret in Hp;
        rewrite disconnect_eq in Hp; discriminate.
    + lia.
  - pose proof (chief_body_keeps fetch line ws fuel script Hu
                  (set_active (active w ++ [ws]) w)) as Hb.
    rewrite chief_chief_ws_accepted in *.
    unfold try_except in *.
    destruct ((_ <- _ ;; _) (set_active (active w ++ [ws]) w))
      as [[v | e |] w2]; cbn [fst snd select_handler] in *.
    + discriminate.
    + destruct (caught e [WebSocketDisconnect]);
        [rewrite disconnect_eq in Hp; discriminate|].
      destruct (caught e [Exception]);
        [rewrite disconnect_eq in Hp; discriminate | discriminate].
    + lia.
Qed.

Lemma running_handler_registered_witness :
  let line := fun _ : nat =>
    {| client_state := CONNECTED; send_json := fun _ => Ok tt |} in
  let script := [Text 5 "hello"; Meanwhile (Disconnect 3)] in
  let w := {| active := [3]; wire := []; clock := 0 |} in
  undisturbed 4 script = true
  /\ fst (Fhir.chief_ws (Ok tt) (Ok []) line 4 9 script w) = Pending
  /\ In 4 (active (snd (Fhir.chief_ws (Ok tt) (Ok []) line 4 9 script w)))
  /\ fst (Chief.chief_ws (Ok tt) (Ok []) line 4 9 script w) = Pending
  /\ In 4 (active (snd (Chief.chief_ws (Ok tt) (Ok []) line 4 9 script w))).
Proof.
  intros line script w.
  destruct (running_handler_registered (Ok []) line 4 9 script w eq_refl)
    as [Hfhir Hchief].
  split; [reflexivity|]. split; [reflexivity|].
  split; [apply Hfhir; reflexivity|]. split; [reflexivity|].
  apply Hchief. reflexivity.
Defined.

(** X23: chief_server.py has no [finally]: an exception that leaves its
    handler is one that neither [except] clause catches, that is one
    outside [Exception] (the [CancelledError] of a cancelled task), and
    the connection is then still in the registry, unless another task has
    removed it. *)
Theorem chief_handler_escape_stays_registered (fetch : res (list json))
    (line : nat -> peer) (ws : WebSocket) (fuel : nat)
    (script : list inbound) (w : world) (e : exn) :
  undisturbed ws script = true ->
  fst (Chief.chief_ws (Ok tt) fetch line ws fuel script w) = Raise e ->
  isinstance e Exception = false
  /\ In ws
       (active (snd (Chief.chief_ws (Ok tt) fetch line ws fuel script w))).
Proof.
  intros Hu Hp.
  pose proof (registered_after_connect ws w) as Hone.
  pose proof (chief_body_keeps fetch line ws fuel script Hu
                (set_active (active w ++ [ws]) w)) as Hb.
  rewrite chief_chief_ws_accepted in *.
  unfold try_except in *.
  destruct ((_ <- _ ;; _) (set_active (active w ++ [ws]) w))
    as [[v | e' |] w2]; cbn [fst snd select_handler] in *;
    try discriminate.
  destruct (caught e' [WebSocketDisconnect]);
    [rewrite disconnect_eq in Hp; discriminate|].
  destruct (caught e' [Exception]) eqn:Hc;
    [rewrite disconnect_eq in Hp; discriminate|].
  cbn [fst snd] in *. injection Hp as ->. split.
  - unfold caught in Hc. simpl in Hc. now rewrite orb_false_r in Hc.
  - apply occurrences_In. lia.
Qed.

Lemma chief_handler_escape_stays_registered_witness :
  let line := fun _ : nat =>
    {| client_state := CONNECTED; send_json := fun _ => Ok tt |} in
  let script := [Text 5 "hello"; Broken 3 CancelledError] in
  let w := {| active := [3]; wire := []; clock := 0 |} in
  Chief.chief_ws (Ok tt) (Ok []) line 4 9 script w
  = (Raise CancelledError,
     {| active := [3; 4];
        wire := [Delivered 4 (patients_message [])];
        clock := 8 |})
  /\ isinstance CancelledError Exception = false
  /\ In 4 (active (snd (Chief.chief_ws (Ok tt) (Ok []) line 4 9 script w))).
Proof.
  intros line script w. split; [reflexivity|].
  apply (chief_handler_escape_stays_registered (Ok []) line 4 9 script w
           CancelledError); reflexivity.
Defined.

(** * The liveness loop: a client that keeps sending *)

(** X24: every client frame restarts the 30 units of [wait_for].  While
    the frames of a client arrive less than 30 units after the wait for
    them began, the loop of FHIR/main.py sends no ping, however long this
    goes on and whatever the state of the connection: it takes one turn
    per frame and leaves registry and wire as they are. *)
Theorem prompt_frames_no_ping (line : nat -> peer) (ws : WebSocket)
    (fuel : nat) (frames rest : list inbound) :
  forall w : world,
    forallb prompt frames = true ->
    Fhir.keep_alive line ws (List.length frames + fuel) (frames ++ rest) w
    = Fhir.keep_alive line ws fuel rest
        {| active := active w; wire := wire w;
           clock := clock w + elapsed frames |}.
Proof.
  induction frames as [|[gap data | gap e | c] frames IH]; intros w Hp;
    try discriminate.
  - simpl. rewrite Nat.add_0_r. now destruct w.
  - simpl in Hp. apply andb_prop in Hp. destruct Hp as [Hgap Hp].
    cbn [List.length Nat.add app Fhir.keep_alive].
    unfold bind at 1. cbn [Fhir.wait_for]. rewrite Hgap.
    unfold bind at 1. cbn [fst snd]. unfold ret at 1.
    rewrite (IH (tick gap w) Hp). cbn [elapsed tick active wire clock].
    now rewrite Nat.add_assoc.
Qed.

Lemma prompt_frames_no_ping_witness :
  let line := fun _ : nat =>
    {| client_state := CONNECTED; send_json := fun _ => Ok tt |} in
  let w := {| active := [1]; wire := []; clock := 0 |} in
  forallb prompt [Text 29 "a"; Text 29 "b"; Text 29 "c"] = true
  /\ Fhir.keep_alive line 1 (3 + 1)
       ([Text 29 "a"; Text 29 "b"; Text 29 "c"] ++ [Text 31 "d"]) w
     = Fhir.keep_alive line 1 1 [Text 31 "d"]
         {| active := [1]; wire := []; clock := 87 |}.
Proof.
  intros line w. split; [reflexivity|].
  apply (prompt_frames_no_ping line 1 1
           [Text 29 "a"; Text 29 "b"; Text 29 "c"] [Text 31 "d"] w).
  reflexivity.
Defined.

(** * HL7/main.py: the keys of the reception, and reading back *)

Lemma first_keys_S (n : nat) :
  first_keys (S n) = first_keys n ++ [Z.of_nat (S n)].
Proof. unfold first_keys. now rewrite seq_S, map_app. Qed.

Lemma reception_register_all_snoc (calls : list registration)
    (c : registration) (db : Reception.database) :
  reception_register_all (calls ++ [c]) db
  = reception_register (reception_register_all calls db) c.
Proof. unfold reception_register_all. now rewrite fold_left_app. Qed.

Lemma reception_keys (calls : list registration) :
  let db := reception_register_all calls reception_empty_db in
  map Reception.row_id (Reception.patients db)
  = first_keys (List.length calls)
  /\ Reception.patients_seq db = Z.of_nat (List.length calls)
  /\ map (fun m => fst (fst m)) (Reception.hl7_messages db)
     = first_keys (List.length calls)
  /\ Reception.hl7_messages_seq db = Z.of_nat (List.length calls).
Proof.
  induction calls as [|c calls IH] using rev_ind.
  - repeat split.
  - rewrite reception_register_all_snoc. cbv zeta in *.
    destruct IH as (Hk & Hs & Hm & Hn).
    rewrite length_app, Nat.add_1_r, first_keys_S.
    unfold reception_register. cbn [Reception.register Reception.stored
      Reception.patients Reception.patients_seq Reception.hl7_messages
      Reception.hl7_messages_seq].
    rewrite !map_app, Hk, Hm, Hs, Hn. cbn [map Reception.row_id fst].
    replace (Z.of_nat (List.length calls) + 1)%Z
      with (Z.of_nat (S (List.length calls))) by lia.
    repeat split.
Qed.

(** X25: the reception hands out consecutive ids.  Starting from empty
    tables, after [n] registrations (whatever became of the notification
    of the chief server) the patients have the ids [1 .. n] in the order
    they were registered, and so have their HL7 messages: the next
    patient gets [n + 1] and no id is used twice. *)
Theorem reception_ids_consecutive (calls : list registration)
    (ts msg_id now : string) (p : Reception.PatientIn) :
  let db := reception_register_all calls reception_empty_db in
  map Reception.row_id (Reception.patients db)
  = first_keys (List.length calls)
  /\ map (fun m => fst (fst m)) (Reception.hl7_messages db)
     = first_keys (List.length calls)
  /\ Reception.reply (Reception.register ts msg_id now (Ok tt) p db)
     = Ok (Z.of_nat (S (List.length calls)), p).
Proof.
  destruct (reception_keys calls) as (Hk & Hs & Hm & _). cbv zeta in *.
  split; [exact Hk|]. split; [exact Hm|].
  cbn [Reception.register Reception.reply]. rewrite Hs.
  do 2 f_equal. lia.
Qed.

Lemma listed_keys_reception (rows : list Reception.patient_row) :
  listed_keys (map Reception.row_json rows) = map Reception.row_id rows.
Proof. induction rows as [|r rows IH]; simpl; [|rewrite IH]; reflexivity. Qed.

(** X26: what [register] stores can be read back at once.  After a
    registration the new patient, under the id of the reply and with the
    names stripped, is the first entry of GET /api/patients, which lists
    the ten highest ids in descending order; and the HL7 message built
    for it is the first entry of GET /api/hl7/last for every [n] of the
    64-bit range other than 0.  For an [n] outside that range the request
    ends in the [OverflowError] of the [execute]. *)
Theorem register_reads_back (calls : list registration)
    (ts msg_id now : string) (notified : res unit)
    (p : Reception.PatientIn) (n : Z) :
  let db := reception_register_all calls reception_empty_db in
  let o := Reception.register ts msg_id now notified p db in
  let k := Z.of_nat (S (List.length calls)) in
  hd_error (Reception.fetch_all_patients (Reception.stored o))
  = Some (JObj [("id", JInt k);
                ("first_name", JStr (Fhir.strip (Reception.first_name p)));
                ("last_name", JStr (Fhir.strip (Reception.last_name p)));
                ("dob", JStr (Reception.dob p))])
  /\ listed_keys (Reception.fetch_all_patients (Reception.stored o))
     = firstn 10 (rev (first_keys (S (List.length calls))))
  /\ (in_int64 n = true -> n <> 0%Z ->
      exists rest,
        Reception.last_hl7 n (Reception.stored o)
        = Ok (JObj [("created_at", JStr now);
                    ("raw",
                     JStr (Reception.build_hl7_adt_a04 ts msg_id k
                             (Reception.first_name p) (Reception.last_name p)
                             (Reception.dob p)))]
              :: rest))
  /\ (in_int64 n = false ->
      Reception.last_hl7 n (Reception.stored o) = Raise OverflowError).
Proof.
  destruct (reception_keys calls) as (Hk & Hs & _). cbv zeta in *.
  assert (Hseq : (Reception.patients_seq
                    (reception_register_all calls reception_empty_db) + 1)%Z
                 = Z.of_nat (S (List.length calls))) by lia.
  split; [|split; [|split]].
  - unfold Reception.fetch_all_patients.
    cbn [Reception.register Reception.stored Reception.patients].
    rewrite rev_app_distr, Hseq. reflexivity.
  - unfold Reception.fetch_all_patients.
    rewrite listed_keys_reception, <- firstn_map, map_rev.
    cbn [Reception.register Reception.stored Reception.patients].
    rewrite map_app, Hk, Hseq, first_keys_S. reflexivity.
  - intros Hin Hn. unfold Reception.last_hl7.
    rewrite (sql_limit_in_range n _ Hin).
    cbn [Reception.register Reception.stored Reception.hl7_messages
         Fhir.rbind].
    rewrite rev_app_distr, Hseq. cbn [rev app].
    destruct (sql_limit_head n
                ((Reception.hl7_messages_seq
                    (reception_register_all calls reception_empty_db)
                  + 1)%Z, now,
                 Reception.build_hl7_adt_a04 ts msg_id
                   (Z.of_nat (S (List.length calls)))
                   (Reception.first_name p) (Reception.last_name p)
                   (Reception.dob p))
                (rev (Reception.hl7_messages
                        (reception_register_all calls reception_empty_db)))
                Hn) as (rest & ->).
    now eexists.
  - intros Hout. unfold Reception.last_hl7.
    now rewrite (sql_limit_overflow n _ Hout).
Qed.

Lemma register_reads_back_witness :
  let jane := {| Reception.first_name := " Jane";
                 Reception.last_name := "Doe ";
                 Reception.dob := "1990-01-01" |} in
  let before := [{| reg_ts := "20240101000000"; reg_msg_id := "m1";
                    reg_now := "t1"; reg_notified := Raise OSError;
                    reg_form := jane |}] in
  let o := Reception.register "20240102000000" "m2" "t2" (Ok tt) jane
             (reception_register_all before reception_empty_db) in
  (exists rest,
      Reception.last_hl7 5 (Reception.stored o)
      = Ok (JObj [("created_at", JStr "t2");
                  ("raw",
                   JStr (Reception.build_hl7_adt_a04 "20240102000000" "m2" 2
                           " Jane" "Doe " "1990-01-01"))]
            :: rest))
  /\ Reception.last_hl7 (2 ^ 63) (Reception.stored o) = Raise OverflowError.
Proof.
  intros jane before.
  destruct (register_reads_back before "20240102000000" "m2" "t2" (Ok tt)
              jane 5) as (_ & _ & Hback & _).
  destruct (register_reads_back before "20240102000000" "m2" "t2" (Ok tt)
              jane (2 ^ 63)) as (_ & _ & _ & Hout).
  split; [apply Hback; [reflexivity | discriminate] | now apply Hout].
Defined.

(** * The order of events on a connection *)

(** The general await is the await of the registry calls when the tasks
    in the gap are registry calls. *)
Lemma await_send_during_calls (p : peer) (ws : WebSocket) (message : json)
    (calls : list call) (w : world) :
  await_send_during p ws message (registry_calls calls) w
  = await_send p ws message calls w.
Proof.
  unfold await_send_during, await_send, registry_calls.
  now destruct (send_json p message).
Qed.

Lemma fhir_visit_during_calls (net : WebSocket -> peer)
    (meanwhile : nat -> list call) (message : json)
    (copy : list WebSocket) :
  forall (i : nat) (w : world),
    Fhir.visit_during net (fun i => registry_calls (meanwhile i)) message
      copy i w
    = Fhir.visit net meanwhile message copy i w.
Proof.
  induction copy as [|ws copy IH]; intros i w; [reflexivity|].
  cbn [Fhir.visit_during Fhir.visit]. unfold bind, try_except.
  destruct (is_connected (client_state (net ws))).
  - rewrite await_send_during_calls.
    destruct (await_send (net ws) ws message (meanwhile i) w)
      as [[u | e |] w1]; [apply IH | | reflexivity].
    destruct (select_handler e _) as [h|]; [|reflexivity].
    destruct (h w1) as [[u | e' |] w2]; [apply IH | reflexivity..].
  - destruct (disconnect ws w) as [[u | e |] w1];
      [apply IH | | reflexivity].
    destruct (select_handler e _) as [h|]; [|reflexivity].
    destruct (h w1) as [[u | e' |] w2]; [apply IH | reflexivity..].
Qed.

Lemma chief_deliver_during_calls (net : WebSocket -> peer)
    (meanwhile : nat -> list call) (message : json) (fuel : nat) :
  forall (i : nat) (drop : list WebSocket) (w : world),
    Chief.deliver_during net (fun i => registry_calls (meanwhile i)) message
      fuel i drop w
    = Chief.deliver net meanwhile message fuel i drop w.
Proof.
  induction fuel as [|fuel IH]; intros i drop w; [reflexivity|].
  cbn [Chief.deliver_during Chief.deliver].
  destruct (nth_error (active w) i) as [ws|]; [|reflexivity].
  unfold bind, try_except. rewrite await_send_during_calls.
  destruct (await_send (net ws) ws message (meanwhile i) w)
    as [[u | e |] w1]; [apply IH | | reflexivity].
  destruct (select_handler e _) as [h|]; [|reflexivity].
  destruct (h w1) as [[u | e' |] w2]; [apply IH | reflexivity..].
Qed.

(** With registry calls in the gaps the general methods are the methods
    above. *)
Lemma broadcast_during_calls (net : WebSocket -> peer)
    (meanwhile : nat -> list call) (message : json) (fuel : nat)
    (w : world) :
  Fhir.broadcast_during net (fun i => registry_calls (meanwhile i)) message w
  = Fhir.broadcast net meanwhile message w
  /\ Chief.broadcast_during net (fun i => registry_calls (meanwhile i))
       message fuel w
     = Chief.broadcast net meanwhile message fuel w.
Proof.
  split.
  - apply fhir_visit_during_calls.
  - unfold Chief.broadcast_during, Chief.broadcast, bind.
    now rewrite chief_deliver_during_calls.
Qed.

(** Every frame that one broadcast puts on the wire carries its message. *)
Lemma fhir_visit_frames (net : WebSocket -> peer) (message : json)
    (copy : list WebSocket) :
  forall (i : nat) (w : world),
    exists fs,
      wire (snd (Fhir.visit net quiet message copy i w)) = wire w ++ fs
      /\ Forall (fun f => frame_message f = message) fs.
Proof.
  induction copy as [|ws copy IH]; intros i w.
  - exists []. split; [simpl; now rewrite app_nil_r | constructor].
  - rewrite fhir_visit_step.
    destruct (is_connected (client_state (net ws))).
    + destruct (send_json (net ws) message) as [u | e |].
      * destruct (IH (S i) (emit (Delivered ws message) w))
          as (fs & Hfs & Hall).
        exists (Delivered ws message :: fs). split.
        -- rewrite Hfs. simpl. now rewrite <- app_assoc.
        -- now constructor.
      * destruct (caught e Fhir.absorbed).
        -- destruct (IH (S i)
                       (set_active (remove_first ws (active w))
                          (emit (Failed ws message e) w)))
             as (fs & Hfs & Hall).
           exists (Failed ws message e :: fs). split.
           ++ rewrite Hfs. simpl. now rewrite <- app_assoc.
           ++ now constructor.
        -- exists [Failed ws message e]. split; [reflexivity|].
           now repeat constructor.
      * exists []. split; [simpl; now rewrite app_nil_r | constructor].
    + destruct (IH (S i) (set_active (remove_first ws (active w)) w))
        as (fs & Hfs & Hall).
      exists fs. now split.
Qed.

Lemma chief_deliver_frames (net : WebSocket -> peer) (message : json)
    (fuel : nat) :
  forall (i : nat) (drop : list WebSocket) (w : world),
    exists fs,
      wire (snd (Chief.deliver net quiet message fuel i drop w))
      = wire w ++ fs
      /\ Forall (fun f => frame_message f = message) fs.
Proof.
  induction fuel as [|fuel IH]; intros i drop w.
  - exists []. split; [|constructor]. simpl.
    destruct (nth_error (active w) i); simpl; now rewrite app_nil_r.
  - destruct (nth_error (active w) i) as [ws|] eqn:Hi.
    + rewrite (chief_deliver_step net message fuel i drop w ws Hi).
      destruct (send_json (net ws) message) as [u | e |].
      * destruct (IH (S i) drop (emit (Delivered ws message) w))
          as (fs & Hfs & Hall).
        exists (Delivered ws message :: fs). split.
        -- rewrite Hfs. simpl. now rewrite <- app_assoc.
        -- now constructor.
      * destruct (isinstance e Exception).
        -- destruct (IH (S i) (drop ++ [ws]) (emit (Failed ws message e) w))
             as (fs & Hfs & Hall).
           exists (Failed ws message e :: fs). split.
           ++ rewrite Hfs. simpl. now rewrite <- app_assoc.
           ++ now constructor.
        -- exists [Failed ws message e]. split; [reflexivity|].
           now repeat constructor.
      * exists []. split; [simpl; now rewrite app_nil_r | constructor].
    + rewrite chief_deliver_stop by exact Hi.
      exists []. split; [simpl; now rewrite app_nil_r | constructor].
Qed.

Lemma chief_broadcast_frames (net : WebSocket -> peer) (message : json)
    (fuel : nat) (w : world) :
  exists fs,
    wire (snd (Chief.broadcast net quiet message fuel w)) = wire w ++ fs
    /\ Forall (fun f => frame_message f = message) fs.
Proof.
  destruct (chief_deliver_frames net message fuel 0 [] w)
    as (fs & Hfs & Hall).
  exists fs. split; [|exact Hall].
  unfold Chief.broadcast, bind.
  destruct (Chief.deliver net quiet message fuel 0 [] w)
    as [[drop | e |] w1]; simpl in *; try exact Hfs.
  now rewrite chief_disconnect_all.
Qed.

Lemma in_order_nil (messages : list json) : in_order messages [].
Proof.
  exists (map (fun _ => []) messages). split.
  - induction messages as [|m ms IH]; simpl; [reflexivity | exact IH].
  - induction messages as [|m ms IH]; simpl; constructor;
      [constructor | exact IH].
Qed.

Lemma in_order_cons (m : json) (messages : list json)
    (part fs : list frame) :
  Forall (fun f => frame_message f = m) part ->
  in_order messages fs -> in_order (m :: messages) (part ++ fs).
Proof.
  intros Hpart (parts & -> & Hparts).
  exists (part :: parts). split; [reflexivity | now constructor].
Qed.

Lemma in_order_to_connection (x : WebSocket) (messages : list json)
    (fs : list frame) :
  in_order messages fs -> in_order messages (to_connection x fs).
Proof.
  intros (parts & -> & Hparts).
  exists (map (to_connection x) parts). split.
  - unfold to_connection. now rewrite concat_filter_map.
  - clear - Hparts. induction Hparts as [|m part ms parts Hp _ IH];
      simpl; constructor; [|exact IH].
    apply Forall_forall. intros f Hf. apply filter_In in Hf.
    rewrite Forall_forall in Hp. now apply Hp.
Qed.

(** Broadcasts made one after another put their frames on the wire in
    the order of the calls. *)
Section Sequential.
Variable net : WebSocket -> peer.

Lemma fhir_broadcasts_in_order (messages : list json) :
  forall w : world,
    exists fs,
      wire (snd (fhir_broadcasts net messages w)) = wire w ++ fs
      /\ in_order messages fs.
Proof.
  induction messages as [|m ms IH]; intros w.
  - exists []. split; [simpl; now rewrite app_nil_r | apply in_order_nil].
  - destruct (fhir_visit_frames net m (active w) 0 w) as (part & Hw & Hpart).
    cbn [fhir_broadcasts]. unfold bind.
    change (Fhir.visit net quiet m (active w) 0 w)
      with (Fhir.broadcast net quiet m w) in Hw.
    destruct (Fhir.broadcast net quiet m w) as [[u | e |] w1]; simpl in *.
    + destruct (IH w1) as (fs & Hfs & Hord).
      exists (part ++ fs). split; [|now apply in_order_cons].
      now rewrite Hfs, Hw, app_assoc.
    + exists (part ++ []). split; [now rewrite app_nil_r|].
      apply in_order_cons; [exact Hpart | apply in_order_nil].
    + exists (part ++ []). split; [now rewrite app_nil_r|].
      apply in_order_cons; [exact Hpart | apply in_order_nil].
Qed.

Lemma chief_broadcasts_in_order (fuel : nat) (messages : list json) :
  forall w : world,
    exists fs,
      wire (snd (chief_broadcasts net fuel messages w)) = wire w ++ fs
      /\ in_order messages fs.
Proof.
  induction messages as [|m ms IH]; intros w.
  - exists []. split; [simpl; now rewrite app_nil_r | apply in_order_nil].
  - destruct (chief_broadcast_frames net m fuel w) as (part & Hw & Hpart).
    cbn [chief_broadcasts]. unfold bind.
    destruct (Chief.broadcast net quiet m fuel w) as [[u | e |] w1];
      simpl in *.
    + destruct (IH w1) as (fs & Hfs & Hord).
      exists (part ++ fs). split; [|now apply in_order_cons].
      now rewrite Hfs, Hw, app_assoc.
    + exists (part ++ []). split; [now rewrite app_nil_r|].
      apply in_order_cons; [exact Hpart | apply in_order_nil].
    + exists (part ++ []). split; [now rewrite app_nil_r|].
      apply in_order_cons; [exact Hpart | apply in_order_nil].
Qed.

(** When every connection takes every message, each broadcast delivers to
    all of them and leaves the registry as it is. *)
Lemma fhir_broadcasts_fan_out (messages : list json) :
  forall w : world,
    all_take net messages (active w) ->
    fhir_broadcasts net messages w
    = (Ok tt,
       {| active := active w;
          wire := wire w ++ fan_out messages (active w);
          clock := clock w |}).
Proof.
  induction messages as [|m ms IH]; intros w Hall.
  - unfold fan_out. simpl. rewrite app_nil_r. now destruct w.
  - assert (Hm : forall x, In x (active w) ->
                   client_state (net x) = CONNECTED
                   /\ send_json (net x) m = Ok tt)
      by (intros x Hx; apply Hall; [exact Hx | now left]).
    cbn [fhir_broadcasts]. unfold bind.
    rewrite fhir_broadcast_settled
      by (intros x Hx; right; left; now apply Hm).
    assert (Hkeep : filter (fhir_keeps net m) (active w) = active w).
    { apply filter_all. intros x Hx. destruct (Hm x Hx) as [Hc Hs].
      unfold fhir_keeps, takes. now rewrite Hc, Hs. }
    assert (Htrace : flat_map (fhir_trace net m) (active w)
                     = map (fun x => Delivered x m) (active w)).
    { apply flat_map_delivered. intros x Hx. destruct (Hm x Hx) as [Hc Hs].
      unfold fhir_trace, trace. now rewrite Hc, Hs. }
    rewrite Hkeep, Htrace, IH; cbn [active wire clock].
    + unfold fan_out. simpl. now rewrite <- app_assoc.
    + intros x m' Hx Hm'. apply Hall; [exact Hx | now right].
Qed.

Lemma chief_broadcasts_fan_out (fuel : nat) (messages : list json) :
  forall w : world,
    all_take net messages (active w) ->
    List.length (active w) <= fuel ->
    chief_broadcasts net fuel messages w
    = (Ok tt,
       {| active := active w;
          wire := wire w ++ fan_out messages (active w);
          clock := clock w |}).
Proof.
  induction messages as [|m ms IH]; intros w Hall Hfuel.
  - unfold fan_out. simpl. rewrite app_nil_r. now destruct w.
  - assert (Hm : forall x, In x (active w) -> send_json (net x) m = Ok tt)
      by (intros x Hx; apply Hall; [exact Hx | now left]).
    cbn [chief_broadcasts]. unfold bind.
    rewrite chief_broadcast_settled
      by (try exact Hfuel; intros x Hx; left; now apply Hm).
    assert (Hkeep : filter (takes net m) (active w) = active w).
    { apply filter_all. intros x Hx. unfold takes. now rewrite (Hm x Hx). }
    assert (Htrace : flat_map (trace net m) (active w)
                     = map (fun x => Delivered x m) (active w)).
    { apply flat_map_delivered. intros x Hx. unfold trace.
      now rewrite (Hm x Hx). }
    rewrite Hkeep, Htrace, IH; cbn [active wire clock].
    + unfold fan_out. simpl. now rewrite <- app_assoc.
    + intros x m' Hx Hm'. apply Hall; [exact Hx | now right].
    + exact Hfuel.
Qed.
End Sequential.

Lemma opened_world (accepted : res unit) (line : nat -> peer)
    (ws : WebSocket) (rows : list json) (others : M unit) (w : world) :
  accepted = Ok tt ->
  send_json (line (clock w)) (patients_message rows) = Ok tt ->
  opened accepted line ws rows others w
  = (Ok tt,
     snd (others
            {| active := active w ++ [ws];
               wire := wire w ++ [Delivered ws (patients_message rows)];
               clock := clock w |})).
Proof.
  intros -> Hsend.
  unfold opened, connect, lift, bind, await_send_during. simpl.
  now rewrite Hsend.
Qed.




(** * chief_server.py: the handler that is cancelled *)

(** C5: the claim holds of FHIR/main.py, whose handler disconnects in a
    [finally] block, and fails in chief_server.py, whose two [except]
    clauses stop at [Exception]: when the handler's task is cancelled
    while it waits for the client, [CancelledError] leaves the handler
    and the connection stays in the registry.  On the same input the
    handler of FHIR/main.py has removed it. *)
Theorem chief_ws_cancelled_stays_registered :
  let line := fun _ : nat =>
    {| client_state := CONNECTED; send_json := fun _ => Ok tt |} in
  let script := [Text 20 "hello"; Broken 12 CancelledError] in
  let w := {| active := [1; 2]; wire := []; clock := 0 |} in
  Chief.chief_ws (Ok tt) (Ok []) line 7 9 script w
  = (Raise CancelledError,
     {| active := [1; 2; 7];
        wire := [Delivered 7 (patients_message [])];
        clock := 32 |})
  /\ In 7 (active (snd (Chief.chief_ws (Ok tt) (Ok []) line 7 9 script w)))
  /\ Fhir.chief_ws (Ok tt) (Ok []) line 7 9 script w
     = (Raise CancelledError,
        {| active := [1; 2];
           wire := [Delivered 7 (patients_message [])];
           clock := 32 |}).
Proof.
  split; [reflexivity|]. split; [|reflexivity]. simpl. tauto.
Qed.

(** * The handlers: in the registry exactly while they run *)


